(** * Sollumz converter: mesh extraction, DDS texture codec, YDR XML serializer
      and export orchestration, embedded in Rocq.

    The development follows the TypeScript sources:
    - [lib/formats/dds-encoder.ts]  (module [DdsEncoder])
    - [lib/formats/ydr-xml.ts]      (module [YdrXml])
    - [lib/parsers/model-parser.ts] (module [ModelParser])
    - [lib/export/exporter.ts]      (module [Exporter])

    JavaScript numbers that the code only uses as integers are modelled as [Z];
    typed arrays are lists whose out-of-range writes are ignored and whose
    out-of-range reads give [undefined] ([None]); exceptions are an explicit
    result type. *)

From Stdlib Require Import ZArith Lia Ascii String.
From Equations Require Import Equations.
From stdpp Require Import base option list list_numbers strings.

Local Open Scope Z_scope.

(** ** Exceptions *)

Inductive error : Type :=
| RangeError                       (* DataView access outside the buffer *)
| NotValidDds                      (* "Not a valid DDS file" *)
| FailedToDecode (fileName : string) (* "Failed to decode image: <name>" *)
| NoMeshGeometry.                  (* "No mesh geometry found in the imported model." *)

Inductive result (A : Type) : Type :=
| Ok (a : A)
| Throw (e : error).
Arguments Ok {A} a.
Arguments Throw {A} e.

Definition bind {A B} (r : result A) (k : A -> result B) : result B :=
  match r with
  | Ok a => k a
  | Throw e => Throw e
  end.

Notation "'let*' x := r 'in' k" := (bind r (fun x => k))
  (at level 10, x name, r at level 100, k at level 200).

(** ** Typed arrays and DataView *)

Module TypedArray.

(** ToUint8 of an integer. *)
Definition u8 (v : Z) : Z := v mod 256.

(** [a[i]]: [None] is [undefined]. *)
Definition get (a : list Z) (i : Z) : option Z :=
  if decide (0 <= i) then a !! Z.to_nat i else None.

(** [a[i]] stored into another Uint8Array: [undefined] is stored as 0. *)
Definition rd (a : list Z) (i : Z) : Z := default 0 (get a i).

(** [a[i] = v] on a Uint8Array: a write outside the array is ignored. *)
Definition set (a : list Z) (i : Z) (v : Z) : list Z :=
  if decide (0 <= i) then <[Z.to_nat i := u8 v]> a else a.

(** [new Uint8Array(n)]. *)
Definition alloc (n : Z) : list Z := replicate (Z.to_nat n) 0.

(** [target.set(src, off)] for [off + src.length <= target.length]. *)
Definition set_from (target src : list Z) (off : nat) : list Z :=
  take off target ++ src ++ drop (off + length src) target.

(** [view.getUint32(off, true)]: little endian, RangeError outside. *)
Definition getUint32 (a : list Z) (off : nat) : result Z :=
  match a !! off, a !! (off + 1)%nat, a !! (off + 2)%nat, a !! (off + 3)%nat with
  | Some b0, Some b1, Some b2, Some b3 =>
      Ok (b0 + b1 * 256 + b2 * 65536 + b3 * 16777216)
  | _, _, _, _ => Throw RangeError
  end.

(** [view.setUint32(off, v, true)] with ToUint32 of the value; every call
    of the encoder writes inside the 128-byte header. *)
Definition setUint32 (a : list Z) (off : nat) (v : Z) : list Z :=
  let w := v mod 4294967296 in
  <[(off + 3)%nat := (w / 16777216) mod 256]>
    (<[(off + 2)%nat := (w / 65536) mod 256]>
      (<[(off + 1)%nat := (w / 256) mod 256]>
        (<[off := w mod 256]> a))).

End TypedArray.

(** ** 32-bit integer operators of JavaScript *)

Module Int32.
Definition wrap (z : Z) : Z := (z + 2147483648) mod 4294967296 - 2147483648.
Definition shl (a k : Z) : Z := wrap (Z.shiftl (wrap a) (k mod 32)).
Definition shr (a k : Z) : Z := Z.shiftr (wrap a) (k mod 32).
Definition or (a b : Z) : Z := wrap (Z.lor (wrap a) (wrap b)).
Definition and (a b : Z) : Z := wrap (Z.land (wrap a) (wrap b)).
End Int32.

(** ** lib/formats/dds-encoder.ts *)

Module DdsEncoder.
Import TypedArray.

Definition DDS_MAGIC : Z := 0x20534444.
Definition DDSD_CAPS : Z := 0x1.
Definition DDSD_HEIGHT : Z := 0x2.
Definition DDSD_WIDTH : Z := 0x4.
Definition DDSD_PIXELFORMAT : Z := 0x1000.
Definition DDSD_MIPMAPCOUNT : Z := 0x20000.
Definition DDSD_LINEARSIZE : Z := 0x80000.
Definition DDPF_FOURCC : Z := 0x4.
Definition DDSCAPS_TEXTURE : Z := 0x1000.

Definition FOURCC_DXT1 : Z := 0x31545844.
Definition FOURCC_DXT5 : Z := 0x35545844.

Inductive DdsFormat : Type := DXT1 | DXT5.

#[export] Instance DdsFormat_eq_dec : EqDecision DdsFormat.
Proof. solve_decision. Defined.

(** A [File]: its name and its bytes. *)
Record File : Type := mkFile { file_name : string; file_bytes : list Z }.

Definition isDdsFile (data : list Z) : bool :=
  if decide (Z.of_nat (length data) < 4) then false
  else match getUint32 data 0 with
       | Ok m => bool_decide (m = DDS_MAGIC)
       | Throw _ => false
       end.

Definition getDdsFormatString (format : DdsFormat) : string :=
  match format with DXT1 => "D3DFMT_DXT1" | DXT5 => "D3DFMT_DXT5" end.

(** [let p = 1; while (p < n) p *= 2], started from any positive [p]. *)
Equations? while_double (p n : Z) (Hp : 0 < p) : Z
  by wf (Z.to_nat (n - p)) lt :=
  while_double p n Hp with Z_lt_dec p n => {
    | left _ := while_double (p * 2) n _
    | right _ := p }.
Proof. all: lia. Qed.

(** [p / 2] is an integer for every power of two but 1; for [p = 1] the
    source computes 0.5, which fails [lower >= 4] as the 0 here fails
    [lower > 0], so both return [p]. Subtractions of integers are exact. *)
Definition nearestPowerOf2 (n : Z) : Z :=
  if decide (n <= 0) then 1
  else
    let p := while_double 1 n eq_refl in
    let lower := p / 2 in
    if decide (lower > 0 /\ n - lower < p - n /\ lower >= 4) then lower
    else p.

(** [for (let i = ...; i < data.length; i += 4) if (data[i] < 250) return true;
    return false]. *)
Equations? hasAlpha_from (data : list Z) (i : nat) : bool
  by wf (length data - i)%nat lt :=
  hasAlpha_from data i with decide (i < length data)%nat => {
    | left _ :=
        if decide (rd data (Z.of_nat i) < 250) then true
        else hasAlpha_from data (i + 4)%nat
    | right _ := false }.
Proof. lia. Qed.

Definition hasAlpha (data : list Z) : bool := hasAlpha_from data 3.

(** [forceFormat || (hasAlpha(data) ? "DXT5" : "DXT1")]; both format
    strings are truthy. *)
Definition chooseFormat (forceFormat : option DdsFormat) (data : list Z) : DdsFormat :=
  match forceFormat with
  | Some fmt => fmt
  | None => if hasAlpha data then DXT5 else DXT1
  end.

(** [Math.round(a / d)] for integers [a >= 0], [d > 0]: the quotients the
    encoder rounds are thirds and sevenths, never halfway between two
    integers, so the rounding of the floating-point quotient is the rounding
    of the exact one. *)
Definition round_div (a d : Z) : Z := (2 * a + d) / (2 * d).

(** [Math.ceil(a / 4)]. *)
Definition ceil_div4 (a : Z) : Z := - ((- a) / 4).

Definition colorTo565 (r g b : Z) : Z :=
  Int32.or (Int32.or (Int32.shl (Int32.shr r 3) 11) (Int32.shl (Int32.shr g 2) 5))
           (Int32.shr b 3).

(** The loop counters [0 .. n-1]. *)
Definition upto (n : Z) : list Z := seqZ 0 n.

Definition extractBlock (data : list Z) (width height px py : Z) : list Z :=
  foldl (fun block y =>
    foldl (fun block x =>
      let sx := Z.min (px + x) (width - 1) in
      let sy := Z.min (py + y) (height - 1) in
      let srcOff := (sy * width + sx) * 4 in
      let dstOff := (y * 4 + x) * 4 in
      let block := set block dstOff (rd data srcOff) in
      let block := set block (dstOff + 1) (rd data (srcOff + 1)) in
      let block := set block (dstOff + 2) (rd data (srcOff + 2)) in
      set block (dstOff + 3) (rd data (srcOff + 3)))
    block (upto 4))
  (alloc 64) (upto 4).

(** [if (v < m) m = v] and [if (v > m) m = v] for a value [v] read from the
    block: a comparison with [undefined] is false, so the bound stays. *)
Definition lower (v : option Z) (m : Z) : Z :=
  match v with
  | Some v => if decide (v < m) then v else m
  | None => m
  end.

Definition raise (v : option Z) (m : Z) : Z :=
  match v with
  | Some v => if decide (v > m) then v else m
  | None => m
  end.

(** Running minimum and maximum of the three colour channels: six
    variables of the code, each updated by its own comparison. *)
Record bounds : Type := mkBounds {
  minR : Z; minG : Z; minB : Z; maxR : Z; maxG : Z; maxB : Z }.

Definition colorBounds (block : list Z) : bounds :=
  foldl (fun bd i =>
    let r := get block (i * 4) in
    let g := get block (i * 4 + 1) in
    let b := get block (i * 4 + 2) in
    mkBounds (lower r (minR bd)) (lower g (minG bd)) (lower b (minB bd))
             (raise r (maxR bd)) (raise g (maxG bd)) (raise b (maxB bd)))
  (mkBounds 255 255 255 0 0 0) (upto 16).

(** The inner loop over a palette: [bestDist] starts at [Infinity]
    ([None]); the first entry strictly closer than the best so far wins. *)
Definition closest (dists : list Z) : Z :=
  snd (foldl (fun '(bestDist, bestIdx) '(j, dist) =>
                match bestDist with
                | None => (Some dist, j)
                | Some bd => if decide (dist < bd) then (Some dist, j)
                             else (bestDist, bestIdx)
                end)
             (None, 0) (zip (upto (Z.of_nat (length dists))) dists)).

Definition encodeBC1Block (block output : list Z) (offset : Z) : list Z :=
  let bd := colorBounds block in
  let insetR := Int32.shr (maxR bd - minR bd) 4 in
  let insetG := Int32.shr (maxG bd - minG bd) 4 in
  let insetB := Int32.shr (maxB bd - minB bd) 4 in
  let minR := Z.min 255 (minR bd + insetR) in
  let minG := Z.min 255 (minG bd + insetG) in
  let minB := Z.min 255 (minB bd + insetB) in
  let maxR := Z.max 0 (maxR bd - insetR) in
  let maxG := Z.max 0 (maxG bd - insetG) in
  let maxB := Z.max 0 (maxB bd - insetB) in
  let color0 := colorTo565 maxR maxG maxB in
  let color1 := colorTo565 minR minG minB in
  let '(c0, c1, (ep0r, ep0g, ep0b), (ep1r, ep1g, ep1b)) :=
    if decide (color0 < color1)
    then (color1, color0, (minR, minG, minB), (maxR, maxG, maxB))
    else (color0, color1, (maxR, maxG, maxB), (minR, minG, minB)) in
  let palette :=
    [ (ep0r, ep0g, ep0b);
      (ep1r, ep1g, ep1b);
      (round_div (2 * ep0r + ep1r) 3,
       round_div (2 * ep0g + ep1g) 3,
       round_div (2 * ep0b + ep1b) 3);
      (round_div (ep0r + 2 * ep1r) 3,
       round_div (ep0g + 2 * ep1g) 3,
       round_div (ep0b + 2 * ep1b) 3) ] in
  let indices :=
    foldl (fun indices i =>
      let r := get block (i * 4) in
      let g := get block (i * 4 + 1) in
      let b := get block (i * 4 + 2) in
      let bestIdx :=
        match r, g, b with
        | Some r, Some g, Some b =>
            closest (map (fun '(pr, pg, pb) =>
                            let dr := r - pr in
                            let dg := g - pg in
                            let db := b - pb in
                            dr * dr + dg * dg + db * db) palette)
        | _, _, _ =>
            (* a channel is [undefined]: every distance is NaN and none is
               below [bestDist], so [bestIdx] stays 0 *)
            0
        end in
      Int32.or indices (Int32.shl bestIdx (i * 2)))
    0 (upto 16) in
  let output := set output offset (Int32.and c0 0xff) in
  let output := set output (offset + 1) (Int32.and (Int32.shr c0 8) 0xff) in
  let output := set output (offset + 2) (Int32.and c1 0xff) in
  let output := set output (offset + 3) (Int32.and (Int32.shr c1 8) 0xff) in
  let output := set output (offset + 4) (Int32.and indices 0xff) in
  let output := set output (offset + 5) (Int32.and (Int32.shr indices 8) 0xff) in
  let output := set output (offset + 6) (Int32.and (Int32.shr indices 16) 0xff) in
  set output (offset + 7) (Int32.and (Int32.shr indices 24) 0xff).

Definition encodeBC3AlphaBlock (block output : list Z) (offset : Z) : list Z :=
  let '(minA, maxA) :=
    foldl (fun '(minA, maxA) i =>
      let a := get block (i * 4 + 3) in
      let minA := lower a minA in
      let maxA := raise a maxA in
      (minA, maxA))
    (255, 0) (upto 16) in
  let output := set output offset maxA in
  let output := set output (offset + 1) minA in
  let alphaPalette := alloc 8 in
  let alphaPalette := set alphaPalette 0 maxA in
  let alphaPalette := set alphaPalette 1 minA in
  let alphaPalette :=
    if decide (maxA > minA) then
      foldl (fun pal i =>
               set pal (2 + i) (round_div ((6 - i) * maxA + (1 + i) * minA) 7))
            alphaPalette (upto 6)
    else alphaPalette in
  let indices :=
    foldl (fun indices i =>
      let a := get block (i * 4 + 3) in
      let bestIdx :=
        match a with
        | Some a => closest (map (fun j => Z.abs (a - rd alphaPalette j)) (upto 8))
        | None =>
            (* [a] is [undefined]: every distance is NaN and [bestIdx] stays 0 *)
            0
        end in
      set indices i bestIdx)
    (alloc 16) (upto 16) in
  (* BigInt accumulator *)
  let bits :=
    foldl (fun bits i => Z.lor bits (Z.shiftl (rd indices i) (i * 3)))
          0 (upto 16) in
  let output := set output (offset + 2) (Z.land bits 0xFF) in
  let output := set output (offset + 3) (Z.land (Z.shiftr bits 8) 0xFF) in
  let output := set output (offset + 4) (Z.land (Z.shiftr bits 16) 0xFF) in
  let output := set output (offset + 5) (Z.land (Z.shiftr bits 24) 0xFF) in
  let output := set output (offset + 6) (Z.land (Z.shiftr bits 32) 0xFF) in
  set output (offset + 7) (Z.land (Z.shiftr bits 40) 0xFF).

Definition compressBC1 (data : list Z) (width height : Z) : list Z :=
  let blocksW := Z.max 1 (ceil_div4 width) in
  let blocksH := Z.max 1 (ceil_div4 height) in
  let output := alloc (blocksW * blocksH * 8) in
  fst (foldl (fun st by_ =>
         foldl (fun '(output, offset) bx =>
                  let block := extractBlock data width height (bx * 4) (by_ * 4) in
                  (encodeBC1Block block output offset, offset + 8))
               st (upto blocksW))
       (output, 0) (upto blocksH)).

Definition compressBC3 (data : list Z) (width height : Z) : list Z :=
  let blocksW := Z.max 1 (ceil_div4 width) in
  let blocksH := Z.max 1 (ceil_div4 height) in
  let output := alloc (blocksW * blocksH * 16) in
  fst (foldl (fun st by_ =>
         foldl (fun '(output, offset) bx =>
                  let block := extractBlock data width height (bx * 4) (by_ * 4) in
                  let output := encodeBC3AlphaBlock block output offset in
                  (encodeBC1Block block output (offset + 8), offset + 16))
               st (upto blocksW))
       (output, 0) (upto blocksH)).

Definition fourCC (format : DdsFormat) : Z :=
  match format with DXT1 => FOURCC_DXT1 | DXT5 => FOURCC_DXT5 end.

Definition buildDdsFile (compressedData : list Z) (width height : Z)
    (format : DdsFormat) : list Z :=
  let headerSize := 128%nat in
  let buffer := replicate (headerSize + length compressedData) 0 in
  let buffer := setUint32 buffer 0 DDS_MAGIC in
  let buffer := setUint32 buffer 4 124 in
  let buffer := setUint32 buffer 8
    (Z.lor DDSD_CAPS (Z.lor DDSD_HEIGHT (Z.lor DDSD_WIDTH
       (Z.lor DDSD_PIXELFORMAT (Z.lor DDSD_LINEARSIZE DDSD_MIPMAPCOUNT))))) in
  let buffer := setUint32 buffer 12 height in
  let buffer := setUint32 buffer 16 width in
  let blockSize := match format with DXT1 => 8 | DXT5 => 16 end in
  let blocksW := Z.max 1 (ceil_div4 width) in
  let blocksH := Z.max 1 (ceil_div4 height) in
  let linearSize := blocksW * blocksH * blockSize in
  let buffer := setUint32 buffer 20 linearSize in
  let buffer := setUint32 buffer 24 0 in
  let buffer := setUint32 buffer 28 1 in
  let buffer := setUint32 buffer 76 32 in
  let buffer := setUint32 buffer 80 DDPF_FOURCC in
  let buffer := setUint32 buffer 84 (fourCC format) in
  let buffer := setUint32 buffer 108 DDSCAPS_TEXTURE in
  set_from buffer compressedData headerSize.

(** [getDdsDimensions]: reads the first 128 bytes of the file. *)
Definition getDdsDimensions (file : File) : result (Z * Z) :=
  let buffer := take 128 (file_bytes file) in
  let* magic := getUint32 buffer 0 in
  if decide (magic <> DDS_MAGIC) then Throw NotValidDds
  else
    let* height := getUint32 buffer 12 in
    let* width := getUint32 buffer 16 in
    Ok (width, height).

Record Encoded : Type := mkEncoded {
  dds : list Z; format : DdsFormat; width : Z; height : Z }.

Section Decoder.
(** The browser's image decoder and canvas, outside the repository:
    [loadImage] gives the natural size of the image, or [None] when
    [img.onerror] fires; [getImageData file w h] is the RGBA data of the
    image drawn on a [w] x [h] canvas. *)
Variable loadImage : File -> option (Z * Z).
Variable getImageData : File -> Z -> Z -> list Z.

Definition decodeImageToRGBA (file : File) : result (list Z * Z * Z) :=
  match loadImage file with
  | Some (imgWidth, imgHeight) =>
      let w := nearestPowerOf2 imgWidth in
      let h := nearestPowerOf2 imgHeight in
      let w := Z.min w 4096 in
      let h := Z.min h 4096 in
      Ok (getImageData file w h, w, h)
  | None => Throw (FailedToDecode (file_name file))
  end.

Definition encodeToDds (file : File) (forceFormat : option DdsFormat)
    : result Encoded :=
  let arrayBuffer := file_bytes file in
  if isDdsFile arrayBuffer then
    let* dims := getDdsDimensions file in
    let* fourCC := getUint32 arrayBuffer 84 in
    let format := if decide (fourCC = FOURCC_DXT5) then DXT5 else DXT1 in
    Ok (mkEncoded arrayBuffer format (fst dims) (snd dims))
  else
    let* decoded := decodeImageToRGBA file in
    let '(data, width, height) := decoded in
    let format := chooseFormat forceFormat data in
    let compressed :=
      match format with
      | DXT1 => compressBC1 data width height
      | DXT5 => compressBC3 data width height
      end in
    let dds := buildDdsFile compressed width height format in
    Ok (mkEncoded dds format width height).
End Decoder.

End DdsEncoder.

(** ** Strings of JavaScript

    A string is its sequence of code units; the units modelled are the
    8-bit ones. *)

Module JS.

(** The decimal digit ['0' + d]. *)
Definition digit_char (d : Z) : ascii := ascii_of_nat (48 + Z.to_nat d).

(** The decimal digits of a positive integer, most significant first,
    in front of [acc]: one digit per division by ten. *)
Equations? decimal_aux (n : Z) (acc : string) : string
  by wf (Z.to_nat (Z.log2_up (n + 1))) lt :=
  decimal_aux n acc with decide (n <= 0) => {
    | left _ := acc
    | right _ := decimal_aux (n / 10) (String (digit_char (n mod 10)) acc) }.
Proof.
  assert (H1 : 0 < n / 10 + 1) by (Z.div_mod_to_equations; lia).
  assert (H2 : 2 * (n / 10 + 1) <= n + 1) by (Z.div_mod_to_equations; lia).
  pose proof (Z.log2_up_double _ H1) as Hd.
  pose proof (Z.log2_up_le_mono _ _ H2) as Hm.
  pose proof (Z.log2_up_nonneg (n / 10 + 1)).
  lia.
Qed.

(** [String(n)] and [`${n}`] for an integer. *)
Definition decimal (n : Z) : string :=
  if decide (n = 0) then "0"
  else if decide (n < 0) then String "-" (decimal_aux (- n) "")
  else decimal_aux n "".

Fixpoint map_string (g : ascii -> ascii) (s : string) : string :=
  match s with
  | EmptyString => EmptyString
  | String a rest => String (g a) (map_string g rest)
  end.

(** [s.replace(/c/g, by)] for a single character [c]. *)
Fixpoint replaceAll (c : ascii) (by_ : string) (s : string) : string :=
  match s with
  | EmptyString => EmptyString
  | String a rest =>
      if Ascii.eqb a c then by_ +:+ replaceAll c by_ rest
      else String a (replaceAll c by_ rest)
  end.

Definition is_digit (c : ascii) : bool :=
  let n := nat_of_ascii c in ((48 <=? n) && (n <=? 57))%nat.

Definition is_upper (c : ascii) : bool :=
  let n := nat_of_ascii c in ((65 <=? n) && (n <=? 90))%nat.

Definition is_lower (c : ascii) : bool :=
  let n := nat_of_ascii c in ((97 <=? n) && (n <=? 122))%nat.

(** [s.toLowerCase()]; the serializer lower-cases strings of the
    characters [a-zA-Z0-9_] only. *)
Definition toLowerCase (s : string) : string :=
  map_string (fun c => if is_upper c then ascii_of_nat (nat_of_ascii c + 32) else c) s.

(** Every character of [s] satisfies [p]. *)
Fixpoint forall_chars (p : ascii -> bool) (s : string) : bool :=
  match s with
  | EmptyString => true
  | String a rest => p a && forall_chars p rest
  end.

(** [s.replace(/\.[^/.]+$/, "")]: the leftmost position where a dot is
    followed, up to the end, by one or more characters other than [/] and
    [.]; the text from there on is dropped. *)
Fixpoint stripExtension (s : string) : string :=
  match s with
  | EmptyString => EmptyString
  | String a rest =>
      if Ascii.eqb a "." && negb (String.eqb rest "") &&
         forall_chars (fun c => negb (Ascii.eqb c "/") && negb (Ascii.eqb c ".")) rest
      then EmptyString
      else String a (stripExtension rest)
  end.

(** [s.length > 0] and every character is ['0']: the text [0+$] matches. *)
Definition zeros_to_end (s : string) : bool :=
  negb (String.eqb s "") && forall_chars (fun c => Ascii.eqb c "0") s.

(** After a dot: the fewest digits ([\d*?] is lazy) after which only
    zeros remain up to the end; [None] when there is no match from this
    dot. *)
Fixpoint lazy_digits (s : string) : option string :=
  if zeros_to_end s then Some EmptyString
  else match s with
       | EmptyString => None
       | String c rest =>
           if is_digit c then
             match lazy_digits rest with
             | Some d => Some (String c d)
             | None => None
             end
           else None
       end.

(** [s.replace(/(\.\d*?)0+$/, "$1")]: the leftmost dot from which the
    pattern matches; group 1 replaces the match, which ends the string. *)
Fixpoint stripTrailingZeros (s : string) : string :=
  match s with
  | EmptyString => EmptyString
  | String c rest =>
      if Ascii.eqb c "." then
        match lazy_digits rest with
        | Some d => String "." d
        | None => String c (stripTrailingZeros rest)
        end
      else String c (stripTrailingZeros rest)
  end.

(** [s.replace(/\.$/, ".0")]. *)
Fixpoint dotAtEnd (s : string) : string :=
  match s with
  | EmptyString => EmptyString
  | String c rest =>
      if Ascii.eqb c "." && String.eqb rest "" then ".0"
      else String c (dotAtEnd rest)
  end.

(** *** Numbers

    A finite binary64 value is [(-1)^neg * mant * 2^expo] with
    [mant < 2^53]; the functions below compute on this exact value, as
    ECMAScript defines [Number.isInteger], [toFixed] and [toString] on the
    mathematical value of the Number. *)
Inductive number : Type :=
| Finite (neg : bool) (mant : N) (expo : Z)
| NaN
| Infinity (neg : bool).

(** The magnitude of a finite value as a fraction [numer / denom]. *)
Definition numer (mant : N) (expo : Z) : Z := Z.of_N mant * 2 ^ Z.max expo 0.
Definition denom (expo : Z) : Z := 2 ^ Z.max (- expo) 0.

Definition isInteger (x : number) : bool :=
  match x with
  | Finite _ mant expo => bool_decide (numer mant expo mod denom expo = 0)
  | _ => false
  end.

(** [v] rounds to the binary64 value [x] (round to nearest, ties to even),
    for integers [x >= 2^53] and [v > 0]. *)
Definition rounds_to (x v : Z) : bool :=
  let e := Z.log2 x - 52 in
  let mx := x / 2 ^ e in
  let ulp := 2 ^ e in
  if decide (x <= v) then
    bool_decide (2 * (v - x) < ulp \/ (2 * (v - x) = ulp /\ Z.even mx = true))
  else if decide (mx = 2 ^ 52) then
    bool_decide (4 * (x - v) <= ulp)
  else
    bool_decide (2 * (x - v) < ulp \/ (2 * (x - v) = ulp /\ Z.even mx = true)).

(** Number::toString, step 5: for [k] digits, the pairs [(n, s)] with
    [10^(k-1) <= s < 10^k] whose value [s * 10^(n-k)] is the Number [x]. *)
Definition digit_candidates (x k : Z) : list (Z * Z) :=
  let D := Z.of_nat (String.length (decimal x)) in
  let s0 := x / 10 ^ (D - k) in
  filter (fun c => rounds_to x (c.2 * 10 ^ (c.1 - k)) = true)
         ((D, s0) ::
          (if decide (s0 + 1 < 10 ^ k) then [(D, s0 + 1)]
           else [(D + 1, 10 ^ (k - 1))])).

(** Among the candidates, the one whose value is closest to [x]. *)
Definition closest_candidate (x k : Z) (cs : list (Z * Z)) : option (Z * Z) :=
  foldl (fun best c =>
           match best with
           | None => Some c
           | Some b =>
               if decide (Z.abs (c.2 * 10 ^ (c.1 - k) - x)
                          < Z.abs (b.2 * 10 ^ (b.1 - k) - x))
               then Some c else best
           end) None cs.

(** The smallest [k], starting from [k], with a candidate; 17 digits
    always identify a binary64 value. *)
Fixpoint shortest_digits (fuel : nat) (x k : Z) : Z * (Z * Z) :=
  match fuel with
  | O => let D := Z.of_nat (String.length (decimal x)) in (D, (D, x))
  | S fuel' =>
      match closest_candidate x k (digit_candidates x k) with
      | Some c => (k, c)
      | None => shortest_digits fuel' x (k + 1)
      end
  end.

(** Number::toString(x) for an integer [x >= 10^21]: the exponential
    notation of step 10 onwards. *)
Definition toStringLarge (x : Z) : string :=
  let '(k, (n, s)) := shortest_digits 17 x 1 in
  let e := n - 1 in
  match decimal s with
  | EmptyString => EmptyString
  | String d rest =>
      if decide (k = 1) then String d ("e+" +:+ decimal e)
      else String d ("." +:+ rest +:+ "e+" +:+ decimal e)
  end.

Fixpoint zeros (k : nat) : string :=
  match k with
  | O => EmptyString
  | S k' => String "0" (zeros k')
  end.

(** [x.toFixed(fd)] (Number.prototype.toFixed, steps 4 to 10). *)
Definition toFixed (x : number) (fd : nat) : string :=
  match x with
  | NaN => "NaN"
  | Infinity neg => if neg then "-Infinity" else "Infinity"
  | Finite neg mant expo =>
      let s := if neg && negb (N.eqb mant 0) then "-" else "" in
      let num := numer mant expo in
      let den := denom expo in
      if decide (10 ^ 21 * den <= num) then s +:+ toStringLarge (num / den)
      else
        (* the integer n with n / 10^fd closest to x, the larger of two *)
        let n := (2 * num * 10 ^ Z.of_nat fd + den) / (2 * den) in
        let m := decimal n in
        match fd with
        | O => s +:+ m
        | _ =>
            let k := String.length m in
            let m := if decide (k <= fd)%nat then zeros (fd + 1 - k) +:+ m else m in
            let k := String.length m in
            let a := substring 0 (k - fd) m in
            let b := substring (k - fd) fd m in
            s +:+ a +:+ "." +:+ b
        end
  end.

End JS.

(** ** lib/store.ts and lib/shaders/shader-defs.ts: the records *)

Module Store.

(** Typed-array buffers of a mesh over the float type [F]. *)
Record ParsedMesh (F : Type) : Type := mkParsedMesh {
  positions : list F;
  normals : list F;
  uvs : list F;
  colors : option (list F);
  indices : list Z;
  materialIndex : Z;
  materialName : string }.
Arguments mkParsedMesh {F}.
Arguments positions {F}.
Arguments normals {F}.
Arguments uvs {F}.
Arguments colors {F}.
Arguments indices {F}.
Arguments materialIndex {F}.
Arguments materialName {F}.

Record ParsedModel (F : Type) : Type := mkParsedModel {
  model_name : string;
  meshes : list (ParsedMesh F);
  materialNames : list string }.
Arguments mkParsedModel {F}.
Arguments model_name {F}.
Arguments meshes {F}.
Arguments materialNames {F}.

Record TextureSlotData : Type := mkTextureSlotData {
  file : option DdsEncoder.File;
  previewUrl : option string;
  slot_width : Z;
  slot_height : Z }.

(** [textures] is a JavaScript object: its own properties in insertion
    order, one per key. *)
Record MaterialConfig : Type := mkMaterialConfig {
  name : string;
  shaderName : string;
  textures : list (string * TextureSlotData) }.

(** [obj[key]]. *)
Fixpoint property {V} (obj : list (string * V)) (key : string) : option V :=
  match obj with
  | [] => None
  | (k, v) :: rest => if String.eqb k key then Some v else property rest key
  end.

End Store.

Module ShaderDefs.

Record TextureParam : Type := mkTextureParam {
  tp_name : string; label : string; description : string }.

Record VectorParam : Type := mkVectorParam {
  vp_name : string; x : JS.number; y : JS.number; z : JS.number; w : JS.number }.

Record ShaderDef : Type := mkShaderDef {
  filename : string;
  displayName : string;
  category : string;
  renderBucket : Z;
  textureParams : list TextureParam;
  vectorParams : list VectorParam;
  needsTangent : bool }.

Definition num (n : N) : JS.number := JS.Finite false n 0.

Definition COMMON_VECTOR_PARAMS : list VectorParam :=
  [ mkVectorParam "matMaterialColorScale" (num 1) (num 0) (num 0) (num 1);
    mkVectorParam "HardAlphaBlend" (num 1) (num 0) (num 0) (num 0);
    mkVectorParam "useTessellation" (num 0) (num 0) (num 0) (num 0);
    mkVectorParam "wetnessMultiplier" (num 1) (num 0) (num 0) (num 0);
    mkVectorParam "globalAnimUV1" (num 0) (num 1) (num 0) (num 0);
    mkVectorParam "globalAnimUV0" (num 1) (num 0) (num 0) (num 0) ].

Definition DIFFUSE_ONLY : list TextureParam :=
  [ mkTextureParam "DiffuseSampler" "Diffuse" "Base color / albedo texture" ].

(** [ALL_SHADERS[0]], the entry for [default.sps]. *)
Definition DEFAULT_SHADER : ShaderDef :=
  mkShaderDef "default.sps" "Default" "Standard" 0
              DIFFUSE_ONLY COMMON_VECTOR_PARAMS false.

End ShaderDefs.

(** ** lib/formats/ydr-xml.ts *)

Module YdrXml.

Record TextureEntry : Type := mkTextureEntry {
  name : string;
  samplerName : string;
  width : Z;
  height : Z;
  format : DdsEncoder.DdsFormat;
  fileName : string }.

Definition quote : ascii := "034".

Definition escXml (s : string) : string :=
  JS.replaceAll quote "&quot;"
    (JS.replaceAll ">" "&gt;"
      (JS.replaceAll "<" "&lt;"
        (JS.replaceAll "&" "&amp;" s))).

(** [.replace(/[^a-zA-Z0-9_]/g, "_")]. *)
Definition replaceNonWord (s : string) : string :=
  JS.map_string (fun c =>
    if JS.is_lower c || JS.is_upper c || JS.is_digit c || Ascii.eqb c "_"
    then c else "_"%char) s.

Definition sanitizeTextureName (filename : string) : string :=
  JS.toLowerCase (replaceNonWord (JS.stripExtension filename)).

(** Format number with enough precision. *)
Definition f (n : JS.number) : string :=
  if JS.isInteger n then JS.toFixed n 1
  else
    let s := JS.toFixed n 7 in
    JS.dotAtEnd (JS.stripTrailingZeros s).

(** The first element, with its position, that satisfies [p]:
    [Array.prototype.find]. *)
Fixpoint find_at {A} (p : nat -> A -> bool) (i : nat) (l : list A) : option A :=
  match l with
  | [] => None
  | a :: rest => if p i a then Some a else find_at p (S i) rest
  end.

(** [Array.prototype.findIndex]: -1 when no element satisfies [p]. *)
Fixpoint findIndex_at {A} (p : A -> bool) (i : Z) (l : list A) : Z :=
  match l with
  | [] => -1
  | a :: rest => if p a then i else findIndex_at p (i + 1) rest
  end.

Definition findIndex {A} (p : A -> bool) (l : list A) : Z := findIndex_at p 0 l.

(** The texture lookup of a shader's texture parameter, for the material
    at position [matIdx] of [materials]. The entries of [textures] and of
    [materials] are distinct objects (the exporter and the store build a
    new object for each), so [indexOf] of an element is its position. *)
Definition findTexture (textures : list TextureEntry) (mat : Store.MaterialConfig)
    (matIdx : nat) (tp : ShaderDefs.TextureParam) : option TextureEntry :=
  let tpName := ShaderDefs.tp_name tp in
  match find_at (fun i t =>
                   String.eqb (samplerName t) tpName &&
                   bool_decide (Z.of_nat matIdx =
                     Z.of_nat i - findIndex (fun tt => String.eqb (samplerName tt) tpName)
                                            textures))
                0 textures with
  | Some t => Some t
  | None =>
      find_at (fun _ t =>
                 (* Find the texture assigned to this material + sampler *)
                 match Store.property (Store.textures mat) tpName with
                 | None => false
                 | Some matTexData =>
                     match Store.file matTexData with
                     | None => false
                     | Some file =>
                         let texName := sanitizeTextureName (DdsEncoder.file_name file) in
                         String.eqb (name t) texName && String.eqb (samplerName t) tpName
                     end
                 end)
              0 textures
  end.

Definition q : string := String quote EmptyString.

(** The lines of one texture parameter. *)
Definition textureParamLines (textures : list TextureEntry)
    (mat : Store.MaterialConfig) (matIdx : nat) (tp : ShaderDefs.TextureParam)
    : list string :=
  let item := "          <Item name=" +:+ q +:+ ShaderDefs.tp_name tp +:+ q +:+
              " type=" +:+ q +:+ "Texture" +:+ q +:+ ">" in
  match findTexture textures mat matIdx tp with
  | Some tex =>
      [ item;
        "            <Name>" +:+ escXml (name tex) +:+ "</Name>";
        "          </Item>" ]
  | None =>
      (* Write placeholder with empty name *)
      [ item;
        "            <Name />";
        "          </Item>" ]
  end.

Definition vectorParamLine (vp : ShaderDefs.VectorParam) : string :=
  "          <Item name=" +:+ q +:+ ShaderDefs.vp_name vp +:+ q +:+
  " type=" +:+ q +:+ "Vector" +:+ q +:+
  " x=" +:+ q +:+ f (ShaderDefs.x vp) +:+ q +:+
  " y=" +:+ q +:+ f (ShaderDefs.y vp) +:+ q +:+
  " z=" +:+ q +:+ f (ShaderDefs.z vp) +:+ q +:+
  " w=" +:+ q +:+ f (ShaderDefs.w vp) +:+ q +:+ " />".

Section Shaders.
(** The catalog: [SHADER_MAP.get]. *)
Variable SHADER_MAP : string -> option ShaderDefs.ShaderDef.

(** The [<Parameters>] block of the material at position [matIdx]. *)
Definition parameterLines (textures : list TextureEntry)
    (mat : Store.MaterialConfig) (matIdx : nat) : list string :=
  let shaderDef := default ShaderDefs.DEFAULT_SHADER (SHADER_MAP (Store.shaderName mat)) in
  ["        <Parameters>"] ++
  flat_map (textureParamLines textures mat matIdx) (ShaderDefs.textureParams shaderDef) ++
  map vectorParamLine (ShaderDefs.vectorParams shaderDef) ++
  ["        </Parameters>"].

(** The [<Shaders>] block of [generateYdrXml]. *)
Definition shaderLines (materials : list Store.MaterialConfig)
    (textures : list TextureEntry) : list string :=
  ["    <Shaders>"] ++
  concat (imap (fun matIdx mat =>
    let shaderDef := default ShaderDefs.DEFAULT_SHADER (SHADER_MAP (Store.shaderName mat)) in
    let shaderDisplayName := JS.toLowerCase (replaceNonWord (Store.name mat)) in
    [ "      <Item>";
      "        <Name>" +:+ escXml shaderDisplayName +:+ "</Name>";
      "        <FileName>" +:+ escXml (ShaderDefs.filename shaderDef) +:+ "</FileName>";
      "        <RenderBucket value=" +:+ q +:+ JS.decimal (ShaderDefs.renderBucket shaderDef)
        +:+ q +:+ " />" ] ++
    parameterLines textures mat matIdx ++
    [ "      </Item>" ]) materials) ++
  ["    </Shaders>"].
End Shaders.

End YdrXml.

(** ** JavaScript [Map]: the entries in insertion order *)

Module JSMap.
Section Map.
Context {K V : Type} `{EqDecision K}.

Fixpoint get (m : list (K * V)) (k : K) : option V :=
  match m with
  | [] => None
  | (k', v) :: rest => if decide (k' = k) then Some v else get rest k
  end.

Definition has (m : list (K * V)) (k : K) : bool :=
  match get m k with Some _ => true | None => false end.

(** A new key goes to the end; an existing key keeps its place. *)
Fixpoint set (m : list (K * V)) (k : K) (v : V) : list (K * V) :=
  match m with
  | [] => [(k, v)]
  | (k', v') :: rest =>
      if decide (k' = k) then (k, v) :: rest else (k', v') :: set rest k v
  end.

Definition size (m : list (K * V)) : Z := Z.of_nat (length m).
End Map.
End JSMap.

(** ** lib/shaders/shader-defs.ts: the catalog *)

Module ShaderTable.
Import ShaderDefs.

Definition SPEC_PARAMS : list VectorParam :=
  [ mkVectorParam "specularIntensityMult" (JS.Finite false 1 (-3)) (num 0) (num 0) (num 0);
    mkVectorParam "specularFalloffMult" (num 100) (num 0) (num 0) (num 0);
    (* 0.97 as a binary64 *)
    mkVectorParam "specularFresnel" (JS.Finite false 4368491638549381 (-52))
                  (num 0) (num 0) (num 0) ].

Definition NORMAL_SPEC_PARAMS : list VectorParam :=
  SPEC_PARAMS ++ [ mkVectorParam "bumpiness" (num 1) (num 0) (num 0) (num 0) ].

Definition EMISSIVE_PARAMS : list VectorParam :=
  [ mkVectorParam "emissiveMultiplier" (num 1) (num 0) (num 0) (num 0) ].

Definition DETAIL_PARAMS : list VectorParam :=
  [ mkVectorParam "detailSettings" (num 0) (num 0) (num 0) (num 1) ].

Definition DIFFUSE_BUMP : list TextureParam :=
  DIFFUSE_ONLY ++
  [ mkTextureParam "BumpSampler" "Normal Map" "Normal/bump map texture" ].

Definition DIFFUSE_SPEC : list TextureParam :=
  DIFFUSE_ONLY ++
  [ mkTextureParam "SpecSampler" "Specular" "Specular map texture" ].

Definition DIFFUSE_BUMP_SPEC : list TextureParam :=
  DIFFUSE_ONLY ++
  [ mkTextureParam "BumpSampler" "Normal Map" "Normal/bump map texture";
    mkTextureParam "SpecSampler" "Specular" "Specular map texture" ].

Definition DIFFUSE_BUMP_SPEC_DETAIL : list TextureParam :=
  DIFFUSE_BUMP_SPEC ++
  [ mkTextureParam "DetailSampler" "Detail" "Detail texture overlay" ].

Definition ALL_SHADERS : list ShaderDef :=
  [ mkShaderDef "default.sps" "Default" "Standard" 0
      (DIFFUSE_ONLY)
      (COMMON_VECTOR_PARAMS) false;
    mkShaderDef "normal.sps" "Normal" "Standard" 0
      (DIFFUSE_BUMP)
      (COMMON_VECTOR_PARAMS ++ [mkVectorParam "bumpiness" (num 1) (num 0) (num 0) (num 0)]) true;
    mkShaderDef "spec.sps" "Specular" "Standard" 0
      (DIFFUSE_SPEC)
      (COMMON_VECTOR_PARAMS ++ SPEC_PARAMS) false;
    mkShaderDef "normal_spec.sps" "Normal + Specular" "Standard" 0
      (DIFFUSE_BUMP_SPEC)
      (COMMON_VECTOR_PARAMS ++ NORMAL_SPEC_PARAMS) true;
    mkShaderDef "normal_spec_detail.sps" "Normal + Spec + Detail" "Standard" 0
      (DIFFUSE_BUMP_SPEC_DETAIL)
      (COMMON_VECTOR_PARAMS ++ NORMAL_SPEC_PARAMS ++ DETAIL_PARAMS) true;
    mkShaderDef "normal_detail.sps" "Normal + Detail" "Standard" 0
      (DIFFUSE_BUMP ++ [mkTextureParam "DetailSampler" "Detail" "Detail texture overlay"])
      (COMMON_VECTOR_PARAMS ++ [mkVectorParam "bumpiness" (num 1) (num 0) (num 0) (num 0)] ++ DETAIL_PARAMS) true;
    mkShaderDef "spec_detail.sps" "Specular + Detail" "Standard" 0
      (DIFFUSE_SPEC ++ [mkTextureParam "DetailSampler" "Detail" "Detail texture overlay"])
      (COMMON_VECTOR_PARAMS ++ SPEC_PARAMS ++ DETAIL_PARAMS) false;
    mkShaderDef "alpha.sps" "Alpha" "Transparent" 1
      (DIFFUSE_ONLY)
      (COMMON_VECTOR_PARAMS) false;
    mkShaderDef "normal_spec_alpha.sps" "Normal + Spec + Alpha" "Transparent" 1
      (DIFFUSE_BUMP_SPEC)
      (COMMON_VECTOR_PARAMS ++ NORMAL_SPEC_PARAMS) true;
    mkShaderDef "normal_alpha.sps" "Normal + Alpha" "Transparent" 1
      (DIFFUSE_BUMP)
      (COMMON_VECTOR_PARAMS ++ [mkVectorParam "bumpiness" (num 1) (num 0) (num 0) (num 0)]) true;
    mkShaderDef "spec_alpha.sps" "Specular + Alpha" "Transparent" 1
      (DIFFUSE_SPEC)
      (COMMON_VECTOR_PARAMS ++ SPEC_PARAMS) false;
    mkShaderDef "cutout_fence.sps" "Cutout Fence" "Cutout" 3
      (DIFFUSE_ONLY)
      (COMMON_VECTOR_PARAMS) false;
    mkShaderDef "normal_cutout_fence.sps" "Normal + Cutout Fence" "Cutout" 3
      (DIFFUSE_BUMP)
      (COMMON_VECTOR_PARAMS ++ [mkVectorParam "bumpiness" (num 1) (num 0) (num 0) (num 0)]) true;
    mkShaderDef "normal_spec_cutout_fence.sps" "Normal + Spec + Cutout" "Cutout" 3
      (DIFFUSE_BUMP_SPEC)
      (COMMON_VECTOR_PARAMS ++ NORMAL_SPEC_PARAMS) true;
    mkShaderDef "decal.sps" "Decal" "Decal" 2
      (DIFFUSE_ONLY)
      (COMMON_VECTOR_PARAMS) false;
    mkShaderDef "normal_decal.sps" "Normal + Decal" "Decal" 2
      (DIFFUSE_BUMP)
      (COMMON_VECTOR_PARAMS ++ [mkVectorParam "bumpiness" (num 1) (num 0) (num 0) (num 0)]) true;
    mkShaderDef "normal_spec_decal.sps" "Normal + Spec + Decal" "Decal" 2
      (DIFFUSE_BUMP_SPEC)
      (COMMON_VECTOR_PARAMS ++ NORMAL_SPEC_PARAMS) true;
    mkShaderDef "emissive.sps" "Emissive" "Emissive" 0
      (DIFFUSE_ONLY)
      (COMMON_VECTOR_PARAMS ++ EMISSIVE_PARAMS) false;
    mkShaderDef "emissivenight.sps" "Emissive Night" "Emissive" 0
      (DIFFUSE_ONLY)
      (COMMON_VECTOR_PARAMS ++ EMISSIVE_PARAMS) false;
    mkShaderDef "emissive_alpha.sps" "Emissive + Alpha" "Emissive" 1
      (DIFFUSE_ONLY)
      (COMMON_VECTOR_PARAMS ++ EMISSIVE_PARAMS) false;
    mkShaderDef "normal_spec_emissive.sps" "Normal + Spec + Emissive" "Emissive" 0
      (DIFFUSE_BUMP_SPEC)
      (COMMON_VECTOR_PARAMS ++ NORMAL_SPEC_PARAMS ++ EMISSIVE_PARAMS) true;
    mkShaderDef "glass.sps" "Glass" "Glass" 1
      (DIFFUSE_ONLY)
      (COMMON_VECTOR_PARAMS) false;
    mkShaderDef "glass_normal_spec_reflect.sps" "Glass + Normal + Spec + Reflect" "Glass" 1
      (DIFFUSE_BUMP_SPEC)
      (COMMON_VECTOR_PARAMS ++ NORMAL_SPEC_PARAMS) true;
    mkShaderDef "reflect.sps" "Reflect" "Reflect" 0
      (DIFFUSE_ONLY)
      (COMMON_VECTOR_PARAMS) false;
    mkShaderDef "normal_spec_reflect.sps" "Normal + Spec + Reflect" "Reflect" 0
      (DIFFUSE_BUMP_SPEC)
      (COMMON_VECTOR_PARAMS ++ NORMAL_SPEC_PARAMS) true ].

Definition SHADER_CATEGORIES : list string :=
  [ "Standard"; "Transparent"; "Cutout"; "Decal"; "Emissive"; "Glass"; "Reflect" ].

(** [new Map(ALL_SHADERS.map((s) => [s.filename, s]))]. *)
Definition SHADER_MAP : list (string * ShaderDef) :=
  foldl (fun m s => JSMap.set m (filename s) s) [] ALL_SHADERS.

End ShaderTable.

(** ** lib/store.ts: the actions of the store *)

Module StoreActions.
Import Store.

Record ExportProgress : Type := mkExportProgress {
  step : string;
  percent : Z }.

(** The order of the own properties of a JavaScript object: the keys that
    are array indices (the canonical decimal strings of 0 .. 2^32 - 2) come
    first, in ascending numeric order; the other keys follow in the order in
    which they were created. *)
Fixpoint digits_value (s : string) (acc : Z) : option Z :=
  match s with
  | EmptyString => Some acc
  | String c rest =>
      if JS.is_digit c
      then digits_value rest (10 * acc + (Z.of_nat (nat_of_ascii c) - 48))
      else None
  end.

Definition array_index (key : string) : option Z :=
  match key with
  | EmptyString => None
  | _ =>
      match digits_value key 0 with
      | Some n =>
          if String.eqb (JS.decimal n) key && bool_decide (n <= 4294967294)
          then Some n else None
      | None => None
      end
  end.

(** A new array-index key [n] goes in front of the first property that is
    not an array index or is a larger one. *)
Fixpoint insert_index {V} (obj : list (string * V)) (n : Z) (key : string) (v : V)
    : list (string * V) :=
  match obj with
  | [] => [(key, v)]
  | (k', v') :: rest =>
      match array_index k' with
      | Some n' =>
          if decide (n' < n) then (k', v') :: insert_index rest n key v
          else (key, v) :: obj
      | None => (key, v) :: obj
      end
  end.

(** [obj[key] = v] on an ordinary object: an own key keeps its place; a new
    key takes the place the property order gives it. *)
Definition assign {V} (obj : list (string * V)) (key : string) (v : V)
    : list (string * V) :=
  match array_index key with
  | Some n => if JSMap.has obj key then JSMap.set obj key v
              else insert_index obj n key v
  | None => JSMap.set obj key v
  end.

Section Actions.
(** The floats of the model's buffers. *)
Variable F : Type.

Record AppState : Type := mkAppState {
  parsedModel : option (ParsedModel F);
  materials : list MaterialConfig;
  exportProgress : option ExportProgress;
  exportName : string }.

(** The state the store is created with. *)
Definition initial : AppState := mkAppState None [] None "prop".

Definition createDefaultMaterialConfig (name : string) : MaterialConfig :=
  mkMaterialConfig name (ShaderDefs.filename ShaderDefs.DEFAULT_SHADER) [].

Definition importModel (state : AppState) (model : ParsedModel F) : AppState :=
  mkAppState
    (Some model)
    (map createDefaultMaterialConfig (materialNames model))
    (exportProgress state)
    (let n := YdrXml.replaceNonWord (JS.stripExtension (model_name model)) in
     if String.eqb n "" then "prop" else n).

(** [materials[index]]: [None] is [undefined]. *)
Definition at_index {A} (l : list A) (index : Z) : option A :=
  if decide (0 <= index) then l !! Z.to_nat index else None.

Definition updateMaterialShader (state : AppState) (index : Z)
    (shaderFilename : string) : AppState :=
  match at_index (materials state) index with
  | None => state
  | Some mat =>
      match JSMap.get ShaderTable.SHADER_MAP shaderFilename with
      | None => state
      | Some shaderDef =>
          (* Keep textures that match the new shader's params, discard others *)
          let oldTextures := textures mat in
          let newTextures :=
            foldl (fun newTextures param =>
                     match property oldTextures (ShaderDefs.tp_name param) with
                     | Some slot => assign newTextures (ShaderDefs.tp_name param) slot
                     | None => newTextures
                     end)
                  [] (ShaderDefs.textureParams shaderDef) in
          mkAppState (parsedModel state)
            (<[Z.to_nat index := mkMaterialConfig (name mat) shaderFilename newTextures]>
               (materials state))
            (exportProgress state) (exportName state)
      end
  end.

(** The object [{...textures, [samplerName]: data}]: the copy has the
    properties of [textures] in their order, and [samplerName] is defined on
    it by [assign]. *)
Definition updateMaterialTexture (state : AppState) (index : Z)
    (samplerName : string) (data : TextureSlotData) : AppState :=
  match at_index (materials state) index with
  | None => state
  | Some mat =>
      mkAppState (parsedModel state)
        (<[Z.to_nat index :=
             mkMaterialConfig (name mat) (shaderName mat)
                              (assign (textures mat) samplerName data)]>
           (materials state))
        (exportProgress state) (exportName state)
  end.

Definition setExportProgress (state : AppState) (progress : option ExportProgress)
    : AppState :=
  mkAppState (parsedModel state) (materials state) progress (exportName state).

Definition setExportName (state : AppState) (name : string) : AppState :=
  mkAppState (parsedModel state) (materials state) (exportProgress state) name.

Definition reset (state : AppState) : AppState := mkAppState None [] None "prop".
End Actions.

End StoreActions.

(** ** lib/parsers/model-parser.ts *)

Module ModelParser.
Import Store.

Section Extract.
(** The floats of the attribute buffers; [fround] is the conversion of
    a store into a [Float32Array]. *)
Variable F : Type.
Variable zero one : F.
Variable fround : F -> F.

(** A three.js [BufferAttribute]: its accessors take the index read
    from the index buffer, a number or [undefined] ([None]). *)
Record BufferAttribute : Type := mkBufferAttribute {
  count : Z;
  itemSize : Z;
  getX : option Z -> F;
  getY : option Z -> F;
  getZ : option Z -> F;
  getW : option Z -> F }.

Record Group : Type := mkGroup {
  start : Z;
  group_count : Z;
  group_materialIndex : option Z }.

Record BufferGeometry : Type := mkBufferGeometry {
  index : option (list Z);
  position : BufferAttribute;
  normal : option BufferAttribute;
  uv : option BufferAttribute;
  color : option BufferAttribute;
  groups : list Group }.

Record Material : Type := mkMaterial { mat_name : string }.

(** [child.material]: one material or an array; a missing material is
    [None]. *)
Inductive MeshMaterial : Type :=
| Single (m : option Material)
| Multiple (ms : list (option Material)).

(** A [THREE.Mesh]; [geometry] is the clone of the node's geometry with
    the world matrix applied. *)
Record Mesh : Type := mkMesh {
  geometry : BufferGeometry;
  material : MeshMaterial }.

(** A node of the scene graph: a mesh or another object, and its
    children. *)
#[warnings="-register-all"]
Inductive Object3D : Type :=
| Node (mesh : option Mesh) (children : list Object3D).

(** [geo.computeVertexNormals()] of three.js. *)
Variable computeVertexNormals : BufferGeometry -> BufferAttribute.

(** [a[i] = v] on a Float32Array. *)
Definition fset (a : list F) (i : Z) (v : F) : list F :=
  if decide (0 <= i) then <[Z.to_nat i := fround v]> a else a.

(** [new Float32Array(n)]. *)
Definition falloc (n : Z) : list F := replicate (Z.to_nat n) zero.

(** The body of the first loop of [extractSubMesh], on the index
    [origIdx] it reads. [usedIndices] ends in a [Uint32Array], where a
    missing value would be 0. *)
Definition remapStep (st : list (option Z * Z) * list Z) (origIdx : option Z)
    : list (option Z * Z) * list Z :=
  let '(vertexRemap, usedIndices) := st in
  let vertexRemap :=
    if JSMap.has vertexRemap origIdx then vertexRemap
    else JSMap.set vertexRemap origIdx (JSMap.size vertexRemap) in
  (vertexRemap, usedIndices ++ [default 0 (JSMap.get vertexRemap origIdx)]).

(** The loop [for (let i = startIndex; i < startIndex + count; i++)]. *)
Definition collect (srcIndices : list Z) (startIndex count : Z)
    : list (option Z * Z) * list Z :=
  foldl (fun st i => remapStep st (TypedArray.get srcIndices i))
        ([], []) (seqZ startIndex count).

Definition extractSubMesh (geo : BufferGeometry) (startIndex count : Z)
    (materialIndex : Z) (materialName : string) : option (ParsedMesh F) :=
  match index geo with
  | None => None
  | Some srcIndices =>
      let srcPositions := position geo in
      let srcNormals := normal geo in
      let srcUvs := uv geo in
      let srcColors := color geo in
      let '(vertexRemap, usedIndices) := collect srcIndices startIndex count in
      let vertexCount := JSMap.size vertexRemap in
      if decide (vertexCount = 0) then None
      else
        let positions := falloc (vertexCount * 3) in
        let normals := falloc (vertexCount * 3) in
        let uvs := falloc (vertexCount * 2) in
        let colors :=
          match srcColors with
          | Some srcColors =>
              let itemSize := itemSize srcColors in
              Some (foldl (fun colors '(origIdx, newIdx) =>
                      let colors := fset colors (newIdx * 4) (getX srcColors origIdx) in
                      let colors := fset colors (newIdx * 4 + 1) (getY srcColors origIdx) in
                      let colors := fset colors (newIdx * 4 + 2)
                        (if decide (itemSize >= 3) then getZ srcColors origIdx else zero) in
                      fset colors (newIdx * 4 + 3)
                        (if decide (itemSize >= 4) then getW srcColors origIdx else one))
                    (falloc (vertexCount * 4)) vertexRemap)
          | None => None
          end in
        let '(positions, normals, uvs) :=
          foldl (fun '(positions, normals, uvs) '(origIdx, newIdx) =>
                   let positions := fset positions (newIdx * 3) (getX srcPositions origIdx) in
                   let positions := fset positions (newIdx * 3 + 1) (getY srcPositions origIdx) in
                   let positions := fset positions (newIdx * 3 + 2) (getZ srcPositions origIdx) in
                   let normals :=
                     match srcNormals with
                     | Some srcNormals =>
                         let normals := fset normals (newIdx * 3) (getX srcNormals origIdx) in
                         let normals := fset normals (newIdx * 3 + 1) (getY srcNormals origIdx) in
                         fset normals (newIdx * 3 + 2) (getZ srcNormals origIdx)
                     | None => normals
                     end in
                   let uvs :=
                     match srcUvs with
                     | Some srcUvs =>
                         let uvs := fset uvs (newIdx * 2) (getX srcUvs origIdx) in
                         fset uvs (newIdx * 2 + 1) (getY srcUvs origIdx)
                     | None => uvs
                     end in
                   (positions, normals, uvs))
                (positions, normals, uvs) vertexRemap in
        let indices := usedIndices in
        Some (mkParsedMesh positions normals uvs colors indices
                           materialIndex materialName)
  end.

(** [root.traverse]: the node, then its children in order. *)
Fixpoint traverse (root : Object3D) : list Object3D :=
  match root with
  | Node _ children => root :: flat_map traverse children
  end.

Definition node_mesh (o : Object3D) : option Mesh :=
  match o with Node mesh _ => mesh end.

(** Indexed geometry with normals, as the callback makes it. *)
Definition prepare (geo : BufferGeometry) : BufferGeometry :=
  let geo :=
    match index geo with
    | Some _ => geo
    | None =>
        let posCount := count (position geo) in
        mkBufferGeometry (Some (seqZ 0 posCount)) (position geo) (normal geo)
                         (uv geo) (color geo) (groups geo)
    end in
  match normal geo with
  | Some _ => geo
  | None =>
      mkBufferGeometry (index geo) (position geo) (Some (computeVertexNormals geo))
                       (uv geo) (color geo) (groups geo)
  end.

Definition materialsOf (child : Mesh) : list (option Material) :=
  match material child with
  | Multiple ms => ms
  | Single m => [m]
  end.

Definition groupsOf (geo : BufferGeometry) : list Group :=
  match groups geo with
  | [] => [mkGroup 0 (Z.of_nat (length (default [] (index geo)))) (Some 0)]
  | gs => gs
  end.

(** [materials[matIdx] || materials[0]]. *)
Definition pickMaterial (materials : list (option Material)) (matIdx : Z)
    : option Material :=
  match mjoin (if decide (0 <= matIdx) then materials !! Z.to_nat matIdx else None) with
  | Some m => Some m
  | None => mjoin (materials !! 0%nat)
  end.

(** [(mat && mat.name) ? mat.name : `Material_${materialNames.length}`]. *)
Definition materialNameOf (mat : option Material) (materialNames : list string)
    : string :=
  match mat with
  | Some m =>
      if String.eqb (mat_name m) "" then
        "Material_" +:+ JS.decimal (Z.of_nat (length materialNames))
      else mat_name m
  | None => "Material_" +:+ JS.decimal (Z.of_nat (length materialNames))
  end.

Record State : Type := mkState {
  materialMap : list (string * Z);
  names : list string;
  out : list (ParsedMesh F) }.

(** The body of [for (const group of groups)]. *)
Definition visitGroup (geo : BufferGeometry) (materials : list (option Material))
    (st : State) (group : Group) : State :=
  let matIdx := default 0 (group_materialIndex group) in
  let mat := pickMaterial materials matIdx in
  let matName := materialNameOf mat (names st) in
  let '(materialMap, materialNames) :=
    if JSMap.has (materialMap st) matName then (materialMap st, names st)
    else (JSMap.set (materialMap st) matName (Z.of_nat (length (names st))),
          names st ++ [matName]) in
  let globalMatIdx := default 0 (JSMap.get materialMap matName) in
  let subMesh := extractSubMesh geo (start group) (group_count group)
                                globalMatIdx matName in
  mkState materialMap materialNames
          (match subMesh with Some m => out st ++ [m] | None => out st end).

(** The callback of [root.traverse]. *)
Definition visit (st : State) (child : Object3D) : State :=
  match node_mesh child with
  | None => st
  | Some child =>
      let geo := prepare (geometry child) in
      foldl (visitGroup geo (materialsOf child)) st (groupsOf geo)
  end.

Definition extractModelData (root : Object3D) (filename : string)
    : result (ParsedModel F) :=
  let st := foldl visit (mkState [] [] []) (traverse root) in
  (* Fallback: if no materials found, add a default *)
  let materialNames :=
    match names st with
    | [] => ["default"]
    | ns => ns
    end in
  match out st with
  | [] => Throw NoMeshGeometry
  | meshes => Ok (mkParsedModel (JS.stripExtension filename) meshes materialNames)
  end.
End Extract.

End ModelParser.

(** ** lib/export/exporter.ts *)

Module Exporter.
Import Store.

(** What the export does to the outside, in order. *)
Inductive event : Type :=
| OnProgress (step : string) (percent : Z)
| ConsoleError (message : string) (err : error)
| GenerateYdrXml (textures : list YdrXml.TextureEntry)
| ZipFileText (path : string) (content : string)
| ZipFileData (path : string) (data : list Z)
| SaveAs (fileName : string).

(** [try { body } catch (err) { handler }]. *)
Definition try_catch {A} (body : result A) (handler : error -> result A) : result A :=
  match body with
  | Ok a => Ok a
  | Throw e => handler e
  end.

(** A loop whose body may throw. *)
Fixpoint for_each {A B} (body : A -> B -> result A) (a : A) (l : list B) : result A :=
  match l with
  | [] => Ok a
  | b :: rest => let* a' := body a b in for_each body a' rest
  end.

Record State : Type := mkState {
  textureEntries : list YdrXml.TextureEntry;
  ddsFiles : list (string * list Z);
  processedTextures : list (string * YdrXml.TextureEntry);
  texCount : Z;
  trace : list event }.

Section ExportYdr.
(** The float type of the model's buffers. *)
Variable F : Type.
(** The browser's image decoder behind [encodeToDds]. *)
Variable loadImage : DdsEncoder.File -> option (Z * Z).
Variable getImageData : DdsEncoder.File -> Z -> Z -> list Z.
(** The serializer [generateYdrXml] of ydr-xml.ts, called with the
    fields of its options object; the exporter only passes its arguments
    and stores the string it returns. *)
Variable generateYdrXml :
  string -> ParsedModel F -> list MaterialConfig -> list YdrXml.TextureEntry -> string.
(** [5 + Math.round((texCount / Math.max(totalTextures, 1)) * 60)], a
    floating-point quotient. *)
Variable percentOf : Z -> Z -> Z.

Definition encodeToDds (file : DdsEncoder.File) : result DdsEncoder.Encoded :=
  DdsEncoder.encodeToDds loadImage getImageData file None.

(** The slots that hold a file. *)
Definition countTextures (materials : list MaterialConfig) : Z :=
  foldl (fun total mat =>
           foldl (fun total '(key, slotData) =>
                    match file slotData with
                    | Some _ => total + 1
                    | None => total
                    end)
                 total (textures mat))
        0 materials.

(** The body of the loop over [Object.entries(mat.textures)]. *)
Definition convertSlot (totalTextures : Z) (st : State)
    (slot : string * TextureSlotData) : result State :=
  let '(samplerName, slotData) := slot in
  match file slotData with
  | None => Ok st
  | Some file =>
      let texName := YdrXml.sanitizeTextureName (DdsEncoder.file_name file) in
      let ddsFileName := texName +:+ ".dds" in
      (* Skip if we already processed this texture *)
      match JSMap.get (processedTextures st) texName with
      | Some existing =>
          Ok (mkState
                (textureEntries st ++
                   [YdrXml.mkTextureEntry (YdrXml.name existing) samplerName
                      (YdrXml.width existing) (YdrXml.height existing)
                      (YdrXml.format existing) (YdrXml.fileName existing)])
                (ddsFiles st) (processedTextures st) (texCount st) (trace st))
      | None =>
          let texCount := texCount st + 1 in
          let percent := percentOf texCount totalTextures in
          let trace :=
            trace st ++
              [OnProgress ("Converting texture " +:+ JS.decimal texCount +:+ "/" +:+
                           JS.decimal totalTextures +:+ ": " +:+ DdsEncoder.file_name file)
                          percent] in
          try_catch
            (let* result := encodeToDds file in
             let entry :=
               YdrXml.mkTextureEntry texName samplerName
                 (DdsEncoder.width result) (DdsEncoder.height result)
                 (DdsEncoder.format result) ddsFileName in
             Ok (mkState (textureEntries st ++ [entry])
                         (ddsFiles st ++ [(ddsFileName, DdsEncoder.dds result)])
                         (JSMap.set (processedTextures st) texName entry)
                         texCount trace))
            (fun err =>
               (* Skip this texture but continue *)
               Ok (mkState (textureEntries st) (ddsFiles st) (processedTextures st)
                           texCount
                           (trace ++
                              [ConsoleError ("Failed to convert texture: " +:+
                                             DdsEncoder.file_name file) err])))
      end
  end.

Definition exportYdr (name : string) (model : ParsedModel F)
    (materials : list MaterialConfig) : result (list event) :=
  let started := [OnProgress "Converting textures to DDS..." 5] in
  let totalTextures := countTextures materials in
  let* st :=
    for_each (fun st mat => for_each (convertSlot totalTextures) st (textures mat))
             (mkState [] [] [] 0 started) materials in
  (* Generate YDR XML *)
  let log := trace st ++ [OnProgress "Generating YDR XML..." 70] in
  let xmlContent := generateYdrXml name model materials (textureEntries st) in
  let log := log ++ [GenerateYdrXml (textureEntries st)] in
  (* Create ZIP *)
  let log := log ++ [OnProgress "Creating ZIP archive..." 85] in
  let log := log ++ [ZipFileText (name +:+ ".ydr.xml") xmlContent] in
  let log :=
    foldl (fun log '(fileName, data) =>
             log ++ [ZipFileData (name +:+ "/" +:+ fileName) data])
          log (ddsFiles st) in
  let log := log ++ [OnProgress "Downloading..." 95] in
  let log := log ++ [SaveAs (name +:+ ".zip")] in
  Ok (log ++ [OnProgress "Export complete!" 100]).
End ExportYdr.

End Exporter.

(** * Specification-level definitions

    The vocabulary in which the properties below are stated. *)

(** The bytes per 4x4 block of a format. *)
Definition blockSize (fmt : DdsEncoder.DdsFormat) : Z :=
  match fmt with DdsEncoder.DXT1 => 8 | DdsEncoder.DXT5 => 16 end.

(** The compressor [encodeToDds] runs for a format. *)
Definition compress (fmt : DdsEncoder.DdsFormat) (data : list Z) (w h : Z) : list Z :=
  match fmt with
  | DdsEncoder.DXT1 => DdsEncoder.compressBC1 data w h
  | DdsEncoder.DXT5 => DdsEncoder.compressBC3 data w h
  end.

(** Each character replaced by [g] of it. *)
Fixpoint flat_map_string (g : ascii -> string) (s : string) : string :=
  match s with
  | EmptyString => EmptyString
  | String a rest => g a +:+ flat_map_string g rest
  end.

(** The entity of each of the four characters ampersand, less-than,
    greater-than and double quote; other characters as they are. *)
Definition entity4 (c : ascii) : string :=
  if Ascii.eqb c "&" then "&amp;"
  else if Ascii.eqb c "<" then "&lt;"
  else if Ascii.eqb c ">" then "&gt;"
  else if Ascii.eqb c YdrXml.quote then "&quot;"
  else String c EmptyString.

(** The five XML-unsafe characters, as the specification counts them. *)
Definition xml_unsafe_five : list ascii := ["&"; "<"; ">"; YdrXml.quote; "'"]%char.

(** Escaping as the specification words it: an entity for each of the five. *)
Definition entity5 (c : ascii) : string :=
  if Ascii.eqb c "'" then "&apos;" else entity4 c.

(** The last [k] decimal digits of [r], most significant first. *)
Fixpoint fixed_digits (k : nat) (r : Z) : string :=
  match k with
  | O => EmptyString
  | S k' => fixed_digits k' (r / 10) +:+ String (JS.digit_char (r mod 10)) EmptyString
  end.

(** [s] without the zeros at its end. *)
Fixpoint drop_trailing_zeros (s : string) : string :=
  match s with
  | EmptyString => EmptyString
  | String c rest =>
      if JS.forall_chars (fun c => Ascii.eqb c "0") s then EmptyString
      else String c (drop_trailing_zeros rest)
  end.

(** A fraction is never left without a digit. *)
Definition at_least_one_digit (s : string) : string :=
  if String.eqb s "" then "0" else s.

(** The fractional digits the serializer prints for the [k]-digit fraction
    [r]. *)
Definition fraction (k : nat) (r : Z) : string :=
  at_least_one_digit (drop_trailing_zeros (fixed_digits k r)).

(** The integer nearest to [num / den], the larger one of two. *)
Definition round_half_up (num den : Z) : Z := (2 * num + den) / (2 * den).

(** The sign [toFixed] prints: a minus for a value below zero. *)
Definition sign_of (neg : bool) (mant : N) : string :=
  if neg && negb (N.eqb mant 0) then "-" else "".

(** The binary64 values 1.0, 0.33333333, 10^21 and 2^70 (the last one is
    a binary32 value too, as a position buffer holds them). *)
Definition one_point_zero : JS.number := JS.Finite false 1 0.
Definition third_8_digits : JS.number := JS.Finite false 6004799443112666 (-54).
Definition ten_to_21 : JS.number := JS.Finite false 7629394531250000 17.
Definition two_to_70 : JS.number := JS.Finite false 4503599627370496 18.

Definition no_dot (s : string) : Prop :=
  JS.forall_chars (fun c => negb (Ascii.eqb c ".")) s = true.

Definition all_digits (s : string) : Prop :=
  JS.forall_chars JS.is_digit s = true.

(** The entries of a remap whose keys are [order], numbered from [base]. *)
Fixpoint numbered_from {K} (base : Z) (order : list K) : list (K * Z) :=
  match order with
  | [] => []
  | o :: rest => (o, base) :: numbered_from (base + 1) rest
  end.

(** The original indices a partition reads: [srcIndices[i]] for
    [startIndex <= i < startIndex + count]. *)
Definition partition_indices (srcIndices : list Z) (startIndex count : Z)
    : list (option Z) :=
  map (TypedArray.get srcIndices) (seqZ startIndex count).

(** What holds of the remap and of the local indices after the indices
    [l] have been walked: [order] lists the keys of the remap. *)
Definition collected (l : list (option Z)) (order : list (option Z)) (used : list Z)
    : Prop :=
  NoDup order /\
  (forall o, o ∈ order <-> o ∈ l) /\
  length used = length l /\
  (forall (j : nat) o, l !! j = Some o ->
     exists k : nat, used !! j = Some (Z.of_nat k) /\ order !! k = Some o) /\
  (forall (j k : nat), used !! j = Some (Z.of_nat k) ->
     forall k' : nat, (k' < k)%nat ->
     exists j' : nat, (j' < j)%nat /\ used !! j' = Some (Z.of_nat k')) /\
  (forall k : nat, (k < length order)%nat ->
     exists j : nat, used !! j = Some (Z.of_nat k)) /\
  (forall (j : nat) v, used !! j = Some v -> 0 <= v < Z.of_nat (length order)).


(** The three position floats of the vertex read at original index [o], as
    a [Float32Array] holds them. *)
Definition vertex_position {F} (fround : F -> F)
    (srcPositions : ModelParser.BufferAttribute F) (o : option Z) : list F :=
  [ fround (ModelParser.getX F srcPositions o);
    fround (ModelParser.getY F srcPositions o);
    fround (ModelParser.getZ F srcPositions o) ].

(** The writes of one remap entry into [positions]. *)
Definition position_writes {F} (fround : F -> F)
    (srcPositions : ModelParser.BufferAttribute F) (positions : list F)
    (entry : option Z * Z) : list F :=
  let '(origIdx, newIdx) := entry in
  let positions := ModelParser.fset F fround positions (newIdx * 3)
                     (ModelParser.getX F srcPositions origIdx) in
  let positions := ModelParser.fset F fround positions (newIdx * 3 + 1)
                     (ModelParser.getY F srcPositions origIdx) in
  ModelParser.fset F fround positions (newIdx * 3 + 2)
    (ModelParser.getZ F srcPositions origIdx).

(** A partition of three vertices: the index buffer reads the original
    vertices 5, 7, 5, 9, 7, 5; vertex [i] sits at [(10 i, 10 i + 1, 10 i + 2)]. *)
Definition example_positions : ModelParser.BufferAttribute Z :=
  ModelParser.mkBufferAttribute Z 10 3
    (fun o => default (-1) o * 10) (fun o => default (-1) o * 10 + 1)
    (fun o => default (-1) o * 10 + 2) (fun _ => 0).

Definition example_geometry : ModelParser.BufferGeometry Z :=
  ModelParser.mkBufferGeometry Z (Some [5; 7; 5; 9; 7; 5]) example_positions
    None None None [].

Definition example_mesh : Store.ParsedMesh Z :=
  Store.mkParsedMesh [50; 51; 52; 70; 71; 72; 90; 91; 92]
    [0; 0; 0; 0; 0; 0; 0; 0; 0] [0; 0; 0; 0; 0; 0] None [0; 1; 0; 2; 1; 0] 0 "m".

(** The synthetic name of ordinal [k]. *)
Definition synthetic_name (k : nat) : string :=
  "Material_" +:+ JS.decimal (Z.of_nat k).

(** A material without an explicit name: none at all, or an empty name. *)
Definition unnamed (mat : option (ModelParser.Material)) : Prop :=
  match mat with
  | None => True
  | Some m => ModelParser.mat_name m = ""
  end.

Section Scene.
Context {F : Type} (computeVertexNormals :
                      ModelParser.BufferGeometry F -> ModelParser.BufferAttribute F).

(** The groups a node contributes, each with the geometry and the material
    array it is visited with. *)
Definition node_visits (o : ModelParser.Object3D F)
    : list (ModelParser.BufferGeometry F * list (option (ModelParser.Material)) *
            ModelParser.Group) :=
  match ModelParser.node_mesh F o with
  | None => []
  | Some child =>
      let geo := ModelParser.prepare F computeVertexNormals (ModelParser.geometry F child) in
      map (fun g => (geo, ModelParser.materialsOf F child, g)) (ModelParser.groupsOf F geo)
  end.

(** Every group of the scene, in traversal order. *)
Definition scene_visits (root : ModelParser.Object3D F) :=
  flat_map node_visits (ModelParser.traverse F root).

(** The material of each group of the scene, in traversal order. *)
Definition scene_materials (root : ModelParser.Object3D F)
    : list (option (ModelParser.Material)) :=
  map (fun v => ModelParser.pickMaterial v.1.2
                  (default 0 (ModelParser.group_materialIndex v.2)))
      (scene_visits root).
End Scene.

(** A scene of one triangle mesh that has no material, and a scene without
    any mesh. *)
Definition scene_without_materials : ModelParser.Object3D Z :=
  ModelParser.Node Z None
    [ModelParser.Node Z
       (Some (ModelParser.mkMesh Z example_geometry (ModelParser.Single None))) []].

Definition scene_without_meshes : ModelParser.Object3D Z :=
  ModelParser.Node Z None [ModelParser.Node Z None []].

Section Registration.
Context {F : Type} (zero one : F) (fround : F -> F).

(** One group visited: [visitGroup] on the triple of [node_visits]. *)
Definition visit_one (st : ModelParser.State F)
    (v : ModelParser.BufferGeometry F * list (option ModelParser.Material) *
         ModelParser.Group) : ModelParser.State F :=
  ModelParser.visitGroup F zero one fround v.1.1 v.1.2 st v.2.

(** The material a group is visited with. *)
Definition pick (v : ModelParser.BufferGeometry F * list (option ModelParser.Material) *
                     ModelParser.Group) : option ModelParser.Material :=
  ModelParser.pickMaterial v.1.2 (default 0 (ModelParser.group_materialIndex v.2)).

(** The map from names to positions agrees with the list of names. *)
Definition names_ok (st : ModelParser.State F) : Prop :=
  ModelParser.materialMap F st = numbered_from 0 (ModelParser.names F st) /\
  NoDup (ModelParser.names F st).

(** What holds of the registered names after the groups [vs]. *)
Definition registered
    (vs : list (ModelParser.BufferGeometry F * list (option ModelParser.Material) *
                ModelParser.Group))
    (st : ModelParser.State F) : Prop :=
  names_ok st /\
  (vs <> [] -> ModelParser.names F st <> []) /\
  (forall name, name ∈ ModelParser.names F st ->
     (exists m, Some m ∈ map pick vs /\ ModelParser.mat_name m = name /\ name <> "") \/
     (exists k, name = synthetic_name k)) /\
  (Forall unnamed (map pick vs) ->
     ModelParser.names F st = map synthetic_name (seq 0 (length vs))).
End Registration.

Section Conversion.
Variable loadImage : DdsEncoder.File -> option (Z * Z).
Variable getImageData : DdsEncoder.File -> Z -> Z -> list Z.

(** The sanitized name under which a file is converted. *)
Definition texture_name (f : DdsEncoder.File) : string :=
  YdrXml.sanitizeTextureName (DdsEncoder.file_name f).

(** The first successful conversion, in slot order, of a file with the
    texture name [texName]. *)
Fixpoint first_converted (slots : list (string * Store.TextureSlotData))
    (texName : string) : option DdsEncoder.Encoded :=
  match slots with
  | [] => None
  | (_, slotData) :: rest =>
      match Store.file slotData with
      | Some f =>
          if String.eqb (texture_name f) texName then
            match Exporter.encodeToDds loadImage getImageData f with
            | Ok r => Some r
            | Throw _ => first_converted rest texName
            end
          else first_converted rest texName
      | None => first_converted rest texName
      end
  end.

(** The Texture Entry of a slot, after the slots [earlier]: present when a
    file of its texture name has been converted by then. *)
Definition entry_for (earlier : list (string * Store.TextureSlotData))
    (s : string * Store.TextureSlotData) : list YdrXml.TextureEntry :=
  match Store.file s.2 with
  | None => []
  | Some f =>
      match first_converted (earlier ++ [s]) (texture_name f) with
      | Some r =>
          [YdrXml.mkTextureEntry (texture_name f) s.1 (DdsEncoder.width r)
             (DdsEncoder.height r) (DdsEncoder.format r) (texture_name f +:+ ".dds")]
      | None => []
      end
  end.

Fixpoint expected_entries_from (earlier todo : list (string * Store.TextureSlotData))
    : list YdrXml.TextureEntry :=
  match todo with
  | [] => []
  | s :: rest => entry_for earlier s ++ expected_entries_from (earlier ++ [s]) rest
  end.

(** The Texture Entries of the successfully converted textures. *)
Definition expected_entries (slots : list (string * Store.TextureSlotData))
    : list YdrXml.TextureEntry :=
  expected_entries_from [] slots.

(** The state of the exporter's loop after the slots [done]. *)
Definition converted (done : list (string * Store.TextureSlotData))
    (st : Exporter.State) : Prop :=
  Exporter.textureEntries st = expected_entries done /\
  forall texName,
    match JSMap.get (Exporter.processedTextures st) texName with
    | Some e =>
        exists r, first_converted done texName = Some r /\
                  YdrXml.name e = texName /\
                  YdrXml.width e = DdsEncoder.width r /\
                  YdrXml.height e = DdsEncoder.height r /\
                  YdrXml.format e = DdsEncoder.format r /\
                  YdrXml.fileName e = texName +:+ ".dds"
    | None => first_converted done texName = None
    end.
End Conversion.

(** Two materials on [default.sps]: the first without a texture, the second
    with [b.png] on its diffuse slot; and the Texture Entry the exporter
    makes of that file. *)
Definition bare_material : Store.MaterialConfig :=
  Store.mkMaterialConfig "body" "default.sps" [].

Definition textured_material : Store.MaterialConfig :=
  Store.mkMaterialConfig "glass" "default.sps"
    [("DiffuseSampler",
      Store.mkTextureSlotData (Some (DdsEncoder.mkFile "b.png" [137; 80; 78; 71])) None 4 4)].

Definition entry_b : YdrXml.TextureEntry :=
  YdrXml.mkTextureEntry "b" "DiffuseSampler" 4 4 DdsEncoder.DXT1 "b.dds".

Definition diffuse_param : ShaderDefs.TextureParam :=
  ShaderDefs.mkTextureParam "DiffuseSampler" "Diffuse" "Base color / albedo texture".

(** The Texture Entry list the serializer is called with, in a trace. *)
Fixpoint serializer_input (trace : list Exporter.event)
    : option (list YdrXml.TextureEntry) :=
  match trace with
  | [] => None
  | Exporter.GenerateYdrXml textures :: _ => Some textures
  | _ :: rest => serializer_input rest
  end.

(** ** lib/formats/ydr-xml.ts: the index buffer block *)

Module YdrXmlIndexBuffer.

(** [a.slice(from, to)] for [0 <= from <= to <= a.length]. *)
Definition slice {A} (a : list A) (from to : nat) : list A :=
  take (to - from) (drop from a).

(** [for (let i = ...; i < indices.length; i += 24)]: the chunk arrays
    [Array.from(indices.slice(i, Math.min(i + 24, indices.length)))]. *)
Equations? chunks_from (indices : list Z) (i : nat) : list (list Z)
  by wf (length indices - i)%nat lt :=
  chunks_from indices i with decide (i < length indices)%nat => {
    | left _ :=
        slice indices i (Nat.min (i + 24) (length indices)) ::
        chunks_from indices (i + 24)%nat
    | right _ := [] }.
Proof. lia. Qed.

(** [chunk.join(" ")] for an array of integers. *)
Fixpoint join (sep : string) (l : list Z) : string :=
  match l with
  | [] => EmptyString
  | [x] => JS.decimal x
  | x :: rest => JS.decimal x +:+ sep +:+ join sep rest
  end.

(** The lines pushed into [indexChunks]. *)
Definition indexChunks (indices : list Z) : list string :=
  map (fun chunk => "              " +:+ join " " chunk) (chunks_from indices 0).

End YdrXmlIndexBuffer.

(** A character of a sanitized name: a lower-case letter, a digit or an
    underscore. *)
Definition is_name_char (c : ascii) : bool :=
  JS.is_lower c || JS.is_digit c || Ascii.eqb c "_".

(** A character that would end or open markup: less-than, greater-than or
    the double quote. *)
Definition is_markup (c : ascii) : bool :=
  Ascii.eqb c "<" || Ascii.eqb c ">" || Ascii.eqb c YdrXml.quote.

(** The material index of a mesh is the position of its material name in
    [names]. *)
Definition mesh_indexed {F} (names : list string) (m : Store.ParsedMesh F) : Prop :=
  0 <= Store.materialIndex m /\
  names !! Z.to_nat (Store.materialIndex m) = Some (Store.materialName m).

(** A geometry without an index buffer and without groups: ten vertices,
    vertex [i] at [(10 i, 10 i + 1, 10 i + 2)]. *)
Definition unindexed_geometry : ModelParser.BufferGeometry Z :=
  ModelParser.mkBufferGeometry Z None example_positions None None None [].

Definition unindexed_mesh : ModelParser.Mesh Z :=
  ModelParser.mkMesh Z unindexed_geometry (ModelParser.Single None).

(** A character that [/[^a-zA-Z0-9_]/] leaves alone. *)
Definition is_word_char (c : ascii) : bool :=
  JS.is_lower c || JS.is_upper c || JS.is_digit c || Ascii.eqb c "_".

(** The names of the texture parameters of a shader. *)
Definition sampler_names (s : ShaderDefs.ShaderDef) : list string :=
  map ShaderDefs.tp_name (ShaderDefs.textureParams s).

(** The paths of the binary files put into the archive, and the Texture
    Entries handed to the serializer. *)
Definition archive_paths (log : list Exporter.event) : list string :=
  omap (fun e => match e with Exporter.ZipFileData p _ => Some p | _ => None end) log.

Definition documented (log : list Exporter.event) : list YdrXml.TextureEntry :=
  concat (omap (fun e => match e with Exporter.GenerateYdrXml ts => Some ts | _ => None end)
               log).

(** An event of the conversion loop. *)
Definition conversion_event (e : Exporter.event) : Prop :=
  match e with
  | Exporter.OnProgress _ _ | Exporter.ConsoleError _ _ => True
  | _ => False
  end.

(** The converted files and the Texture Entries of the exporter's loop
    belong together. *)
Definition archived (st : Exporter.State) : Prop :=
  NoDup (map fst (Exporter.processedTextures st)) /\
  map fst (Exporter.ddsFiles st) =
    map (fun k => k +:+ ".dds") (map fst (Exporter.processedTextures st)) /\
  (forall k e, JSMap.get (Exporter.processedTextures st) k = Some e ->
     YdrXml.name e = k /\ YdrXml.fileName e = k +:+ ".dds") /\
  (forall e, e ∈ Exporter.textureEntries st ->
     YdrXml.fileName e = YdrXml.name e +:+ ".dds" /\
     YdrXml.fileName e ∈ map fst (Exporter.ddsFiles st)) /\
  (forall fileName, fileName ∈ map fst (Exporter.ddsFiles st) ->
     exists e, e ∈ Exporter.textureEntries st /\ YdrXml.fileName e = fileName) /\
  Forall conversion_event (Exporter.trace st).

(** The channel [c] of the sixteen texels of a block: every value lies
    between [mn] and [mx], and both are the value of some texel. *)
Definition channel_range (block : list Z) (c mn mx : Z) : Prop :=
  (forall i, 0 <= i < 16 ->
     exists v, TypedArray.get block (i * 4 + c) = Some v /\ mn <= v <= mx) /\
  (exists i, 0 <= i < 16 /\ TypedArray.get block (i * 4 + c) = Some mn) /\
  (exists i, 0 <= i < 16 /\ TypedArray.get block (i * 4 + c) = Some mx).

(** A colour of three bytes reduced to 5, 6 and 5 bits in one 16-bit word. *)
Definition pack565 (r g b : Z) : Z := r / 8 * 2048 + g / 4 * 32 + b / 8.

(** * Verification *)

(** ** Texture codec: power-of-two rounding *)

Section NearestPowerOf2.
Import DdsEncoder.

Lemma while_double_spec (p n : Z) (Hp : 0 < p) :
  exists j : Z,
    0 <= j /\ while_double p n Hp = p * 2 ^ j /\
    n <= p * 2 ^ j /\ (j = 0 \/ p * 2 ^ (j - 1) < n).
Proof.
  funelim (while_double p n Hp).
  - destruct H as (j & Hj & Hr & Hle & Hmin).
    exists (j + 1). 
    assert (E : 2 ^ (j + 1) = 2 * 2 ^ j) by (apply Z.pow_succ_r; lia).
    rewrite Hr, E. replace (j + 1 - 1) with j by lia.
    repeat split; try lia.
    right. destruct (decide (j = 0)) as [-> | Hj0]; [simpl; lia|].
    destruct Hmin as [-> | Hlt]; [done|].
    assert (E' : 2 ^ j = 2 * 2 ^ (j - 1)).
    { replace j with (Z.succ (j - 1)) at 1 by lia. apply Z.pow_succ_r. lia. }
    lia.
  - exists 0. simpl. repeat split; try lia.
Qed.

Lemma nearestPowerOf2_positive (n : Z) : 1 <= nearestPowerOf2 n.
Proof.
  unfold nearestPowerOf2. destruct (decide (n <= 0)); [lia|].
  destruct (while_double_spec 1 n eq_refl) as (j & Hj & -> & _ & _).
  cbv zeta. destruct (decide _) as [(? & ? & ?)|]; [lia|].
  pose proof (Z.pow_pos_nonneg 2 j). lia.
Qed.
End NearestPowerOf2.

(** C2: for a positive integer [n], with [2^k] the least power of two that is
    at least [n], [nearestPowerOf2 n] is [2^(k-1)] when [n] is strictly closer
    to [2^(k-1)] than to [2^k] and [2^(k-1) >= 4], and [2^k] otherwise; it
    maps 258 to 256, 5 to 4 and 3 to 4. *)
Theorem nearestPowerOf2_rule :
  (forall n : Z, 0 < n ->
     exists k : Z,
       0 <= k /\ n <= 2 ^ k /\ (forall j, 0 <= j -> n <= 2 ^ j -> k <= j) /\
       DdsEncoder.nearestPowerOf2 n =
         if decide (n - 2 ^ (k - 1) < 2 ^ k - n /\ 4 <= 2 ^ (k - 1))
         then 2 ^ (k - 1) else 2 ^ k) /\
  DdsEncoder.nearestPowerOf2 258 = 256 /\
  DdsEncoder.nearestPowerOf2 5 = 4 /\
  DdsEncoder.nearestPowerOf2 3 = 4.
Proof.
  split; [|by vm_compute].
  intros n Hn. unfold DdsEncoder.nearestPowerOf2.
  destruct (decide (n <= 0)); [lia|].
  destruct (while_double_spec 1 n eq_refl) as (k & Hk & -> & Hle & Hmin).
  rewrite Z.mul_1_l in *. exists k.
  assert (Hhalf : 2 ^ k / 2 = 2 ^ (k - 1)).
  { destruct (decide (k = 0)) as [->|]; [reflexivity|].
    replace k with (Z.succ (k - 1)) at 1 by lia.
    rewrite Z.pow_succ_r by lia. rewrite Z.mul_comm, Z.div_mul; lia. }
  cbv zeta. rewrite Hhalf.
  split; [done|]. split; [done|]. split.
  - intros j Hj Hnj. destruct Hmin as [->|Hlt]; [done|].
    destruct (decide (k <= j)); [done|].
    assert (2 ^ j <= 2 ^ (k - 1)) by (apply Z.pow_le_mono_r; lia). lia.
  - destruct (decide (2 ^ (k - 1) > 0 /\ _)) as [(? & ? & ?)|Hno];
      destruct (decide (_ /\ 4 <= _)) as [(? & ?)|Hno']; try done; lia.
Qed.

Lemma nearestPowerOf2_rule_witness :
  exists k : Z,
    0 <= k /\ 6 <= 2 ^ k /\ (forall j, 0 <= j -> 6 <= 2 ^ j -> k <= j) /\
    DdsEncoder.nearestPowerOf2 6 =
      if decide (6 - 2 ^ (k - 1) < 2 ^ k - 6 /\ 4 <= 2 ^ (k - 1))
      then 2 ^ (k - 1) else 2 ^ k.
Proof. apply (proj1 nearestPowerOf2_rule 6). lia. Defined.

(** ** Texture codec: format selection *)

Lemma rd_lookup (a : list Z) (i : nat) (v : Z) :
  a !! i = Some v -> TypedArray.rd a (Z.of_nat i) = v.
Proof.
  intros H. unfold TypedArray.rd, TypedArray.get.
  rewrite decide_True by lia. by rewrite Nat2Z.id, H.
Qed.

Lemma hasAlpha_from_spec (data : list Z) (i : nat) :
  DdsEncoder.hasAlpha_from data i = true <->
  exists (k : nat) (a : Z), data !! (i + 4 * k)%nat = Some a /\ a < 250.
Proof.
  funelim (DdsEncoder.hasAlpha_from data i).
  - destruct (lookup_lt_is_Some_2 data i l) as [a Ha].
    rewrite (rd_lookup _ _ _ Ha) in *.
    destruct (decide (a < 250)) as [Hlt|Hge].
    + split; [|done]. intros _. exists 0%nat, a. by rewrite Nat.add_0_r.
    + rewrite (H Hge). split.
      * intros (k & b & Hb & Hlt). exists (S k), b.
        split; [|done]. rewrite <- Hb. f_equal. lia.
      * intros (k & b & Hb & Hlt). destruct k as [|k].
        -- rewrite Nat.add_0_r in Hb. congruence.
        -- exists k, b. split; [|done]. rewrite <- Hb. f_equal. lia.
  - split; [done|]. intros (k & a & Ha & _).
    apply lookup_lt_Some in Ha. lia.
Qed.

Lemma chooseFormat_spec (force : option DdsEncoder.DdsFormat) (data : list Z) :
  let translucent :=
    exists (k : nat) (a : Z), data !! (4 * k + 3)%nat = Some a /\ a < 250 in
  (force = None ->
     (DdsEncoder.chooseFormat force data = DdsEncoder.DXT5 <-> translucent) /\
     (DdsEncoder.chooseFormat force data = DdsEncoder.DXT1 <-> ~ translucent)) /\
  (forall fmt, force = Some fmt -> DdsEncoder.chooseFormat force data = fmt).
Proof.
  cbv zeta.
  assert (E : DdsEncoder.hasAlpha data = true <->
              exists (k : nat) (a : Z), data !! (4 * k + 3)%nat = Some a /\ a < 250).
  { unfold DdsEncoder.hasAlpha. rewrite hasAlpha_from_spec.
    split; intros (k & a & Ha & Hlt); exists k, a; (split; [|done]);
      rewrite <- Ha; f_equal; lia. }
  split; [|by intros fmt ->].
  intros ->. unfold DdsEncoder.chooseFormat.
  destruct (DdsEncoder.hasAlpha data) eqn:Hh.
  - split.
    + split; [intros _; by apply E|done].
    + split; [done|]. intros Hno. destruct Hno. by apply E.
  - split.
    + split; [done|]. intros Hex. apply E in Hex. done.
    + split; [|done]. intros _ Hex. apply E in Hex. done.
Qed.

(** ** Texture codec: container layout *)

Section Container.
Import TypedArray DdsEncoder.

Lemma foldl_invariant {A B} (P : A -> Prop) (f : A -> B -> A) (l : list B) (a : A) :
  (forall a b, P a -> P (f a b)) -> P a -> P (foldl f a l).
Proof. intros Hf. revert a. induction l; simpl; auto. Qed.

Lemma length_set (a : list Z) (i v : Z) : length (set a i v) = length a.
Proof. unfold set. destruct (decide _); [apply length_insert|done]. Qed.

Lemma length_setUint32 (a : list Z) (off : nat) (v : Z) :
  length (setUint32 a off v) = length a.
Proof. unfold setUint32. by rewrite !length_insert. Qed.

Lemma uint32_bytes (w : Z) :
  0 <= w < 4294967296 ->
  w mod 256 + (w / 256) mod 256 * 256 + (w / 65536) mod 256 * 65536 +
    (w / 16777216) mod 256 * 16777216 = w.
Proof. intros Hw. Z.div_mod_to_equations. lia. Qed.

Lemma getUint32_setUint32_eq (a : list Z) (off : nat) (v : Z) :
  (off + 4 <= length a)%nat ->
  getUint32 (setUint32 a off v) off = Ok (v mod 4294967296).
Proof.
  intros Hlen. unfold getUint32, setUint32. cbv zeta.
  rewrite !list_lookup_insert_ne by lia.
  rewrite list_lookup_insert_eq by lia.
  rewrite list_lookup_insert_ne by lia.
  rewrite list_lookup_insert_ne by lia.
  rewrite list_lookup_insert_eq by (rewrite ?length_insert; lia).
  rewrite list_lookup_insert_ne by lia.
  rewrite list_lookup_insert_eq by (rewrite ?length_insert; lia).
  rewrite list_lookup_insert_eq by (rewrite ?length_insert; lia).
  f_equal. apply uint32_bytes. apply Z.mod_pos_bound. lia.
Qed.

Lemma getUint32_setUint32_ne (a : list Z) (off off' : nat) (v : Z) :
  (off' + 4 <= off \/ off + 4 <= off')%nat ->
  getUint32 (setUint32 a off' v) off = getUint32 a off.
Proof.
  intros Hoff. unfold getUint32, setUint32. cbv zeta.
  by rewrite !list_lookup_insert_ne by lia.
Qed.

Lemma getUint32_ext (a b : list Z) (off : nat) :
  (forall i, (i < off + 4)%nat -> a !! i = b !! i) ->
  getUint32 a off = getUint32 b off.
Proof. intros H. unfold getUint32. by rewrite !H by lia. Qed.

Lemma length_set_from (target src : list Z) (off : nat) :
  (off + length src <= length target)%nat ->
  length (set_from target src off) = length target.
Proof.
  intros H. unfold set_from.
  rewrite !length_app, length_take, length_drop. lia.
Qed.

Lemma lookup_set_from_before (target src : list Z) (off i : nat) :
  (off <= length target)%nat -> (i < off)%nat ->
  set_from target src off !! i = target !! i.
Proof.
  intros Hoff Hi. unfold set_from.
  rewrite lookup_app_l by (rewrite length_take; lia).
  by rewrite lookup_take_lt.
Qed.

Lemma drop_set_from (target src : list Z) (off : nat) :
  (off + length src = length target)%nat ->
  drop off (set_from target src off) = src.
Proof.
  intros H. unfold set_from.
  rewrite drop_app_length' by (rewrite length_take; lia).
  rewrite drop_ge by lia. by rewrite app_nil_r.
Qed.

(** The header as [buildDdsFile] leaves it, read back field by field. *)
Lemma buildDdsFile_length (c : list Z) (w h : Z) (fmt : DdsFormat) :
  length (buildDdsFile c w h fmt) = (128 + length c)%nat.
Proof.
  unfold buildDdsFile. cbv zeta.
  rewrite length_set_from; rewrite !length_setUint32, length_replicate; lia.
Qed.

Lemma buildDdsFile_payload (c : list Z) (w h : Z) (fmt : DdsFormat) :
  drop 128 (buildDdsFile c w h fmt) = c.
Proof.
  unfold buildDdsFile. cbv zeta.
  apply drop_set_from. rewrite !length_setUint32, length_replicate. lia.
Qed.

Ltac header_read :=
  unfold buildDdsFile; cbv zeta;
  erewrite getUint32_ext;
    [| intros i Hi; apply lookup_set_from_before;
       [rewrite !length_setUint32, length_replicate; lia | lia]];
  repeat (rewrite getUint32_setUint32_ne by lia);
  rewrite getUint32_setUint32_eq
    by (rewrite ?length_setUint32, length_replicate; lia).

Lemma buildDdsFile_magic (c : list Z) (w h : Z) (fmt : DdsFormat) :
  getUint32 (buildDdsFile c w h fmt) 0 = Ok DDS_MAGIC.
Proof. header_read. reflexivity. Qed.

Lemma buildDdsFile_height (c : list Z) (w h : Z) (fmt : DdsFormat) :
  getUint32 (buildDdsFile c w h fmt) 12 = Ok (h mod 4294967296).
Proof. header_read. reflexivity. Qed.

Lemma buildDdsFile_width (c : list Z) (w h : Z) (fmt : DdsFormat) :
  getUint32 (buildDdsFile c w h fmt) 16 = Ok (w mod 4294967296).
Proof. header_read. reflexivity. Qed.

Lemma buildDdsFile_linearSize (c : list Z) (w h : Z) (fmt : DdsFormat) :
  getUint32 (buildDdsFile c w h fmt) 20 =
  Ok ((Z.max 1 (ceil_div4 w) * Z.max 1 (ceil_div4 h) *
       match fmt with DXT1 => 8 | DXT5 => 16 end) mod 4294967296).
Proof. header_read. reflexivity. Qed.

Lemma buildDdsFile_fourCC (c : list Z) (w h : Z) (fmt : DdsFormat) :
  getUint32 (buildDdsFile c w h fmt) 84 = Ok (fourCC fmt).
Proof. header_read. by destruct fmt. Qed.
End Container.

(** C3: the codec selects the compression by the alpha channel. Of the
    helper that makes the choice: without an override it is DXT5 exactly
    when some pixel's alpha byte (offset [4k+3] of the RGBA buffer) is below
    250, and DXT1 otherwise; an override is returned as it is. Of
    [encodeToDds], on every file that is not a DDS container and whose image
    decodes: the format of the result is that choice on the decoded pixels
    (DXT5 exactly when a decoded pixel has an alpha below 250, DXT1
    otherwise, the override when one is given, whatever the alpha channel),
    the container returned holds the pixels compressed in that very format,
    and its header carries the four-character code of that format. *)
Theorem format_selection :
  (forall data : list Z,
     (DdsEncoder.chooseFormat None data = DdsEncoder.DXT5 <->
        exists (k : nat) (a : Z), data !! (4 * k + 3)%nat = Some a /\ a < 250) /\
     (DdsEncoder.chooseFormat None data = DdsEncoder.DXT1 <->
        ~ exists (k : nat) (a : Z), data !! (4 * k + 3)%nat = Some a /\ a < 250) /\
     (forall fmt, DdsEncoder.chooseFormat (Some fmt) data = fmt)) /\
  (forall (loadImage : DdsEncoder.File -> option (Z * Z))
          (getImageData : DdsEncoder.File -> Z -> Z -> list Z)
          (file : DdsEncoder.File) (force : option DdsEncoder.DdsFormat) (iw ih : Z),
     DdsEncoder.isDdsFile (DdsEncoder.file_bytes file) = false ->
     loadImage file = Some (iw, ih) ->
     let w := Z.min (DdsEncoder.nearestPowerOf2 iw) 4096 in
     let h := Z.min (DdsEncoder.nearestPowerOf2 ih) 4096 in
     let pixels := getImageData file w h in
     let translucent :=
       exists (k : nat) (a : Z), pixels !! (4 * k + 3)%nat = Some a /\ a < 250 in
     exists r,
       DdsEncoder.encodeToDds loadImage getImageData file force = Ok r /\
       (force = None ->
          (DdsEncoder.format r = DdsEncoder.DXT5 <-> translucent) /\
          (DdsEncoder.format r = DdsEncoder.DXT1 <-> ~ translucent)) /\
       (forall fmt, force = Some fmt -> DdsEncoder.format r = fmt) /\
       DdsEncoder.dds r =
         DdsEncoder.buildDdsFile (compress (DdsEncoder.format r) pixels w h) w h
                                 (DdsEncoder.format r) /\
       TypedArray.getUint32 (DdsEncoder.dds r) 84 =
         Ok (DdsEncoder.fourCC (DdsEncoder.format r))).
Proof.
  split.
  - intros data.
    destruct (chooseFormat_spec None data) as [Hnone _]. cbv zeta in Hnone.
    destruct (Hnone eq_refl) as [H5 H1].
    split; [exact H5|]. split; [exact H1|].
    intros fmt. by apply (chooseFormat_spec (Some fmt) data).
  - intros loadImage getImageData file force iw ih Hnot Hload w h pixels translucent.
    unfold DdsEncoder.encodeToDds, DdsEncoder.decodeImageToRGBA.
    rewrite Hnot, Hload. cbv zeta. cbn [bind]. fold w h pixels.
    eexists. split; [reflexivity|]. cbn [DdsEncoder.format DdsEncoder.dds].
    destruct (chooseFormat_spec force pixels) as [Hnone Hsome]. cbv zeta in Hnone.
    split; [exact Hnone|]. split; [exact Hsome|].
    split; [by destruct (DdsEncoder.chooseFormat force pixels)|].
    apply buildDdsFile_fourCC.
Qed.

(** C3 at an image of one pixel with alpha 100 and no override: the codec
    returns a DXT5 container. *)
Lemma format_selection_witness :
  exists r,
    DdsEncoder.encodeToDds (fun _ => Some (1, 1)) (fun _ _ _ => [10; 20; 30; 100])
      (DdsEncoder.mkFile "a.png" []) None = Ok r /\
    DdsEncoder.format r = DdsEncoder.DXT5 /\
    TypedArray.getUint32 (DdsEncoder.dds r) 84 = Ok DdsEncoder.FOURCC_DXT5.
Proof.
  destruct (proj2 format_selection (fun _ => Some (1, 1)) (fun _ _ _ => [10; 20; 30; 100])
              (DdsEncoder.mkFile "a.png" []) None 1 1 eq_refl eq_refl)
    as (r & Hr & Hnone & _ & _ & Hcode).
  assert (Hfmt : DdsEncoder.format r = DdsEncoder.DXT5).
  { apply (Hnone eq_refl). exists 0%nat, 100. split; [reflexivity|lia]. }
  exists r. split; [exact Hr|]. split; [exact Hfmt|].
  rewrite Hcode, Hfmt. reflexivity.
Defined.

Section Compression.
Import TypedArray DdsEncoder.

Lemma length_encodeBC1Block (block output : list Z) (offset : Z) :
  length (encodeBC1Block block output offset) = length output.
Proof.
  unfold encodeBC1Block. cbv zeta.
  destruct (decide _); by rewrite !length_set.
Qed.

Lemma length_encodeBC3AlphaBlock (block output : list Z) (offset : Z) :
  length (encodeBC3AlphaBlock block output offset) = length output.
Proof.
  unfold encodeBC3AlphaBlock.
  destruct (foldl _ (255, 0) (upto 16)) as [minA maxA].
  cbv zeta. by rewrite !length_set.
Qed.

Lemma length_alloc (n : Z) : 0 <= n -> Z.of_nat (length (alloc n)) = n.
Proof. intros H. unfold alloc. rewrite length_replicate. lia. Qed.

Lemma length_compressBC1 (data : list Z) (w h : Z) :
  Z.of_nat (length (compressBC1 data w h)) =
  Z.max 1 (ceil_div4 w) * Z.max 1 (ceil_div4 h) * 8.
Proof.
  unfold compressBC1. cbv zeta.
  set (n := Z.max 1 (ceil_div4 w) * Z.max 1 (ceil_div4 h) * 8).
  apply (foldl_invariant (fun st => Z.of_nat (length st.1) = n)).
  - intros st by_ Hst.
    apply (foldl_invariant (fun st => Z.of_nat (length st.1) = n)); [|done].
    intros [out off] bx Hout. cbn [fst] in *.
    by rewrite length_encodeBC1Block.
  - cbn [fst]. apply length_alloc. lia.
Qed.

Lemma length_compressBC3 (data : list Z) (w h : Z) :
  Z.of_nat (length (compressBC3 data w h)) =
  Z.max 1 (ceil_div4 w) * Z.max 1 (ceil_div4 h) * 16.
Proof.
  unfold compressBC3. cbv zeta.
  set (n := Z.max 1 (ceil_div4 w) * Z.max 1 (ceil_div4 h) * 16).
  apply (foldl_invariant (fun st => Z.of_nat (length st.1) = n)).
  - intros st by_ Hst.
    apply (foldl_invariant (fun st => Z.of_nat (length st.1) = n)); [|done].
    intros [out off] bx Hout. cbn [fst] in *.
    by rewrite length_encodeBC1Block, length_encodeBC3AlphaBlock.
  - cbn [fst]. apply length_alloc. lia.
Qed.

(** [Math.ceil(a / 4)] as the usual integer ceiling. *)
Lemma ceil_div4_eq (a : Z) : ceil_div4 a = (a + 3) / 4.
Proof. unfold ceil_div4. Z.div_mod_to_equations. lia. Qed.

Lemma blocks_of_positive (a : Z) : 1 <= a -> Z.max 1 (ceil_div4 a) = (a + 3) / 4.
Proof. intros H. rewrite ceil_div4_eq. Z.div_mod_to_equations. lia. Qed.

(** What the decoder hands to the compressor: both sides are between 1
    and 4096. *)
Lemma decoded_dimension_range (n : Z) : 1 <= Z.min (nearestPowerOf2 n) 4096 <= 4096.
Proof. pose proof (nearestPowerOf2_positive n). lia. Qed.
End Compression.

(** C10: for [width >= 1] and [height >= 1] the compressed payload has
    [ceil(width/4) * ceil(height/4) * blockSize] bytes, the container has 128
    bytes more, and the linear-size field at header offset 20 is the
    payload's byte length (a 32-bit field: for every payload below 2^32
    bytes, which includes all sizes up to 4096 x 4096 that the decoder
    produces). *)
Theorem container_size (data : list Z) (w h : Z) (fmt : DdsEncoder.DdsFormat) :
  1 <= w -> 1 <= h ->
  let payload := compress fmt data w h in
  let file := DdsEncoder.buildDdsFile payload w h fmt in
  Z.of_nat (length payload) = ((w + 3) / 4) * ((h + 3) / 4) * blockSize fmt /\
  Z.of_nat (length file) = 128 + ((w + 3) / 4) * ((h + 3) / 4) * blockSize fmt /\
  (Z.of_nat (length payload) < 4294967296 ->
     TypedArray.getUint32 file 20 = Ok (Z.of_nat (length payload))) /\
  (w <= 4096 -> h <= 4096 -> Z.of_nat (length payload) < 4294967296).
Proof.
  intros Hw Hh payload file.
  assert (Hp : Z.of_nat (length payload) =
               ((w + 3) / 4) * ((h + 3) / 4) * blockSize fmt).
  { unfold payload, compress.
    destruct fmt; rewrite ?length_compressBC1, ?length_compressBC3;
      by rewrite !blocks_of_positive. }
  split; [done|]. split; [|split].
  - unfold file. rewrite buildDdsFile_length. lia.
  - intros Hlt. unfold file. rewrite buildDdsFile_linearSize.
    rewrite !blocks_of_positive by done. f_equal.
    fold (blockSize fmt). rewrite <- Hp. apply Z.mod_small. lia.
  - intros Hw' Hh'. rewrite Hp.
    assert ((w + 3) / 4 <= 1024) by (Z.div_mod_to_equations; lia).
    assert ((h + 3) / 4 <= 1024) by (Z.div_mod_to_equations; lia).
    assert (0 <= (w + 3) / 4) by (Z.div_mod_to_equations; lia).
    assert (0 <= (h + 3) / 4) by (Z.div_mod_to_equations; lia).
    assert (blockSize fmt <= 16) by (destruct fmt; simpl; lia).
    assert (0 < blockSize fmt) by (destruct fmt; simpl; lia).
    assert ((w + 3) / 4 * ((h + 3) / 4) <= 1024 * 1024)
      by (apply Z.mul_le_mono_nonneg; lia).
    assert ((w + 3) / 4 * ((h + 3) / 4) * blockSize fmt <= 1024 * 1024 * 16)
      by (apply Z.mul_le_mono_nonneg; lia).
    lia.
Qed.

Lemma container_size_witness :
  let payload := compress DdsEncoder.DXT5 [] 5 3 in
  let file := DdsEncoder.buildDdsFile payload 5 3 DdsEncoder.DXT5 in
  Z.of_nat (length payload) = 32 /\
  Z.of_nat (length file) = 160 /\
  TypedArray.getUint32 file 20 = Ok 32.
Proof.
  destruct (container_size [] 5 3 DdsEncoder.DXT5) as (H1 & H2 & H3 & H4);
    [lia | lia |].
  cbv zeta. rewrite H1 in H3. split; [exact H1|]. split; [exact H2|].
  apply H3. vm_compute. reflexivity.
Defined.

(** ** Texture codec: reading a built container back *)

Section RoundTrip.
Import TypedArray DdsEncoder.

Lemma getUint32_take (a : list Z) (n off : nat) :
  (off + 4 <= n)%nat -> getUint32 (take n a) off = getUint32 a off.
Proof.
  intros H. apply getUint32_ext. intros i Hi. apply lookup_take_lt. lia.
Qed.

Lemma isDdsFile_built (c : list Z) (w h : Z) (fmt : DdsFormat) :
  isDdsFile (buildDdsFile c w h fmt) = true.
Proof.
  unfold isDdsFile. rewrite buildDdsFile_length, buildDdsFile_magic.
  rewrite decide_False by lia. by apply bool_decide_eq_true.
Qed.

(** The pass-through branch of [encodeToDds] on a container that
    [buildDdsFile] made for 32-bit dimensions. *)
Lemma passthrough_built loadImage getImageData (c : list Z) (w h : Z)
    (fmt : DdsFormat) (name : string) (force : option DdsFormat) :
  0 <= w < 4294967296 -> 0 <= h < 4294967296 ->
  encodeToDds loadImage getImageData (mkFile name (buildDdsFile c w h fmt)) force =
  Ok (mkEncoded (buildDdsFile c w h fmt) fmt w h).
Proof.
  intros Hw Hh. unfold encodeToDds, getDdsDimensions. cbn [file_bytes].
  rewrite isDdsFile_built.
  rewrite !getUint32_take by lia.
  rewrite buildDdsFile_magic. cbn [bind].
  rewrite decide_False by (intros Hne; by apply Hne).
  rewrite buildDdsFile_height, buildDdsFile_width, buildDdsFile_fourCC.
  cbn [bind fst snd]. rewrite !Z.mod_small by lia.
  by destruct fmt.
Qed.

Lemma encodeToDds_built loadImage getImageData (file : File)
    (force : option DdsFormat) (r : Encoded) :
  isDdsFile (file_bytes file) = false ->
  encodeToDds loadImage getImageData file force = Ok r ->
  exists data : list Z,
    1 <= width r <= 4096 /\ 1 <= height r <= 4096 /\
    format r = chooseFormat force data /\
    dds r = buildDdsFile (match format r with
                          | DXT1 => compressBC1 data (width r) (height r)
                          | DXT5 => compressBC3 data (width r) (height r)
                          end) (width r) (height r) (format r).
Proof.
  intros Hnot Henc. unfold encodeToDds in Henc. rewrite Hnot in Henc.
  unfold decodeImageToRGBA in Henc.
  destruct (loadImage file) as [[iw ih]|]; [|done].
  cbn [bind] in Henc. injection Henc as <-. cbn [width height format dds].
  exists (getImageData file (Z.min (nearestPowerOf2 iw) 4096)
                       (Z.min (nearestPowerOf2 ih) 4096)).
  split; [apply decoded_dimension_range|].
  split; [apply decoded_dimension_range|]. done.
Qed.
End RoundTrip.

(** C6: reading back a container that the codec built recovers what it was
    built from. For every payload, format and 32-bit width and height, the
    header of [buildDdsFile]'s output holds the width at offset 16, the
    height at offset 12 and the format's four-character code at offset 84;
    and every container that [encodeToDds] builds from an image, given back
    to [encodeToDds], is passed through with the same width, height and
    format. *)
Theorem dds_header_roundtrip :
  (forall (compressed : list Z) (w h : Z) (fmt : DdsEncoder.DdsFormat),
     0 <= w < 4294967296 -> 0 <= h < 4294967296 ->
     let file := DdsEncoder.buildDdsFile compressed w h fmt in
     TypedArray.getUint32 file 16 = Ok w /\
     TypedArray.getUint32 file 12 = Ok h /\
     TypedArray.getUint32 file 84 = Ok (DdsEncoder.fourCC fmt) /\
     DdsEncoder.getDdsDimensions (DdsEncoder.mkFile "t.dds" file) = Ok (w, h)) /\
  (forall loadImage getImageData (file : DdsEncoder.File)
          (force : option DdsEncoder.DdsFormat) (r : DdsEncoder.Encoded),
     DdsEncoder.isDdsFile (DdsEncoder.file_bytes file) = false ->
     DdsEncoder.encodeToDds loadImage getImageData file force = Ok r ->
     TypedArray.getUint32 (DdsEncoder.dds r) 16 = Ok (DdsEncoder.width r) /\
     TypedArray.getUint32 (DdsEncoder.dds r) 12 = Ok (DdsEncoder.height r) /\
     TypedArray.getUint32 (DdsEncoder.dds r) 84 =
       Ok (DdsEncoder.fourCC (DdsEncoder.format r)) /\
     forall loadImage' getImageData' name force',
       DdsEncoder.encodeToDds loadImage' getImageData'
         (DdsEncoder.mkFile name (DdsEncoder.dds r)) force' = Ok r).
Proof.
  split.
  - intros c w h fmt Hw Hh file. unfold file.
    rewrite buildDdsFile_width, buildDdsFile_height, buildDdsFile_fourCC.
    rewrite !Z.mod_small by lia. repeat split.
    unfold DdsEncoder.getDdsDimensions. cbn [DdsEncoder.file_bytes].
    rewrite !getUint32_take by lia.
    rewrite buildDdsFile_magic, buildDdsFile_width, buildDdsFile_height.
    cbn [bind]. rewrite decide_False by (intros Hne; by apply Hne).
    by rewrite !Z.mod_small by lia.
  - intros li gi file force r Hnot Henc.
    destruct (encodeToDds_built _ _ _ _ _ Hnot Henc) as (data & Hw & Hh & _ & Hdds).
    rewrite Hdds.
    rewrite buildDdsFile_width, buildDdsFile_height, buildDdsFile_fourCC.
    rewrite !Z.mod_small by lia. repeat split.
    intros li' gi' name force'.
    rewrite passthrough_built by lia.
    f_equal. rewrite <- Hdds. by destruct r.
Qed.

Lemma dds_header_roundtrip_witness :
  (TypedArray.getUint32 (DdsEncoder.buildDdsFile [1; 2; 3] 640 480 DdsEncoder.DXT5) 16
     = Ok 640) /\
  (let loadImage := fun _ : DdsEncoder.File => Some (3, 5) in
   let getImageData := fun (_ : DdsEncoder.File) (w h : Z) =>
                         replicate (Z.to_nat (w * h * 4)) 255 in
   let file := DdsEncoder.mkFile "a.png" [137; 80; 78; 71] in
   let data := getImageData file 4 4 in
   let r := DdsEncoder.mkEncoded
              (DdsEncoder.buildDdsFile (DdsEncoder.compressBC1 data 4 4) 4 4 DdsEncoder.DXT1)
              DdsEncoder.DXT1 4 4 in
   DdsEncoder.encodeToDds loadImage getImageData file None = Ok r /\
   TypedArray.getUint32 (DdsEncoder.dds r) 16 = Ok 4 /\
   TypedArray.getUint32 (DdsEncoder.dds r) 12 = Ok 4).
Proof.
  split.
  - apply (proj1 dds_header_roundtrip [1; 2; 3] 640 480 DdsEncoder.DXT5); lia.
  - intros loadImage getImageData file data r.
    assert (E : DdsEncoder.encodeToDds loadImage getImageData file None = Ok r)
      by (vm_compute; reflexivity).
    split; [exact E|].
    destruct (proj2 dds_header_roundtrip loadImage getImageData file None r
                eq_refl E) as (Hw & Hh & _ & _).
    split; [exact Hw | exact Hh].
Defined.

(** ** Serializer: text escaping *)

Lemma append_assoc (a b c : string) : (a +:+ b) +:+ c = a +:+ (b +:+ c).
Proof. induction a as [|x a IH]; [done|]. change (String x ((a +:+ b) +:+ c) = String x (a +:+ (b +:+ c))). by rewrite IH. Qed.

Lemma replaceAll_app (c : ascii) (e a b : string) :
  JS.replaceAll c e (a +:+ b) = JS.replaceAll c e a +:+ JS.replaceAll c e b.
Proof.
  induction a as [|x a IH]; simpl; [done|].
  destruct (Ascii.eqb x c); simpl; rewrite IH; [by rewrite append_assoc|done].
Qed.

Lemma escXml_cons (a : ascii) (s : string) :
  YdrXml.escXml (String a s) = entity4 a +:+ YdrXml.escXml s.
Proof.
  unfold YdrXml.escXml, entity4.
  destruct (Ascii.eqb_spec a "&") as [->|Hamp].
  { cbn [JS.replaceAll Ascii.eqb Bool.eqb]. cbv iota.
    rewrite !replaceAll_app. reflexivity. }
  cbn [JS.replaceAll]. rewrite (proj2 (Ascii.eqb_neq _ _) Hamp).
  destruct (Ascii.eqb_spec a "<") as [->|Hlt].
  { cbn [JS.replaceAll Ascii.eqb Bool.eqb]. cbv iota.
    rewrite !replaceAll_app. reflexivity. }
  cbn [JS.replaceAll]. rewrite (proj2 (Ascii.eqb_neq _ _) Hlt).
  destruct (Ascii.eqb_spec a ">") as [->|Hgt].
  { cbn [JS.replaceAll Ascii.eqb Bool.eqb]. cbv iota.
    rewrite !replaceAll_app. reflexivity. }
  cbn [JS.replaceAll]. rewrite (proj2 (Ascii.eqb_neq _ _) Hgt).
  destruct (Ascii.eqb_spec a YdrXml.quote) as [->|Hq].
  { cbn [JS.replaceAll]. rewrite Ascii.eqb_refl. reflexivity. }
  cbn [JS.replaceAll]. rewrite (proj2 (Ascii.eqb_neq _ _) Hq). reflexivity.
Qed.

(** C8 as the specification states it fails: the apostrophe, one of the five
    XML-unsafe characters, goes through [escXml] unescaped. *)
Lemma escXml_leaves_apostrophe :
  In "'"%char xml_unsafe_five /\
  YdrXml.escXml "it's" = "it's" /\
  YdrXml.escXml "it's" <> flat_map_string entity5 "it's".
Proof. split; [|split]; [vm_compute; tauto | reflexivity | by vm_compute]. Qed.

(** C8, amended: [escXml] replaces every occurrence of each of the four
    characters ampersand, less-than, greater-than and double quote by its
    entity ([&amp;], [&lt;], [&gt;], [&quot;]) and copies every other
    character, the apostrophe included. *)
Theorem escXml_four (s : string) :
  YdrXml.escXml s = flat_map_string entity4 s.
Proof.
  induction s as [|a s IH]; [reflexivity|].
  rewrite escXml_cons. simpl. by rewrite IH.
Qed.

(** ** Serializer: numeric formatting *)

Section Strings.
Lemma append_nil_r (s : string) : s +:+ "" = s.
Proof. induction s as [|c s IH]; [done|]. change (String c (s +:+ "") = String c s). by rewrite IH. Qed.

Lemma length_append (a b : string) :
  String.length (a +:+ b) = (String.length a + String.length b)%nat.
Proof.
  induction a as [|c a IH]; [done|].
  change (S (String.length (a +:+ b)) = S (String.length a + String.length b)).
  by rewrite IH.
Qed.

Lemma substring_0_append (a b : string) :
  substring 0 (String.length a) (a +:+ b) = a.
Proof.
  induction a as [|c a IH]; [by destruct b|].
  change (String c (substring 0 (String.length a) (a +:+ b)) = String c a).
  by rewrite IH.
Qed.

Lemma substring_skip_append (a b : string) :
  substring (String.length a) (String.length b) (a +:+ b) = b.
Proof.
  induction a as [|c a IH].
  - change (substring 0 (String.length b) b = b).
    rewrite <- (append_nil_r b) at 2. apply substring_0_append.
  - exact IH.
Qed.

Lemma forall_chars_append (p : ascii -> bool) (a b : string) :
  JS.forall_chars p (a +:+ b) = JS.forall_chars p a && JS.forall_chars p b.
Proof.
  induction a as [|c a IH]; [done|].
  change (p c && JS.forall_chars p (a +:+ b) =
          p c && JS.forall_chars p a && JS.forall_chars p b).
  rewrite IH. by destruct (p c).
Qed.
End Strings.

Section Decimal.
Lemma decimal_aux_nonpos (n : Z) (acc : string) :
  n <= 0 -> JS.decimal_aux n acc = acc.
Proof. intros H. rewrite JS.decimal_aux_equation_1. by destruct (decide (n <= 0)). Qed.

Lemma decimal_aux_pos (n : Z) (acc : string) :
  0 < n ->
  JS.decimal_aux n acc = JS.decimal_aux (n / 10) (String (JS.digit_char (n mod 10)) acc).
Proof.
  intros H. rewrite JS.decimal_aux_equation_1 at 1.
  destruct (decide (n <= 0)); [lia|done].
Qed.

Lemma decimal_aux_acc (n : Z) (acc : string) :
  JS.decimal_aux n acc = JS.decimal_aux n "" +:+ acc.
Proof.
  destruct (decide (n <= 0)) as [Hn|Hn].
  { by rewrite !decimal_aux_nonpos. }
  revert acc. pattern n. apply Z_lt_induction; [|lia].
  clear n Hn. intros n IH acc.
  destruct (decide (n <= 0)) as [Hn|Hn].
  { by rewrite !decimal_aux_nonpos. }
  rewrite !(decimal_aux_pos n) by lia.
  assert (Hq : 0 <= n / 10 < n) by (Z.div_mod_to_equations; lia).
  rewrite (IH _ Hq (String _ acc)), (IH _ Hq (String _ "")).
  by rewrite append_assoc.
Qed.

Lemma decimal_snoc (q d : Z) :
  0 < q -> 0 <= d < 10 ->
  JS.decimal (10 * q + d) = JS.decimal q +:+ String (JS.digit_char d) "".
Proof.
  intros Hq Hd. unfold JS.decimal.
  rewrite !decide_False by lia.
  rewrite decimal_aux_pos by lia.
  replace ((10 * q + d) / 10) with q by (Z.div_mod_to_equations; lia).
  replace ((10 * q + d) mod 10) with d by (Z.div_mod_to_equations; lia).
  apply decimal_aux_acc.
Qed.

Lemma decimal_digit (d : Z) :
  0 <= d < 10 -> JS.decimal d = String (JS.digit_char d) "".
Proof.
  intros Hd. unfold JS.decimal.
  destruct (decide (d = 0)) as [->|Hne]; [reflexivity|].
  rewrite decide_False by lia. rewrite decimal_aux_pos by lia.
  rewrite Z.div_small, Z.mod_small by lia.
  by rewrite decimal_aux_nonpos.
Qed.

Lemma is_digit_digit_char (d : Z) :
  0 <= d < 10 -> JS.is_digit (JS.digit_char d) = true.
Proof.
  intros Hd.
  assert (H : d = 0 \/ d = 1 \/ d = 2 \/ d = 3 \/ d = 4 \/ d = 5 \/
              d = 6 \/ d = 7 \/ d = 8 \/ d = 9) by lia.
  repeat (destruct H as [->|H]; [reflexivity|]). by subst.
Qed.
End Decimal.

Section FixedDigits.
Lemma length_fixed_digits (k : nat) (r : Z) : String.length (fixed_digits k r) = k.
Proof.
  revert r. induction k as [|k IH]; intros r; [done|].
  cbn [fixed_digits]. rewrite length_append, IH. simpl. lia.
Qed.

Lemma zeros_snoc (k : nat) : JS.zeros k +:+ "0" = String "0" (JS.zeros k).
Proof.
  induction k as [|k IH]; [done|].
  change (String "0" (JS.zeros k +:+ "0") = String "0" (String "0" (JS.zeros k))).
  by rewrite IH.
Qed.

Lemma fixed_digits_0 (k : nat) : fixed_digits k 0 = JS.zeros k.
Proof.
  induction k as [|k IH]; [done|].
  cbn [fixed_digits]. rewrite Zdiv_0_l, Zmod_0_l, IH.
  apply zeros_snoc.
Qed.

Lemma decimal_nonempty (n : Z) : (1 <= String.length (JS.decimal n))%nat.
Proof.
  unfold JS.decimal. destruct (decide (n = 0)); [simpl; lia|].
  destruct (decide (n < 0)); [simpl; lia|].
  rewrite decimal_aux_pos by lia. rewrite decimal_aux_acc, length_append.
  simpl. lia.
Qed.

Lemma decimal_split (k : nat) (q r : Z) :
  0 < q -> 0 <= r < 10 ^ Z.of_nat k ->
  JS.decimal (q * 10 ^ Z.of_nat k + r) = JS.decimal q +:+ fixed_digits k r.
Proof.
  revert r. induction k as [|k IH]; intros r Hq Hr.
  - change (Z.of_nat 0) with 0 in *. rewrite Z.pow_0_r in *.
    replace (q * 1 + r) with q by lia. cbn [fixed_digits]. by rewrite append_nil_r.
  - rewrite Nat2Z.inj_succ, Z.pow_succ_r in * by lia.
    cbn [fixed_digits].
    replace (q * (10 * 10 ^ Z.of_nat k) + r)
      with (10 * (q * 10 ^ Z.of_nat k + r / 10) + r mod 10)
      by (Z.div_mod_to_equations; lia).
    assert (0 <= r / 10 < 10 ^ Z.of_nat k) by (Z.div_mod_to_equations; lia).
    assert (0 <= r mod 10 < 10) by (Z.div_mod_to_equations; lia).
    assert (0 < 10 ^ Z.of_nat k) by (apply Z.pow_pos_nonneg; lia).
    rewrite decimal_snoc by nia.
    rewrite IH by lia. by rewrite append_assoc.
Qed.

Lemma decimal_pad (k : nat) (n : Z) :
  0 < n < 10 ^ Z.of_nat k ->
  (String.length (JS.decimal n) <= k)%nat /\
  JS.zeros (k - String.length (JS.decimal n)) +:+ JS.decimal n = fixed_digits k n.
Proof.
  revert n. induction k as [|k IH]; intros n Hn.
  - change (Z.of_nat 0) with 0 in Hn. rewrite Z.pow_0_r in Hn. lia.
  - rewrite Nat2Z.inj_succ, Z.pow_succ_r in Hn by lia.
    cbn [fixed_digits].
    assert (Hd : 0 <= n mod 10 < 10) by (Z.div_mod_to_equations; lia).
    destruct (decide (n < 10)) as [Hsmall|Hbig].
    + rewrite Z.div_small, Z.mod_small by lia.
      rewrite decimal_digit by lia. simpl String.length.
      replace (S k - 1)%nat with k by lia.
      split; [lia|]. by rewrite fixed_digits_0.
    + assert (Hq : 0 < n / 10 < 10 ^ Z.of_nat k) by (Z.div_mod_to_equations; lia).
      destruct (IH _ Hq) as [Hlen Hpad].
      replace n with (10 * (n / 10) + n mod 10) at 1 2 3
        by (Z.div_mod_to_equations; lia).
      rewrite decimal_snoc by lia.
      rewrite length_append. simpl String.length.
      split; [lia|].
      replace (S k - (String.length (JS.decimal (n / 10)) + 1))%nat
        with (k - String.length (JS.decimal (n / 10)))%nat by lia.
      by rewrite <- append_assoc, Hpad.
Qed.

(** The digits [toFixed] splits around the decimal point. *)
Lemma toFixed_digits (fd : nat) (n : Z) :
  (1 <= fd)%nat -> 0 <= n ->
  let m := JS.decimal n in
  let k := String.length m in
  let m' := if decide (k <= fd)%nat then JS.zeros (fd + 1 - k) +:+ m else m in
  m' = JS.decimal (n / 10 ^ Z.of_nat fd) +:+ fixed_digits fd (n mod 10 ^ Z.of_nat fd).
Proof.
  intros Hfd Hn m k m'.
  assert (Hp : 0 < 10 ^ Z.of_nat fd) by (apply Z.pow_pos_nonneg; lia).
  destruct (decide (n < 10 ^ Z.of_nat fd)) as [Hsmall|Hbig].
  - rewrite Z.div_small, Z.mod_small by lia.
    destruct (decide (n = 0)) as [->|Hne].
    + subst m' k m. change (JS.decimal 0) with "0". simpl String.length.
      rewrite decide_True by lia.
      replace (fd + 1 - 1)%nat with fd by lia.
      rewrite fixed_digits_0. apply zeros_snoc.
    + destruct (decimal_pad fd n) as [Hlen Hpad]; [lia|].
      subst m' k m. rewrite decide_True by lia.
      replace (fd + 1 - String.length (JS.decimal n))%nat
        with (S (fd - String.length (JS.decimal n))) by lia.
      change (JS.decimal 0) with "0".
      change (String "0" (JS.zeros (fd - String.length (JS.decimal n)) +:+ JS.decimal n)
              = String "0" (fixed_digits fd n)).
      by rewrite Hpad.
  - assert (Hq : 0 < n / 10 ^ Z.of_nat fd) by (Z.div_mod_to_equations; nia).
    assert (Hr : 0 <= n mod 10 ^ Z.of_nat fd < 10 ^ Z.of_nat fd)
      by (apply Z.mod_pos_bound; lia).
    assert (E : m = JS.decimal (n / 10 ^ Z.of_nat fd) +:+
                    fixed_digits fd (n mod 10 ^ Z.of_nat fd)).
    { subst m. rewrite <- decimal_split by lia. f_equal.
      rewrite Z.mul_comm. apply Z.div_mod. lia. }
    subst m'. rewrite decide_False; [exact E|].
    subst k. rewrite E, length_append, length_fixed_digits.
    pose proof (decimal_nonempty (n / 10 ^ Z.of_nat fd)). lia.
Qed.
End FixedDigits.

Section TrailingZeros.
Lemma forall_chars_impl (p p' : ascii -> bool) (s : string) :
  (forall c, p c = true -> p' c = true) ->
  JS.forall_chars p s = true -> JS.forall_chars p' s = true.
Proof.
  intros Hpp'. induction s as [|c s IH]; [done|].
  cbn [JS.forall_chars]. rewrite !andb_true_iff. intros [Hc Hs]. auto.
Qed.

Lemma all_digits_no_dot (s : string) : all_digits s -> no_dot s.
Proof.
  apply forall_chars_impl. intros c Hc.
  destruct (Ascii.eqb_spec c ".") as [->|]; [done|done].
Qed.

Lemma all_digits_append (a b : string) :
  all_digits a -> all_digits b -> all_digits (a +:+ b).
Proof.
  unfold all_digits. intros Ha Hb. by rewrite forall_chars_append, Ha, Hb.
Qed.

Lemma no_dot_append (a b : string) : no_dot a -> no_dot b -> no_dot (a +:+ b).
Proof.
  unfold no_dot. intros Ha Hb. by rewrite forall_chars_append, Ha, Hb.
Qed.

Lemma strip_no_dot (t : string) : no_dot t -> JS.stripTrailingZeros t = t.
Proof.
  unfold no_dot. induction t as [|c t IH]; [done|].
  cbn [JS.forall_chars JS.stripTrailingZeros]. rewrite andb_true_iff.
  intros [Hc Ht]. destruct (Ascii.eqb c "."); [done|]. by rewrite IH.
Qed.

Lemma strip_prefix (pre t : string) :
  no_dot pre ->
  JS.stripTrailingZeros (pre +:+ t) = pre +:+ JS.stripTrailingZeros t.
Proof.
  unfold no_dot. induction pre as [|c pre IH]; [done|].
  cbn [JS.forall_chars]. rewrite andb_true_iff. intros [Hc Hpre].
  change (String c pre +:+ t) with (String c (pre +:+ t)).
  cbn [JS.stripTrailingZeros]. destruct (Ascii.eqb c "."); [done|].
  rewrite IH by done. reflexivity.
Qed.

Lemma zeros_to_end_cons (c : ascii) (r : string) :
  JS.zeros_to_end (String c r) = JS.forall_chars (fun c => Ascii.eqb c "0") (String c r).
Proof. reflexivity. Qed.

Lemma lazy_digits_some (B d : string) :
  JS.lazy_digits B = Some d -> d = drop_trailing_zeros B.
Proof.
  revert d. induction B as [|c r IH]; intros d; [done|].
  cbn [JS.lazy_digits drop_trailing_zeros]. rewrite zeros_to_end_cons.
  destruct (JS.forall_chars _ (String c r)); [congruence|].
  destruct (JS.is_digit c); [|done].
  destruct (JS.lazy_digits r) as [d'|]; [|done].
  intros [= <-]. by rewrite (IH d').
Qed.

Lemma lazy_digits_none (B : string) :
  all_digits B -> JS.lazy_digits B = None -> drop_trailing_zeros B = B.
Proof.
  unfold all_digits. induction B as [|c r IH]; [done|].
  cbn [JS.lazy_digits drop_trailing_zeros JS.forall_chars].
  rewrite andb_true_iff. intros [Hc Hr].
  change (Ascii.eqb c "0" && JS.forall_chars (fun c => Ascii.eqb c "0") r)
    with (JS.forall_chars (fun c => Ascii.eqb c "0") (String c r)).
  rewrite zeros_to_end_cons.
  destruct (JS.forall_chars _ (String c r)); [done|].
  rewrite Hc. destruct (JS.lazy_digits r) as [d'|]; [done|].
  intros _. by rewrite IH.
Qed.

Lemma strip_at_dot (B : string) :
  all_digits B ->
  JS.stripTrailingZeros (String "." B) = String "." (drop_trailing_zeros B).
Proof.
  intros HB. cbn [JS.stripTrailingZeros]. rewrite Ascii.eqb_refl.
  destruct (JS.lazy_digits B) as [d|] eqn:Hl.
  - by rewrite (lazy_digits_some _ _ Hl).
  - rewrite (lazy_digits_none _ HB Hl).
    by rewrite strip_no_dot by by apply all_digits_no_dot.
Qed.

Lemma drop_trailing_zeros_no_dot (B : string) :
  no_dot B -> no_dot (drop_trailing_zeros B).
Proof.
  unfold no_dot. induction B as [|c r IH]; [done|].
  cbn [drop_trailing_zeros].
  destruct (JS.forall_chars (fun c0 => Ascii.eqb c0 "0") (String c r)); [done|].
  cbn [JS.forall_chars]. rewrite !andb_true_iff. intros [Hc Hr]. auto.
Qed.

Lemma dotAtEnd_no_dot (t : string) : no_dot t -> JS.dotAtEnd t = t.
Proof.
  unfold no_dot. induction t as [|c t IH]; [done|].
  cbn [JS.forall_chars JS.dotAtEnd]. rewrite andb_true_iff.
  intros [Hc Ht]. destruct (Ascii.eqb c "."); [done|].
  cbn [andb]. by rewrite IH.
Qed.

Lemma dotAtEnd_prefix (pre t : string) :
  no_dot pre -> JS.dotAtEnd (pre +:+ t) = pre +:+ JS.dotAtEnd t.
Proof.
  unfold no_dot. induction pre as [|c pre IH]; [done|].
  cbn [JS.forall_chars]. rewrite andb_true_iff. intros [Hc Hpre].
  change (String c pre +:+ t) with (String c (pre +:+ t)).
  cbn [JS.dotAtEnd]. destruct (Ascii.eqb c "."); [done|].
  cbn [andb]. rewrite IH by done. reflexivity.
Qed.

Lemma dotAtEnd_at_dot (B : string) :
  no_dot B -> JS.dotAtEnd (String "." B) = String "." (at_least_one_digit B).
Proof.
  intros HB. cbn [JS.dotAtEnd]. rewrite Ascii.eqb_refl. cbn [andb].
  unfold at_least_one_digit. destruct (String.eqb B ""); [done|].
  by rewrite dotAtEnd_no_dot.
Qed.

(** The two replacements of [f] on a number printed by [toFixed]. *)
Lemma strip_fraction (pre B : string) :
  no_dot pre -> all_digits B ->
  JS.dotAtEnd (JS.stripTrailingZeros (pre +:+ "." +:+ B)) =
  pre +:+ "." +:+ at_least_one_digit (drop_trailing_zeros B).
Proof.
  intros Hpre HB. change ("." +:+ B) with (String "." B).
  rewrite strip_prefix, strip_at_dot by done.
  rewrite dotAtEnd_prefix by done.
  rewrite dotAtEnd_at_dot; [done|].
  by apply drop_trailing_zeros_no_dot, all_digits_no_dot.
Qed.

Lemma all_digits_fixed_digits (k : nat) (r : Z) : all_digits (fixed_digits k r).
Proof.
  revert r. induction k as [|k IH]; intros r; [done|].
  cbn [fixed_digits]. apply all_digits_append; [apply IH|].
  unfold all_digits. cbn [JS.forall_chars].
  rewrite is_digit_digit_char; [done|]. apply Z.mod_pos_bound. lia.
Qed.

Lemma all_digits_decimal (n : Z) : 0 <= n -> all_digits (JS.decimal n).
Proof.
  intros Hn. generalize Hn. pattern n. apply Z_lt_induction; [|exact Hn].
  clear n Hn. intros n IH Hn.
  destruct (decide (n < 10)) as [Hsmall|Hbig].
  - rewrite decimal_digit by lia. unfold all_digits. cbn [JS.forall_chars].
    by rewrite is_digit_digit_char by lia.
  - replace n with (10 * (n / 10) + n mod 10) by (Z.div_mod_to_equations; lia).
    assert (0 < n / 10 < n) by (Z.div_mod_to_equations; lia).
    assert (0 <= n mod 10 < 10) by (Z.div_mod_to_equations; lia).
    rewrite decimal_snoc by lia.
    apply all_digits_append; [apply IH; lia|].
    unfold all_digits. cbn [JS.forall_chars].
    by rewrite is_digit_digit_char by lia.
Qed.

Lemma no_dot_sign_of (neg : bool) (mant : N) : no_dot (sign_of neg mant).
Proof. unfold sign_of. by destruct (neg && negb (N.eqb mant 0)). Qed.
End TrailingZeros.

Section ToFixed.
Lemma denom_positive (expo : Z) : 0 < JS.denom expo.
Proof. unfold JS.denom. apply Z.pow_pos_nonneg; lia. Qed.

Lemma numer_nonneg (mant : N) (expo : Z) : 0 <= JS.numer mant expo.
Proof.
  unfold JS.numer. apply Z.mul_nonneg_nonneg; [lia|].
  apply Z.pow_nonneg. lia.
Qed.

Lemma round_half_up_nonneg (num den : Z) :
  0 <= num -> 0 < den -> 0 <= round_half_up num den.
Proof. intros Hn Hd. unfold round_half_up. apply Z.div_pos; lia. Qed.

(** [toFixed] below 10^21: sign, integer digits, point, [fd] digits. *)
Lemma toFixed_finite (neg : bool) (mant : N) (expo : Z) (fd : nat) :
  (1 <= fd)%nat ->
  JS.numer mant expo < 10 ^ 21 * JS.denom expo ->
  let n := round_half_up (JS.numer mant expo * 10 ^ Z.of_nat fd) (JS.denom expo) in
  JS.toFixed (JS.Finite neg mant expo) fd =
  sign_of neg mant +:+ JS.decimal (n / 10 ^ Z.of_nat fd) +:+ "." +:+
  fixed_digits fd (n mod 10 ^ Z.of_nat fd).
Proof.
  intros Hfd Hlt n. unfold JS.toFixed. cbv zeta.
  rewrite decide_False by lia.
  destruct fd as [|fd']; [lia|]. set (fd := S fd') in *.
  fold (sign_of neg mant).
  replace ((2 * JS.numer mant expo * 10 ^ Z.of_nat fd + JS.denom expo) /
           (2 * JS.denom expo)) with n
    by (unfold n, round_half_up; f_equal; lia).
  assert (Hn : 0 <= n).
  { apply round_half_up_nonneg; [|apply denom_positive].
    apply Z.mul_nonneg_nonneg; [apply numer_nonneg|]. apply Z.pow_nonneg. lia. }
  pose proof (toFixed_digits fd n Hfd Hn) as Hm. cbv zeta in Hm.
  rewrite Hm.
  set (A := JS.decimal (n / 10 ^ Z.of_nat fd)).
  set (B := fixed_digits fd (n mod 10 ^ Z.of_nat fd)).
  assert (HB : String.length B = fd) by apply length_fixed_digits.
  rewrite length_append, HB.
  replace (String.length A + fd - fd)%nat with (String.length A) by lia.
  rewrite substring_0_append.
  rewrite <- HB at 1. by rewrite substring_skip_append.
Qed.
End ToFixed.

(** C5 as the specification states it fails: 10^21 is an integral finite
    float, and [f] prints it in exponent notation, without a fractional
    digit; 2^70 is printed with sixteen fractional digits and an exponent. *)
Lemma f_exponent_notation :
  JS.isInteger ten_to_21 = true /\
  YdrXml.f ten_to_21 = "1e+21" /\
  YdrXml.f ten_to_21 <> "1000000000000000000000.0" /\
  JS.isInteger two_to_70 = true /\
  YdrXml.f two_to_70 = "1.1805916207174113e+21".
Proof. repeat split; by vm_compute. Qed.

(** C5, amended: for every finite float of magnitude below 10^21, [f] prints
    the sign, the integer digits, a point and: for an integral value the
    single digit 0; for another value the seven digits of the value rounded
    to seven places, without their trailing zeros but never fewer than one
    digit. 1.0 prints as 1.0 and 0.33333333 as 0.3333333. *)
Theorem f_format :
  (forall (neg : bool) (mant : N) (expo : Z),
     let num := JS.numer mant expo in
     let den := JS.denom expo in
     num < 10 ^ 21 * den ->
     (num mod den = 0 ->
        YdrXml.f (JS.Finite neg mant expo) =
        sign_of neg mant +:+ JS.decimal (num / den) +:+ ".0") /\
     (num mod den <> 0 ->
        let n := round_half_up (num * 10 ^ 7) den in
        YdrXml.f (JS.Finite neg mant expo) =
        sign_of neg mant +:+ JS.decimal (n / 10 ^ 7) +:+ "." +:+
        fraction 7 (n mod 10 ^ 7))) /\
  YdrXml.f one_point_zero = "1.0" /\
  YdrXml.f third_8_digits = "0.3333333".
Proof.
  split; [|split; by vm_compute].
  intros neg mant expo num den Hlt.
  pose proof (denom_positive expo) as Hden. fold den in Hden.
  pose proof (numer_nonneg mant expo) as Hnum. fold num in Hnum.
  unfold YdrXml.f, JS.isInteger. fold num den. split.
  - intros Hint. rewrite bool_decide_eq_true_2 by done.
    rewrite (toFixed_finite neg mant expo 1) by (done || lia).
    fold num den. cbv zeta.
    assert (E : round_half_up (num * 10 ^ Z.of_nat 1) den = 10 * (num / den)).
    { unfold round_half_up. change (10 ^ Z.of_nat 1) with 10.
      assert (Hnum' : num = den * (num / den)).
      { rewrite (Z.div_mod num den) at 1 by lia. lia. }
      rewrite Hnum' at 1.
      replace (2 * (den * (num / den) * 10) + den)
        with (1 * den + (10 * (num / den)) * (2 * den)) by lia.
      rewrite Z.div_add by lia. rewrite (Z.div_small (1 * den)) by lia. lia. }
    rewrite E. change (10 ^ Z.of_nat 1) with 10.
    rewrite Z.mul_comm, Z.div_mul, Z.mod_mul by lia. reflexivity.
  - intros Hnint. set (n := round_half_up (num * 10 ^ 7) den).
    rewrite bool_decide_eq_false_2 by done.
    rewrite (toFixed_finite neg mant expo 7) by (done || lia).
    fold num den. change (Z.of_nat 7) with 7. fold n. cbv zeta.
    rewrite <- append_assoc.
    rewrite strip_fraction.
    + by rewrite append_assoc.
    + apply no_dot_append; [apply no_dot_sign_of|].
      apply all_digits_no_dot, all_digits_decimal.
      apply Z.div_pos; [|lia]. apply round_half_up_nonneg; [|done]. lia.
    + apply all_digits_fixed_digits.
Qed.

Lemma f_format_witness :
  YdrXml.f (JS.Finite true 5 (-1)) = "-2.5" /\
  YdrXml.f (JS.Finite false 12 0) = "12.0".
Proof.
  split.
  - apply (proj2 (proj1 f_format true 5%N (-1) ltac:(vm_compute; reflexivity))).
    by vm_compute.
  - apply (proj1 (proj1 f_format false 12%N 0 ltac:(vm_compute; reflexivity))).
    by vm_compute.
Defined.

(** ** Mesh extractor: the vertex remap *)

Section Remap.
Context {K : Type} `{EqDecision K}.

Lemma length_numbered_from (b : Z) (order : list K) :
  length (numbered_from b order) = length order.
Proof. revert b. induction order as [|o r IH]; intros b; simpl; [done|by rewrite IH]. Qed.

Lemma numbered_from_snoc (b : Z) (order : list K) (o : K) :
  numbered_from b (order ++ [o]) =
  numbered_from b order ++ [(o, b + Z.of_nat (length order))].
Proof.
  revert b. induction order as [|x r IH]; intros b.
  - simpl. by rewrite Z.add_0_r.
  - cbn [numbered_from app length]. rewrite IH.
    by replace (b + Z.of_nat (S (length r))) with (b + 1 + Z.of_nat (length r)) by lia.
Qed.

Lemma get_numbered_from_None (b : Z) (order : list K) (o : K) :
  o ∉ order -> JSMap.get (numbered_from b order) o = None.
Proof.
  revert b. induction order as [|x r IH]; intros b Hno; [done|].
  cbn [numbered_from JSMap.get].
  rewrite not_elem_of_cons in Hno. destruct Hno as [Hne Hno].
  rewrite decide_False by done. by apply IH.
Qed.

Lemma get_numbered_from (b : Z) (order : list K) (o : K) (k : nat) :
  NoDup order -> order !! k = Some o ->
  JSMap.get (numbered_from b order) o = Some (b + Z.of_nat k).
Proof.
  revert b k. induction order as [|x r IH]; intros b k Hnd Hk; [done|].
  cbn [numbered_from JSMap.get]. apply NoDup_cons in Hnd as [Hx Hnd].
  destruct k as [|k].
  - injection Hk as ->. rewrite decide_True by done. f_equal. lia.
  - simpl in Hk. rewrite decide_False.
    + rewrite (IH (b + 1) k) by done. f_equal. lia.
    + intros ->. apply Hx. by eapply list_elem_of_lookup_2.
Qed.

Lemma set_numbered_from_absent (b : Z) (order : list K) (o : K) (v : Z) :
  o ∉ order ->
  JSMap.set (numbered_from b order) o v = numbered_from b order ++ [(o, v)].
Proof.
  revert b. induction order as [|x r IH]; intros b Hno; [done|].
  cbn [numbered_from JSMap.set app].
  rewrite not_elem_of_cons in Hno. destruct Hno as [Hne Hno].
  rewrite decide_False by done. by rewrite IH.
Qed.

Lemma has_numbered_from (b : Z) (order : list K) (o : K) :
  NoDup order ->
  JSMap.has (numbered_from b order) o = bool_decide (o ∈ order).
Proof.
  intros Hnd. unfold JSMap.has. destruct (decide (o ∈ order)) as [Hin|Hno].
  - rewrite bool_decide_eq_true_2 by done.
    apply list_elem_of_lookup_1 in Hin as [k Hk].
    by rewrite (get_numbered_from b order o k).
  - rewrite bool_decide_eq_false_2 by done.
    by rewrite get_numbered_from_None.
Qed.

Lemma foldl_prefix_invariant {A B} (P : list B -> A -> Prop) (step : A -> B -> A)
    (init : A) (l : list B) :
  P [] init ->
  (forall l x st, P l st -> P (l ++ [x]) (step st x)) ->
  P l (foldl step init l).
Proof.
  intros Hinit Hstep. induction l as [|x l IH] using rev_ind; [done|].
  rewrite foldl_app. simpl. by apply Hstep.
Qed.
End Remap.

Section Collect.
Lemma collect_as_fold (srcIndices : list Z) (startIndex count : Z) :
  ModelParser.collect srcIndices startIndex count =
  foldl ModelParser.remapStep ([], []) (partition_indices srcIndices startIndex count).
Proof.
  unfold ModelParser.collect, partition_indices.
  change (map (TypedArray.get srcIndices) (seqZ startIndex count))
    with (TypedArray.get srcIndices <$> seqZ startIndex count).
  by rewrite foldl_fmap.
Qed.
End Collect.

Section CollectInvariant.
Lemma remapStep_collected (l : list (option Z)) (o : option Z)
    (st : list (option Z * Z) * list Z) :
  (exists order, st.1 = numbered_from 0 order /\ collected l order st.2) ->
  exists order, (ModelParser.remapStep st o).1 = numbered_from 0 order /\
                collected (l ++ [o]) order (ModelParser.remapStep st o).2.
Proof.
  destruct st as [remap used]. cbn [fst snd].
  intros (order & -> & Hnd & Hmem & Hlen & Hlook & Hfirst & Hcover & Hrange).
  unfold ModelParser.remapStep. rewrite has_numbered_from by done.
  destruct (decide (o ∈ order)) as [Hin|Hno].
  - rewrite bool_decide_eq_true_2 by done. cbn [fst snd].
    exists order. split; [done|].
    destruct (list_elem_of_lookup_1 _ _ Hin) as [k Hk].
    rewrite (get_numbered_from 0 order o k) by done. cbn [default].
    rewrite Z.add_0_l.
    assert (Hklt : (k < length order)%nat) by by eapply lookup_lt_Some.
    repeat split.
    + done.
    + intros Ho. rewrite elem_of_app. left. by apply Hmem.
    + rewrite elem_of_app, list_elem_of_singleton.
      intros [Ho| ->]; [by apply Hmem|done].
    + rewrite !length_app. simpl. lia.
    + intros j o' Hj. destruct (decide (j < length l)%nat) as [Hjl|Hjl].
      * rewrite lookup_app_l in Hj by done.
        destruct (Hlook j o' Hj) as (k' & Hu & Ho'). exists k'.
        rewrite lookup_app_l by lia. done.
      * assert (j = length l) as ->.
        { apply lookup_lt_Some in Hj. rewrite length_app in Hj. simpl in Hj. lia. }
        rewrite list_lookup_middle in Hj by done. injection Hj as <-.
        exists k. by rewrite list_lookup_middle by done.
    + intros j k0 Hj k' Hk'. destruct (decide (j < length used)%nat) as [Hjl|Hjl].
      * rewrite lookup_app_l in Hj by done.
        destruct (Hfirst j k0 Hj k' Hk') as (j' & Hj' & Hu).
        exists j'. split; [done|]. by rewrite lookup_app_l by lia.
      * assert (j = length used) as ->.
        { apply lookup_lt_Some in Hj. rewrite length_app in Hj. simpl in Hj. lia. }
        rewrite list_lookup_middle in Hj by done. injection Hj as Hj.
        apply Nat2Z.inj in Hj. subst k0.
        destruct (Hcover k') as [j' Hj']; [lia|].
        exists j'. split; [by eapply lookup_lt_Some|].
        rewrite lookup_app_l; [done|by eapply lookup_lt_Some].
    + intros k0 Hk0. destruct (Hcover k0 Hk0) as [j Hj].
      exists j. rewrite lookup_app_l; [done|by eapply lookup_lt_Some].
    + destruct (decide (j < length used)%nat) as [Hjl|Hjl].
      * rewrite lookup_app_l in H by done. by apply (Hrange j).
      * assert (j = length used) as ->.
        { apply lookup_lt_Some in H. rewrite length_app in H. simpl in H. lia. }
        rewrite list_lookup_middle in H by done. injection H as <-. lia.
    + destruct (decide (j < length used)%nat) as [Hjl|Hjl].
      * rewrite lookup_app_l in H by done. by apply (Hrange j).
      * assert (j = length used) as ->.
        { apply lookup_lt_Some in H. rewrite length_app in H. simpl in H. lia. }
        rewrite list_lookup_middle in H by done. injection H as <-. lia.
  - rewrite bool_decide_eq_false_2 by done. cbn [fst snd].
    exists (order ++ [o]).
    rewrite set_numbered_from_absent by done.
    unfold JSMap.size. rewrite length_numbered_from.
    rewrite numbered_from_snoc, Z.add_0_l. split; [done|].
    rewrite <- (Z.add_0_l (Z.of_nat (length order))), <- numbered_from_snoc.
    rewrite (get_numbered_from 0 (order ++ [o]) o (length order)).
    2:{ apply NoDup_app. split; [done|]. split; [|apply NoDup_singleton].
        intros x Hx. rewrite list_elem_of_singleton. by intros ->. }
    2:{ by rewrite list_lookup_middle. }
    cbn [default]. rewrite Z.add_0_l.
    repeat split.
    + apply NoDup_app. split; [done|]. split; [|apply NoDup_singleton].
      intros x Hx. rewrite list_elem_of_singleton. by intros ->.
    + rewrite !elem_of_app. intros [Ho|Ho]; [left; by apply Hmem|by right].
    + rewrite !elem_of_app. intros [Ho|Ho]; [left; by apply Hmem|by right].
    + rewrite !length_app. simpl. lia.
    + intros j o' Hj. destruct (decide (j < length l)%nat) as [Hjl|Hjl].
      * rewrite lookup_app_l in Hj by done.
        destruct (Hlook j o' Hj) as (k' & Hu & Ho'). exists k'.
        rewrite lookup_app_l by lia. split; [done|].
        rewrite lookup_app_l; [done|by eapply lookup_lt_Some].
      * assert (j = length l) as ->.
        { apply lookup_lt_Some in Hj. rewrite length_app in Hj. simpl in Hj. lia. }
        rewrite list_lookup_middle in Hj by done. injection Hj as <-.
        exists (length order). split; by rewrite list_lookup_middle by done.
    + intros j k0 Hj k' Hk'. destruct (decide (j < length used)%nat) as [Hjl|Hjl].
      * rewrite lookup_app_l in Hj by done.
        destruct (Hfirst j k0 Hj k' Hk') as (j' & Hj' & Hu).
        exists j'. split; [done|]. by rewrite lookup_app_l by lia.
      * assert (j = length used) as ->.
        { apply lookup_lt_Some in Hj. rewrite length_app in Hj. simpl in Hj. lia. }
        rewrite list_lookup_middle in Hj by done. injection Hj as Hj.
        apply Nat2Z.inj in Hj. subst k0.
        destruct (Hcover k') as [j' Hj']; [lia|].
        exists j'. split; [by eapply lookup_lt_Some|].
        rewrite lookup_app_l; [done|by eapply lookup_lt_Some].
    + intros k0 Hk0. rewrite length_app in Hk0. simpl in Hk0.
      destruct (decide (k0 < length order)%nat) as [Hlt|Hge].
      * destruct (Hcover k0 Hlt) as [j Hj].
        exists j. rewrite lookup_app_l; [done|by eapply lookup_lt_Some].
      * assert (k0 = length order) as -> by lia.
        exists (length used). by rewrite list_lookup_middle.
    + destruct (decide (j < length used)%nat) as [Hjl|Hjl].
      * rewrite lookup_app_l in H by done. by apply (Hrange j).
      * assert (j = length used) as ->.
        { apply lookup_lt_Some in H. rewrite length_app in H. simpl in H. lia. }
        rewrite list_lookup_middle in H by done. injection H as <-. lia.
    + rewrite length_app. simpl.
      destruct (decide (j < length used)%nat) as [Hjl|Hjl].
      * rewrite lookup_app_l in H by done. pose proof (Hrange j v H). lia.
      * assert (j = length used) as ->.
        { apply lookup_lt_Some in H. rewrite length_app in H. simpl in H. lia. }
        rewrite list_lookup_middle in H by done. injection H as <-. lia.
Qed.

Lemma collect_collected (l : list (option Z)) :
  exists order,
    (foldl ModelParser.remapStep ([], []) l).1 = numbered_from 0 order /\
    collected l order (foldl ModelParser.remapStep ([], []) l).2.
Proof.
  apply (foldl_prefix_invariant
           (fun l st => exists order, st.1 = numbered_from 0 order /\
                                      collected l order st.2)).
  - exists []. split; [done|]. repeat split; try done.
    + apply NoDup_nil_2.
    + intros k Hk. simpl in Hk. lia.
  - intros l' x st. apply remapStep_collected.
Qed.
End CollectInvariant.

Section Positions.
Context {F : Type} (zero one : F) (fround : F -> F).

Lemma foldl_proj {S T E} (proj : S -> T) (f : S -> E -> S) (g : T -> E -> T) :
  (forall s e, proj (f s e) = g (proj s) e) ->
  forall l s, proj (foldl f s l) = foldl g (proj s) l.
Proof.
  intros Hfg l. induction l as [|e l IH]; intros s; [done|].
  simpl. by rewrite IH, Hfg.
Qed.

Lemma position_writes_at (srcPositions : ModelParser.BufferAttribute F)
    (A C : list F) (x y z : F) (o : option Z) (base : nat) :
  length A = (3 * base)%nat ->
  position_writes fround srcPositions (A ++ x :: y :: z :: C) (o, Z.of_nat base) =
  A ++ vertex_position fround srcPositions o ++ C.
Proof.
  intros HA. unfold position_writes, ModelParser.fset, vertex_position.
  rewrite !decide_True by lia.
  replace (Z.to_nat (Z.of_nat base * 3)) with (length A + 0)%nat by lia.
  replace (Z.to_nat (Z.of_nat base * 3 + 1)) with (length A + 1)%nat by lia.
  replace (Z.to_nat (Z.of_nat base * 3 + 2)) with (length A + 2)%nat by lia.
  by rewrite !insert_app_r.
Qed.

Lemma position_writes_fold (srcPositions : ModelParser.BufferAttribute F)
    (order : list (option Z)) :
  forall (base : nat) (A zs C : list F),
    length A = (3 * base)%nat -> length zs = (3 * length order)%nat ->
    foldl (position_writes fround srcPositions) (A ++ zs ++ C)
          (numbered_from (Z.of_nat base) order) =
    A ++ flat_map (vertex_position fround srcPositions) order ++ C.
Proof.
  induction order as [|o r IH]; intros base A zs C HA Hzs.
  - destruct zs; [done|simpl in Hzs; lia].
  - destruct zs as [|x [|y [|z zs]]]; try (simpl in Hzs; lia).
    cbn [numbered_from foldl flat_map].
    change ((x :: y :: z :: zs) ++ C) with (x :: y :: z :: (zs ++ C)).
    rewrite position_writes_at by done.
    replace (Z.of_nat base + 1) with (Z.of_nat (S base)) by lia.
    rewrite (app_assoc A).
    rewrite IH.
    + by rewrite <- !app_assoc.
    + rewrite length_app, HA. simpl. lia.
    + simpl in Hzs. lia.
Qed.

Lemma positions_of_remap (srcPositions : ModelParser.BufferAttribute F)
    (order : list (option Z)) :
  foldl (position_writes fround srcPositions)
        (ModelParser.falloc F zero (JSMap.size (numbered_from 0 order) * 3))
        (numbered_from 0 order) =
  flat_map (vertex_position fround srcPositions) order.
Proof.
  pose proof (position_writes_fold srcPositions order 0 []
                (ModelParser.falloc F zero (JSMap.size (numbered_from 0 order) * 3)) [])
    as H.
  rewrite !app_nil_r in H. simpl in H. apply H; [done|].
  unfold ModelParser.falloc, JSMap.size.
  rewrite length_replicate, length_numbered_from. lia.
Qed.
End Positions.

(** C1: for the mesh that [extractSubMesh] makes of a partition, the list
    [order] of the original indices of the output vertices has no
    duplicates and holds exactly the indices the partition's triangles
    read, each triangle index is remapped to the place of its original index
    in [order], the local indices are handed out in sequence at first
    appearance (before an index [k] is used, every smaller one has been),
    the vertex buffer holds the vertices of [order] in order (so the vertex
    count is the number of distinct original indices), every local index is
    below the vertex count and every output vertex is referenced. *)
Theorem extractSubMesh_dedup {F : Type} (zero one : F) (fround : F -> F)
    (geo : ModelParser.BufferGeometry F) (srcIndices : list Z)
    (startIndex count materialIndex : Z) (materialName : string)
    (mesh : Store.ParsedMesh F) :
  ModelParser.index F geo = Some srcIndices ->
  ModelParser.extractSubMesh F zero one fround geo startIndex count
    materialIndex materialName = Some mesh ->
  let slice := partition_indices srcIndices startIndex count in
  exists order : list (option Z),
    NoDup order /\
    (forall o, o ∈ order <-> o ∈ slice) /\
    length (Store.indices mesh) = length slice /\
    (forall (j : nat) o, slice !! j = Some o ->
       exists k : nat, Store.indices mesh !! j = Some (Z.of_nat k) /\
                       order !! k = Some o) /\
    (forall (j k : nat), Store.indices mesh !! j = Some (Z.of_nat k) ->
       forall k' : nat, (k' < k)%nat ->
       exists j' : nat, (j' < j)%nat /\ Store.indices mesh !! j' = Some (Z.of_nat k')) /\
    Store.positions mesh =
      flat_map (vertex_position fround (ModelParser.position F geo)) order /\
    length (Store.positions mesh) = (3 * length order)%nat /\
    (forall (j : nat) v, Store.indices mesh !! j = Some v ->
       0 <= v < Z.of_nat (length order)) /\
    (forall k : nat, (k < length order)%nat ->
       exists j : nat, Store.indices mesh !! j = Some (Z.of_nat k)).
Proof.
  intros Hindex Hmesh slice.
  unfold ModelParser.extractSubMesh in Hmesh. rewrite Hindex in Hmesh.
  rewrite collect_as_fold in Hmesh. fold slice in Hmesh.
  destruct (collect_collected slice) as (order & Hremap & Hc).
  destruct (foldl ModelParser.remapStep ([], []) slice) as [remap used].
  cbn [fst snd] in Hremap, Hc. subst remap.
  destruct (decide (JSMap.size (numbered_from 0 order) = 0)); [done|].
  match type of Hmesh with
  | context [foldl ?f (?a, ?b, ?c) ?m] =>
      pose proof (foldl_proj (fun s : list F * list F * list F => s.1.1) f
                    (position_writes fround (ModelParser.position F geo))) as Hproj;
      destruct (foldl f (a, b, c) m) as [[positions normals] uvs] eqn:Hfold
  end.
  injection Hmesh as <-. cbn [Store.indices Store.positions].
  assert (Hpos : positions =
                 flat_map (vertex_position fround (ModelParser.position F geo)) order).
  { rewrite <- (positions_of_remap zero fround).
    change positions with ((positions, normals, uvs).1.1).
    rewrite <- Hfold. apply Hproj. by intros [[a b] c] [o k]. }
  destruct Hc as (Hnd & Hmem & Hlen & Hlook & Hfirst & Hcover & Hrange).
  exists order. repeat split; try done.
  - by apply Hmem.
  - by apply Hmem.
  - rewrite Hpos. clear. induction order as [|o r IH]; [done|].
    cbn [flat_map]. rewrite length_app, IH. simpl. lia.
  - by apply (Hrange j).
  - by apply (Hrange j).
Qed.

Lemma extractSubMesh_dedup_witness :
  ModelParser.index Z example_geometry = Some [5; 7; 5; 9; 7; 5] /\
  ModelParser.extractSubMesh Z 0 1 id example_geometry 0 6 0 "m" = Some example_mesh /\
  exists order : list (option Z),
    NoDup order /\
    Store.positions example_mesh = flat_map (vertex_position id example_positions) order /\
    length (Store.positions example_mesh) = (3 * length order)%nat.
Proof.
  split; [reflexivity|]. split; [vm_compute; reflexivity|].
  destruct (extractSubMesh_dedup 0 1 id example_geometry [5; 7; 5; 9; 7; 5] 0 6 0 "m"
              example_mesh eq_refl ltac:(vm_compute; reflexivity))
    as (order & Hnd & _ & _ & _ & _ & Hpos & Hlen & _).
  exists order. split; [exact Hnd|]. split; [exact Hpos|exact Hlen].
Defined.

(** ** Mesh extractor: material names *)

Section DecimalInjective.
Lemma string_snoc_inj (a b : string) (c c' : ascii) :
  a +:+ String c "" = b +:+ String c' "" -> a = b /\ c = c'.
Proof.
  revert b. induction a as [|x a IH]; intros [|y b] H.
  - by injection H as ->.
  - injection H as _ H. by destruct b.
  - injection H as _ H. by destruct a.
  - injection H as -> H. destruct (IH _ H) as [-> ->]. done.
Qed.

Lemma digit_char_inj (d d' : Z) :
  0 <= d < 10 -> 0 <= d' < 10 -> JS.digit_char d = JS.digit_char d' -> d = d'.
Proof.
  intros Hd Hd' H. unfold JS.digit_char in H.
  apply (f_equal nat_of_ascii) in H.
  rewrite !nat_ascii_embedding in H by lia. lia.
Qed.

Lemma decimal_inj (n m : Z) :
  0 <= n -> 0 <= m -> JS.decimal n = JS.decimal m -> n = m.
Proof.
  intros Hn. revert m. generalize Hn. pattern n.
  apply Z_lt_induction; [|exact Hn].
  clear n Hn. intros n IH Hn m Hm Heq.
  assert (Hdn : 0 <= n mod 10 < 10) by (Z.div_mod_to_equations; lia).
  assert (Hdm : 0 <= m mod 10 < 10) by (Z.div_mod_to_equations; lia).
  destruct (decide (n < 10)) as [Hns|Hnb]; destruct (decide (m < 10)) as [Hms|Hmb].
  - rewrite !decimal_digit in Heq by lia. injection Heq as Heq.
    by apply digit_char_inj.
  - exfalso. rewrite decimal_digit in Heq by lia.
    replace m with (10 * (m / 10) + m mod 10) in Heq by (Z.div_mod_to_equations; lia).
    rewrite decimal_snoc in Heq by (Z.div_mod_to_equations; lia).
    apply (f_equal String.length) in Heq. rewrite length_append in Heq.
    pose proof (decimal_nonempty (m / 10)). simpl in Heq. lia.
  - exfalso. rewrite (decimal_digit m) in Heq by lia.
    replace n with (10 * (n / 10) + n mod 10) in Heq by (Z.div_mod_to_equations; lia).
    rewrite decimal_snoc in Heq by (Z.div_mod_to_equations; lia).
    apply (f_equal String.length) in Heq. rewrite length_append in Heq.
    pose proof (decimal_nonempty (n / 10)). simpl in Heq. lia.
  - assert (En : n = 10 * (n / 10) + n mod 10) by (Z.div_mod_to_equations; lia).
    assert (Em : m = 10 * (m / 10) + m mod 10) by (Z.div_mod_to_equations; lia).
    rewrite En, Em in Heq.
    rewrite !decimal_snoc in Heq by (Z.div_mod_to_equations; lia).
    apply string_snoc_inj in Heq as [Hq Hd].
    apply digit_char_inj in Hd; [|done|done].
    apply IH in Hq; [lia| | |]; Z.div_mod_to_equations; lia.
Qed.

Lemma append_inj_l (a b c : string) : a +:+ b = a +:+ c -> b = c.
Proof. induction a as [|x a IH]; [done|]. intros [= H]. by apply IH. Qed.

Lemma synthetic_name_inj (j k : nat) : synthetic_name j = synthetic_name k -> j = k.
Proof.
  unfold synthetic_name. intros H. apply append_inj_l in H.
  apply decimal_inj in H; lia.
Qed.

Lemma synthetic_name_not_default (k : nat) : synthetic_name k <> "default".
Proof. unfold synthetic_name. done. Qed.
End DecimalInjective.

Section MaterialNames.
Context {F : Type} (zero one : F) (fround : F -> F).
Context (computeVertexNormals :
           ModelParser.BufferGeometry F -> ModelParser.BufferAttribute F).

#[local] Abbreviation State := (ModelParser.State F).
#[local] Abbreviation visit := (ModelParser.visit F zero one fround computeVertexNormals).

Lemma foldl_visit_flat (nodes : list (ModelParser.Object3D F)) (st : State) :
  foldl visit st nodes =
  foldl (visit_one zero one fround) st (flat_map (node_visits computeVertexNormals) nodes).
Proof.
  revert st. induction nodes as [|o r IH]; intros st; [done|].
  cbn [foldl flat_map]. rewrite foldl_app, IH. f_equal.
  unfold ModelParser.visit, node_visits.
  destruct (ModelParser.node_mesh F o) as [child|]; [|done].
  cbv zeta.
  change (map ?f ?l) with (f <$> l). by rewrite foldl_fmap.
Qed.

Lemma visit_one_names (st : State) v :
  names_ok st ->
  let matName := ModelParser.materialNameOf (pick v) (ModelParser.names F st) in
  names_ok (visit_one zero one fround st v) /\
  ModelParser.names F (visit_one zero one fround st v) =
    if decide (matName ∈ ModelParser.names F st) then ModelParser.names F st
    else ModelParser.names F st ++ [matName].
Proof.
  intros [Hmap Hnd] matName. unfold visit_one, ModelParser.visitGroup. cbv zeta.
  fold (pick v). fold matName. rewrite Hmap.
  rewrite has_numbered_from by done.
  destruct (decide (matName ∈ ModelParser.names F st)) as [Hin|Hno].
  - rewrite bool_decide_eq_true_2 by done.
    unfold names_ok. cbn [ModelParser.materialMap ModelParser.names].
    split; [by split|done].
  - rewrite bool_decide_eq_false_2 by done.
    rewrite set_numbered_from_absent by done.
    unfold names_ok. cbn [ModelParser.materialMap ModelParser.names].
    split; [|done]. split.
    + by rewrite numbered_from_snoc, Z.add_0_l.
    + apply NoDup_app. split; [done|]. split; [|apply NoDup_singleton].
      intros x Hx. rewrite list_elem_of_singleton. by intros ->.
Qed.

Lemma materialNameOf_cases (mat : option ModelParser.Material) (names : list string) :
  (exists m, mat = Some m /\ ModelParser.mat_name m <> "" /\
             ModelParser.materialNameOf mat names = ModelParser.mat_name m) \/
  (unnamed mat /\
   ModelParser.materialNameOf mat names = synthetic_name (length names)).
Proof.
  unfold ModelParser.materialNameOf, unnamed, synthetic_name.
  destruct mat as [m|]; [|by right].
  destruct (String.eqb_spec (ModelParser.mat_name m) "") as [He|Hne].
  - by right.
  - left. by exists m.
Qed.

Lemma visit_one_registered vs v (st : State) :
  registered vs st -> registered (vs ++ [v]) (visit_one zero one fround st v).
Proof.
  intros (Hok & Hne & Hfrom & Hsyn).
  destruct (visit_one_names st v Hok) as [Hok' Hnames]. cbv zeta in Hnames.
  split; [done|]. rewrite Hnames. clear Hnames Hok'.
  set (matName := ModelParser.materialNameOf (pick v) (ModelParser.names F st)).
  split; [|split].
  - intros _. destruct (decide _) as [Hin|Hno].
    + intros E. rewrite E in Hin. by apply elem_of_nil in Hin.
    + by destruct (ModelParser.names F st).
  - intros name Hname.
    assert (Hcase : name ∈ ModelParser.names F st \/ name = matName).
    { destruct (decide _); [by left|].
      apply elem_of_app in Hname as [?|Hname]; [by left|].
      right. by apply list_elem_of_singleton in Hname. }
    rewrite map_app. destruct Hcase as [Hold| ->].
    + destruct (Hfrom name Hold) as [(m & Hm & Hmn)|Hk]; [left|by right].
      exists m. split; [|done]. apply elem_of_app. by left.
    + destruct (materialNameOf_cases (pick v) (ModelParser.names F st))
        as [(m & Hm & Hmne & Hmn)|[Hun Hmn]]; fold matName in Hmn.
      * left. exists m. rewrite Hmn. split; [|done].
        apply elem_of_app. right. rewrite <- Hm. apply list_elem_of_singleton. done.
      * right. by eexists.
  - rewrite map_app, Forall_app. intros [Hall Hv].
    cbn [map] in Hv. rewrite Forall_singleton in Hv.
    specialize (Hsyn Hall).
    destruct (materialNameOf_cases (pick v) (ModelParser.names F st))
      as [(m & Hm & Hmne & Hmn)|[Hun Hmn]]; fold matName in Hmn.
    { rewrite Hm in Hv. simpl in Hv. done. }
    rewrite Hmn, Hsyn, length_map, length_seq.
    rewrite decide_False.
    + rewrite length_app. simpl. rewrite Nat.add_1_r, seq_S, map_app. done.
    + rewrite list_elem_of_fmap. intros (j & Hj & Hin).
      apply synthetic_name_inj in Hj. subst j.
      apply elem_of_seq in Hin. lia.
Qed.

Lemma scene_registered (root : ModelParser.Object3D F) :
  registered (scene_visits computeVertexNormals root)
    (foldl visit (ModelParser.mkState F [] [] []) (ModelParser.traverse F root)).
Proof.
  rewrite foldl_visit_flat. fold (scene_visits computeVertexNormals root).
  apply (foldl_prefix_invariant registered).
  - split; [split; [done|apply NoDup_nil_2]|].
    split; [done|]. split; [|done].
    intros name Hname. by apply elem_of_nil in Hname.
  - intros l x st. apply visit_one_registered.
Qed.
End MaterialNames.

(** C9 as the specification states it fails: a model whose only mesh has no
    material is returned with the single name [Material_0], not [default];
    and for a scene without meshes, where the fallback name is pushed,
    extraction throws and no Model is returned. *)
Lemma default_name_not_returned :
  scene_materials (fun _ => example_positions) scene_without_materials = [None] /\
  (exists model,
     ModelParser.extractModelData Z 0 1 id (fun _ => example_positions)
       scene_without_materials "prop.obj" = Ok model /\
     Store.materialNames model = ["Material_0"]) /\
  ModelParser.extractModelData Z 0 1 id (fun _ => example_positions)
    scene_without_meshes "prop.obj" = Throw NoMeshGeometry.
Proof.
  split; [reflexivity|]. split; [|reflexivity].
  eexists. split; [vm_compute; reflexivity|reflexivity].
Qed.

(** C9, amended: in every Model that [extractModelData] returns, the scene
    has at least one material group and the list of material names is not
    empty; each name is the explicit name of the material of some group or a
    synthetic name [Material_k]; the name [default] is there only if a
    material of the scene is explicitly named so (the fallback of an empty
    list is never part of a returned Model); and when no group has a named
    material, the names are [Material_0], [Material_1], ..., one for each
    group in traversal order. *)
Theorem material_names_registered {F : Type} (zero one : F) (fround : F -> F)
    (computeVertexNormals : ModelParser.BufferGeometry F -> ModelParser.BufferAttribute F)
    (root : ModelParser.Object3D F) (filename : string) (model : Store.ParsedModel F) :
  ModelParser.extractModelData F zero one fround computeVertexNormals root filename
    = Ok model ->
  let mats := scene_materials computeVertexNormals root in
  mats <> [] /\
  Store.materialNames model <> [] /\
  (forall name, name ∈ Store.materialNames model ->
     (exists m, Some m ∈ mats /\ ModelParser.mat_name m = name /\ name <> "") \/
     (exists k, name = synthetic_name k)) /\
  ("default" ∈ Store.materialNames model ->
     exists m, Some m ∈ mats /\ ModelParser.mat_name m = "default") /\
  (Forall unnamed mats ->
     Store.materialNames model = map synthetic_name (seq 0 (length mats))).
Proof.
  intros Hok mats.
  pose proof (scene_registered zero one fround computeVertexNormals root)
    as (Hnames & Hne & Hfrom & Hsyn).
  unfold ModelParser.extractModelData in Hok. cbv zeta in Hok.
  assert (Hvs : scene_visits computeVertexNormals root <> []).
  { intros Hnil. rewrite foldl_visit_flat in Hok.
    fold (scene_visits computeVertexNormals root) in Hok. rewrite Hnil in Hok.
    done. }
  specialize (Hne Hvs).
  set (st := foldl _ _ _) in *.
  destruct (ModelParser.out F st) as [|mesh meshes]; [done|].
  destruct (ModelParser.names F st) as [|name0 names]; [done|].
  injection Hok as <-. cbn [Store.materialNames].
  assert (Hmats : mats = map pick (scene_visits computeVertexNormals root))
    by reflexivity.
  split; [|split; [done|split; [|split]]].
  - rewrite Hmats. intros Hnil. apply Hvs. by destruct (scene_visits _ root).
  - rewrite Hmats. exact Hfrom.
  - intros Hdef. destruct (Hfrom _ Hdef) as [(m & Hm & Hmn & _)|[k Hk]].
    + exists m. by rewrite Hmats.
    + symmetry in Hk. by apply synthetic_name_not_default in Hk.
  - rewrite Hmats, length_map. exact Hsyn.
Qed.

Lemma material_names_registered_witness :
  exists model,
    ModelParser.extractModelData Z 0 1 id (fun _ => example_positions)
      scene_without_materials "prop.obj" = Ok model /\
    Store.materialNames model = map synthetic_name (seq 0 1).
Proof.
  eexists. split; [vm_compute; reflexivity|].
  refine (proj2 (proj2 (proj2 (proj2
            (material_names_registered 0 1 id (fun _ => example_positions)
               scene_without_materials "prop.obj" _ _)))) _).
  - vm_compute. reflexivity.
  - vm_compute. repeat constructor.
Defined.

(** ** Export orchestrator *)

Section JSMapLemmas.
Context {K V : Type} `{EqDecision K}.

Lemma get_set_eq (m : list (K * V)) (k : K) (v : V) :
  JSMap.get (JSMap.set m k v) k = Some v.
Proof.
  induction m as [|[k' v'] m IH]; simpl.
  - by rewrite decide_True.
  - destruct (decide (k' = k)); simpl.
    + by rewrite decide_True.
    + by rewrite decide_False.
Qed.

Lemma get_set_ne (m : list (K * V)) (k k' : K) (v : V) :
  k <> k' -> JSMap.get (JSMap.set m k v) k' = JSMap.get m k'.
Proof.
  intros Hne. induction m as [|[k0 v0] m IH]; simpl.
  - by rewrite decide_False.
  - destruct (decide (k0 = k)) as [->|]; simpl.
    + by rewrite !decide_False.
    + destruct (decide (k0 = k')); [done|]. exact IH.
Qed.
End JSMapLemmas.

Section ForEach.
Context {A B : Type}.

Lemma for_each_app (body : A -> B -> result A) (a : A) (l k : list B) :
  Exporter.for_each body a (l ++ k) =
  bind (Exporter.for_each body a l) (fun a' => Exporter.for_each body a' k).
Proof.
  revert a. induction l as [|b l IH]; intros a; [done|].
  simpl. destruct (body a b) as [a'|e]; simpl; [apply IH|done].
Qed.

Lemma for_each_flat_map {C} (body : A -> B -> result A) (g : C -> list B)
    (a : A) (l : list C) :
  Exporter.for_each (fun st c => Exporter.for_each body st (g c)) a l =
  Exporter.for_each body a (flat_map g l).
Proof.
  revert a. induction l as [|c l IH]; intros a; [done|].
  cbn [Exporter.for_each flat_map]. rewrite for_each_app.
  destruct (Exporter.for_each body a (g c)) as [a'|e]; simpl; [apply IH|done].
Qed.

(** A loop whose body never throws runs to its end. *)
Lemma for_each_total (P : list B -> A -> Prop) (body : A -> B -> result A)
    (l : list B) :
  (forall pre x st, P pre st -> exists st', body st x = Ok st' /\ P (pre ++ [x]) st') ->
  forall pre st, P pre st ->
  exists st', Exporter.for_each body st l = Ok st' /\ P (pre ++ l) st'.
Proof.
  intros Hbody. induction l as [|x l IH]; intros pre st HP.
  - exists st. by rewrite app_nil_r.
  - destruct (Hbody pre x st HP) as (st1 & Hst1 & HP1).
    destruct (IH _ _ HP1) as (st' & Hst' & HP').
    exists st'. cbn [Exporter.for_each]. rewrite Hst1. simpl.
    split; [done|]. by rewrite <- app_assoc in HP'.
Qed.
End ForEach.

Section ConvertSlot.
Context (loadImage : DdsEncoder.File -> option (Z * Z)).
Context (getImageData : DdsEncoder.File -> Z -> Z -> list Z).
Context (percentOf : Z -> Z -> Z).

#[local] Abbreviation encode := (Exporter.encodeToDds loadImage getImageData).
#[local] Abbreviation fc := (first_converted loadImage getImageData).
#[local] Abbreviation slot := (string * Store.TextureSlotData)%type.

Lemma first_converted_snoc (seen : list slot) (s : slot) (t : string) :
  fc (seen ++ [s]) t =
  match fc seen t with
  | Some r => Some r
  | None => fc [s] t
  end.
Proof.
  induction seen as [|[sampler slotData] seen IH]; [reflexivity|].
  cbn [app first_converted].
  destruct (Store.file slotData) as [f|]; [|exact IH].
  destruct (String.eqb (texture_name f) t); [|exact IH].
  destruct (encode f); [done|exact IH].
Qed.

Lemma expected_entries_from_snoc (earlier l : list slot) (s : slot) :
  expected_entries_from loadImage getImageData earlier (l ++ [s]) =
  expected_entries_from loadImage getImageData earlier l ++
  entry_for loadImage getImageData (earlier ++ l) s.
Proof.
  revert earlier. induction l as [|x l IH]; intros earlier.
  - simpl. by rewrite !app_nil_r.
  - cbn [app expected_entries_from]. rewrite IH.
    by rewrite <- !app_assoc.
Qed.

Lemma convertSlot_converted (total : Z) (seen : list slot) (s : slot)
    (st : Exporter.State) :
  converted loadImage getImageData seen st ->
  exists st',
    Exporter.convertSlot loadImage getImageData percentOf total st s = Ok st' /\
    converted loadImage getImageData (seen ++ [s]) st'.
Proof.
  intros [Hentries Hmap]. destruct s as [sampler slotData].
  unfold Exporter.convertSlot, converted, expected_entries.
  rewrite expected_entries_from_snoc. unfold entry_for. cbn [fst snd app].
  destruct (Store.file slotData) as [f|] eqn:Hfile.
  2:{ exists st. split; [done|]. rewrite app_nil_r. split; [done|].
      intros t. specialize (Hmap t). rewrite first_converted_snoc.
      cbn [first_converted]. rewrite Hfile.
      destruct (JSMap.get _ t); [|by rewrite Hmap].
      destruct Hmap as (r & -> & ?). by exists r. }
  fold (texture_name f). set (texName := texture_name f).
  assert (Hone : forall t, t <> texName -> fc [(sampler, slotData)] t = None).
  { intros t Ht. cbn [first_converted]. rewrite Hfile. fold texName.
    destruct (String.eqb_spec texName t); [congruence|done]. }
  pose proof (Hmap texName) as Htex.
  destruct (JSMap.get (Exporter.processedTextures st) texName) as [existing|] eqn:Hget.
  - destruct Htex as (r & Hr & Hn & Hw & Hh & Hf & Hfn).
    eexists. split; [reflexivity|]. cbn [Exporter.textureEntries Exporter.processedTextures].
    rewrite first_converted_snoc, Hr. split.
    + by rewrite Hentries, Hn, Hw, Hh, Hf, Hfn.
    + intros t. specialize (Hmap t). rewrite first_converted_snoc.
      destruct (JSMap.get _ t) as [e|] eqn:Ht.
      * destruct Hmap as (r' & -> & ?). by exists r'.
      * rewrite Hmap. apply Hone. intros ->. congruence.
  - rewrite first_converted_snoc, Htex. cbn [first_converted].
    rewrite Hfile. fold texName. rewrite String.eqb_refl.
    unfold Exporter.try_catch.
    destruct (encode f) as [r|err] eqn:Henc; cbn [bind].
    + eexists. split; [reflexivity|].
      cbn [Exporter.textureEntries Exporter.processedTextures].
      split; [by rewrite Hentries|].
      intros t. rewrite first_converted_snoc.
      destruct (decide (texName = t)) as [<-|Hne].
      * rewrite get_set_eq, Htex. cbn [first_converted].
        rewrite Hfile. fold texName. rewrite String.eqb_refl, Henc.
        by exists r.
      * rewrite get_set_ne by done. specialize (Hmap t).
        destruct (JSMap.get _ t) as [e|].
        -- destruct Hmap as (r' & -> & ?). by exists r'.
        -- rewrite Hmap. by apply Hone.
    + eexists. split; [reflexivity|].
      cbn [Exporter.textureEntries Exporter.processedTextures].
      split; [by rewrite Hentries, app_nil_r|].
      intros t. specialize (Hmap t). rewrite first_converted_snoc.
      destruct (JSMap.get _ t) as [e|].
      * destruct Hmap as (r' & -> & ?). by exists r'.
      * rewrite Hmap. cbn [first_converted]. rewrite Hfile. fold texName.
        destruct (String.eqb texName t); [by rewrite Henc|done].
Qed.

Lemma first_converted_origin (slots : list slot) (t : string) (r : DdsEncoder.Encoded) :
  fc slots t = Some r ->
  exists sampler slotData f,
    (sampler, slotData) ∈ slots /\ Store.file slotData = Some f /\
    texture_name f = t /\ encode f = Ok r.
Proof.
  induction slots as [|[sampler slotData] slots IH]; [done|].
  cbn [first_converted]. intros H.
  assert (Hrest : fc slots t = Some r ->
                  exists sampler' slotData' f,
                    (sampler', slotData') ∈ (sampler, slotData) :: slots /\
                    Store.file slotData' = Some f /\
                    texture_name f = t /\ encode f = Ok r).
  { intros H'. destruct (IH H') as (s' & d' & f & Hin & ?).
    exists s', d', f. split; [apply elem_of_cons; by right|done]. }
  destruct (Store.file slotData) as [f|] eqn:Hfile; [|by apply Hrest].
  destruct (String.eqb_spec (texture_name f) t) as [Ht|]; [|by apply Hrest].
  destruct (encode f) as [r'|] eqn:Henc; [|by apply Hrest].
  injection H as ->. exists sampler, slotData, f.
  split; [apply elem_of_cons; by left|done].
Qed.

Lemma first_converted_success (slots : list slot) (sampler : string)
    (slotData : Store.TextureSlotData) (f : DdsEncoder.File) (r : DdsEncoder.Encoded) :
  (sampler, slotData) ∈ slots -> Store.file slotData = Some f -> encode f = Ok r ->
  is_Some (fc slots (texture_name f)).
Proof.
  intros Hin Hfile Henc. induction slots as [|[sampler' slotData'] slots IH].
  - by apply elem_of_nil in Hin.
  - cbn [first_converted].
    apply elem_of_cons in Hin as [Heq|Hin].
    + injection Heq as <- <-. rewrite Hfile, String.eqb_refl, Henc. by eexists.
    + destruct (Store.file slotData') as [f'|]; [|by apply IH].
      destruct (String.eqb _ _); [|by apply IH].
      destruct (encode f'); [by eexists|by apply IH].
Qed.

Lemma elem_of_expected_entries_from (earlier todo : list slot) (e : YdrXml.TextureEntry) :
  e ∈ expected_entries_from loadImage getImageData earlier todo <->
  exists pre s post,
    todo = pre ++ s :: post /\
    e ∈ entry_for loadImage getImageData (earlier ++ pre) s.
Proof.
  revert earlier. induction todo as [|x todo IH]; intros earlier.
  - split; [intros H; by apply elem_of_nil in H|].
    intros (pre & s & post & Hp & _). by destruct pre.
  - cbn [expected_entries_from]. rewrite elem_of_app, IH. split.
    + intros [Hx|(pre & s & post & -> & Hs)].
      * exists [], x, todo. by rewrite app_nil_r.
      * exists (x :: pre), s, post. split; [done|].
        by rewrite <- app_assoc in Hs.
    + intros (pre & s & post & Hp & Hs). destruct pre as [|y pre].
      * injection Hp as <- <-. left. by rewrite app_nil_r in Hs.
      * injection Hp as <- ->. right. exists pre, s, post.
        split; [done|]. by rewrite <- app_assoc.
Qed.
End ConvertSlot.

(** C7: whatever textures fail to convert, [exportYdr] runs to its end: it
    returns normally, the serializer is called with the Texture Entries of
    the textures that were converted, its document goes into the archive,
    and the last event is the completion report. A slot whose file converts
    has an entry; every entry comes from a file that converted, with that
    conversion's size and format; a failed texture has none. *)
Theorem export_survives_texture_failures {F : Type}
    (loadImage : DdsEncoder.File -> option (Z * Z))
    (getImageData : DdsEncoder.File -> Z -> Z -> list Z)
    (generateYdrXml : string -> Store.ParsedModel F -> list Store.MaterialConfig ->
                      list YdrXml.TextureEntry -> string)
    (percentOf : Z -> Z -> Z)
    (name : string) (model : Store.ParsedModel F) (materials : list Store.MaterialConfig) :
  let slots := flat_map Store.textures materials in
  let entries := expected_entries loadImage getImageData slots in
  exists trace,
    Exporter.exportYdr F loadImage getImageData generateYdrXml percentOf
      name model materials = Ok trace /\
    Exporter.GenerateYdrXml entries ∈ trace /\
    Exporter.ZipFileText (name +:+ ".ydr.xml")
      (generateYdrXml name model materials entries) ∈ trace /\
    last trace = Some (Exporter.OnProgress "Export complete!" 100) /\
    (forall sampler slotData f r,
       (sampler, slotData) ∈ slots -> Store.file slotData = Some f ->
       Exporter.encodeToDds loadImage getImageData f = Ok r ->
       exists e, e ∈ entries /\ YdrXml.name e = texture_name f /\
                 YdrXml.samplerName e = sampler) /\
    (forall e, e ∈ entries ->
       exists sampler slotData f r,
         (sampler, slotData) ∈ slots /\ Store.file slotData = Some f /\
         Exporter.encodeToDds loadImage getImageData f = Ok r /\
         YdrXml.name e = texture_name f /\
         YdrXml.width e = DdsEncoder.width r /\
         YdrXml.height e = DdsEncoder.height r /\
         YdrXml.format e = DdsEncoder.format r).
Proof.
  intros slots entries. unfold Exporter.exportYdr. cbv zeta.
  rewrite for_each_flat_map. fold slots.
  destruct (for_each_total (converted loadImage getImageData)
              (Exporter.convertSlot loadImage getImageData percentOf
                 (Exporter.countTextures materials)) slots
              (fun pre x st => convertSlot_converted loadImage getImageData percentOf
                                 _ pre x st)
              [] (Exporter.mkState [] [] [] 0
                    [Exporter.OnProgress "Converting textures to DDS..." 5]))
    as (st & -> & Hentries & _).
  { split; [done|]. intros t. done. }
  cbn [app bind] in *. fold entries in Hentries. rewrite Hentries.
  eexists. split; [reflexivity|].
  assert (Hkeep : forall (x : Exporter.event) log (l : list (string * list Z)),
            x ∈ log ->
            x ∈ foldl (fun log '(fileName, data) =>
                         log ++ [Exporter.ZipFileData (name +:+ "/" +:+ fileName) data])
                      log l).
  { intros x log l. revert log. induction l as [|[fn d] l IH]; intros log Hx; [done|].
    simpl. apply IH. apply elem_of_app. by left. }
  split; [|split; [|split; [|split]]].
  - do 3 (apply elem_of_app; left). apply Hkeep.
    do 2 (apply elem_of_app; left). apply elem_of_app. right.
    apply list_elem_of_singleton. done.
  - do 3 (apply elem_of_app; left). apply Hkeep.
    apply elem_of_app. right. apply list_elem_of_singleton. done.
  - apply last_snoc.
  - intros sampler slotData f r Hin Hfile Henc.
    destruct (list_elem_of_split _ _ Hin) as (pre & post & Hsplit).
    assert (Hsome : is_Some (first_converted loadImage getImageData
                               (pre ++ [(sampler, slotData)]) (texture_name f))).
    { eapply first_converted_success; [|exact Hfile|exact Henc].
      apply elem_of_app. right. apply list_elem_of_singleton. done. }
    destruct Hsome as [r' Hr'].
    eexists. split.
    + unfold entries, expected_entries. apply elem_of_expected_entries_from.
      exists pre, (sampler, slotData), post. split; [done|].
      unfold entry_for. cbn [fst snd app]. rewrite Hfile, Hr'.
      apply list_elem_of_singleton. reflexivity.
    + done.
  - intros e He. unfold entries, expected_entries in He.
    apply elem_of_expected_entries_from in He as (pre & [sampler slotData] & post & Hsplit & He).
    unfold entry_for in He. cbn [fst snd app] in He.
    destruct (Store.file slotData) as [f|] eqn:Hfile; [|by apply elem_of_nil in He].
    destruct (first_converted _ _ _ _) as [r|] eqn:Hr; [|by apply elem_of_nil in He].
    apply list_elem_of_singleton in He. subst e.
    destruct (first_converted_origin _ _ _ _ _ Hr) as (s' & d' & f' & Hin' & Hf' & Hname & Henc).
    exists s', d', f', r. cbn [YdrXml.name YdrXml.width YdrXml.height YdrXml.format].
    split; [|done].
    rewrite Hsplit. apply elem_of_app in Hin' as [Hpre|Hs].
    + apply elem_of_app. by left.
    + apply list_elem_of_singleton in Hs. rewrite Hs.
      apply elem_of_app. right. apply elem_of_cons. by left.
Qed.

(** ** Serializer: texture parameters *)

(** C4 at a failing input: with the materials [bare_material;
    textured_material] the exporter hands the serializer the single entry
    [entry_b]; for the first material, whose diffuse slot is unassigned, the
    first lookup of [findTexture] (position of the entry minus position of
    the first entry of that sampler = position of the material) picks
    [entry_b], and the parameter is written with the name [b] instead of the
    empty placeholder. *)
Theorem texture_param_of_other_material :
  (match Exporter.exportYdr unit (fun _ => Some (4, 4))
           (fun _ w h => replicate (Z.to_nat (w * h * 4)) 255)
           (fun _ _ _ _ => EmptyString) (fun _ _ => 0)
           "prop" (Store.mkParsedModel "prop" [] ["body"; "glass"])
           [bare_material; textured_material] with
   | Ok trace => serializer_input trace
   | Throw _ => None
   end) = Some [entry_b] /\
  Store.property (Store.textures bare_material) "DiffuseSampler" = None /\
  ShaderDefs.textureParams ShaderDefs.DEFAULT_SHADER = [diffuse_param] /\
  YdrXml.findTexture [entry_b] bare_material 0 diffuse_param = Some entry_b /\
  YdrXml.textureParamLines [entry_b] bare_material 0 diffuse_param !! 1%nat =
    Some "            <Name>b</Name>".
Proof. repeat split; vm_compute; reflexivity. Qed.

(** * Further properties of the code *)

(** ** Texture codec: rounding, decoding and pass-through *)

Section PowerOfTwo.
Import DdsEncoder.

Lemma nearestPowerOf2_is_pow2 (n : Z) :
  exists k : Z, 0 <= k /\ nearestPowerOf2 n = 2 ^ k.
Proof.
  unfold nearestPowerOf2. destruct (decide (n <= 0)); [by exists 0|].
  destruct (while_double_spec 1 n eq_refl) as (j & Hj & -> & _ & _).
  rewrite Z.mul_1_l. cbv zeta.
  destruct (decide _) as [(Hpos & _ & _)|]; [|by exists j].
  destruct (decide (j = 0)) as [->|Hj0]; [done|].
  exists (j - 1). split; [lia|].
  replace j with (Z.succ (j - 1)) at 1 by lia.
  rewrite Z.pow_succ_r by lia. rewrite Z.mul_comm, Z.div_mul; lia.
Qed.

Lemma nearestPowerOf2_fixes_pow2 (k : Z) :
  0 <= k -> nearestPowerOf2 (2 ^ k) = 2 ^ k.
Proof.
  intros Hk. unfold nearestPowerOf2.
  assert (Hp : 0 < 2 ^ k) by (apply Z.pow_pos_nonneg; lia).
  rewrite decide_False by lia.
  destruct (while_double_spec 1 (2 ^ k) eq_refl) as (j & Hj & -> & Hle & Hmin).
  rewrite Z.mul_1_l in *.
  assert (j = k) as ->.
  { apply Z.pow_le_mono_r_iff in Hle; [|lia|lia].
    destruct Hmin as [->|Hlt]; [lia|].
    destruct (decide (j - 1 < k)); [lia|].
    assert (2 ^ k <= 2 ^ (j - 1)) by (apply Z.pow_le_mono_r; lia). lia. }
  cbv zeta. rewrite decide_False; [done|].
  intros (? & ? & ?). Z.div_mod_to_equations. lia.
Qed.
End PowerOfTwo.


(** X2: for [n >= 1] the rounded size stays within a factor of [n]: it is
    more than two thirds of [n] and less than twice [n]. *)
Theorem nearestPowerOf2_within_factor (n : Z) :
  1 <= n ->
  2 * n < 3 * DdsEncoder.nearestPowerOf2 n /\ DdsEncoder.nearestPowerOf2 n < 2 * n.
Proof.
  intros Hn. unfold DdsEncoder.nearestPowerOf2.
  rewrite decide_False by lia.
  destruct (while_double_spec 1 n eq_refl) as (j & Hj & -> & Hle & Hmin).
  rewrite Z.mul_1_l in *. cbv zeta.
  assert (Hp : 0 < 2 ^ j) by (apply Z.pow_pos_nonneg; lia).
  assert (Hhalf : j <> 0 -> 2 ^ j = 2 * 2 ^ (j - 1)).
  { intros Hj0. replace j with (Z.succ (j - 1)) at 1 by lia.
    apply Z.pow_succ_r. lia. }
  destruct (decide (j = 0)) as [->|Hj0].
  - change (2 ^ 0) with 1 in *. change (1 / 2) with 0.
    destruct (decide _) as [(? & ? & ?)|]; lia.
  - specialize (Hhalf Hj0). destruct Hmin as [->|Hlt]; [done|].
    assert (Hdiv : 2 ^ j / 2 = 2 ^ (j - 1)).
    { rewrite Hhalf, Z.mul_comm, Z.div_mul; lia. }
    rewrite Hdiv. destruct (decide _) as [(? & ? & ?)|]; lia.
Qed.

Lemma nearestPowerOf2_within_factor_witness :
  2 * 100 < 3 * DdsEncoder.nearestPowerOf2 100 /\ DdsEncoder.nearestPowerOf2 100 < 2 * 100.
Proof. apply (nearestPowerOf2_within_factor 100). lia. Defined.

Section DecodePath.
Import TypedArray DdsEncoder.
Context (loadImage : File -> option (Z * Z)).
Context (getImageData : File -> Z -> Z -> list Z).

Lemma capped_pow2 (n : Z) :
  exists a : Z, 0 <= a <= 12 /\ Z.min (nearestPowerOf2 n) 4096 = 2 ^ a.
Proof.
  destruct (nearestPowerOf2_is_pow2 n) as (k & Hk & ->).
  destruct (decide (k <= 12)) as [Hle|Hgt].
  - exists k. split; [lia|].
    assert (2 ^ k <= 2 ^ 12) by (apply Z.pow_le_mono_r; lia).
    change (2 ^ 12) with 4096 in *. lia.
  - exists 12. split; [lia|].
    assert (2 ^ 12 <= 2 ^ k) by (apply Z.pow_le_mono_r; lia).
    change (2 ^ 12) with 4096 in *. lia.
Qed.

Lemma encodeToDds_decoded (file : File) (force : option DdsFormat) :
  isDdsFile (file_bytes file) = false ->
  encodeToDds loadImage getImageData file force =
  match loadImage file with
  | None => Throw (FailedToDecode (file_name file))
  | Some (iw, ih) =>
      let w := Z.min (nearestPowerOf2 iw) 4096 in
      let h := Z.min (nearestPowerOf2 ih) 4096 in
      let data := getImageData file w h in
      let fmt := chooseFormat force data in
      Ok (mkEncoded (buildDdsFile (compress fmt data w h) w h fmt) fmt w h)
  end.
Proof.
  intros Hnot. unfold encodeToDds, decodeImageToRGBA. rewrite Hnot.
  destruct (loadImage file) as [[iw ih]|]; [|done].
  cbn [bind]. cbv zeta. unfold compress. by destruct (chooseFormat _ _).
Qed.

Lemma getUint32_in_range (a : list Z) (off : nat) :
  (off + 4 <= length a)%nat -> exists v, getUint32 a off = Ok v.
Proof.
  intros H. unfold getUint32.
  destruct (lookup_lt_is_Some_2 a off) as [b0 ->]; [lia|].
  destruct (lookup_lt_is_Some_2 a (off + 1)) as [b1 ->]; [lia|].
  destruct (lookup_lt_is_Some_2 a (off + 2)) as [b2 ->]; [lia|].
  destruct (lookup_lt_is_Some_2 a (off + 3)) as [b3 ->]; [lia|].
  by eexists.
Qed.

Lemma getUint32_out_of_range (a : list Z) (off : nat) :
  (length a < off + 4)%nat -> getUint32 a off = Throw RangeError.
Proof.
  intros H. unfold getUint32.
  rewrite (lookup_ge_None_2 a (off + 3)) by lia.
  by destruct (a !! off), (a !! (off + 1)%nat), (a !! (off + 2)%nat).
Qed.

Lemma isDdsFile_true (data : list Z) :
  isDdsFile data = true ->
  (4 <= length data)%nat /\ getUint32 data 0 = Ok DDS_MAGIC.
Proof.
  unfold isDdsFile. destruct (decide _) as [|Hlen]; [done|].
  destruct (getUint32 data 0) as [m|]; [|done].
  intros Hm. apply bool_decide_eq_true in Hm. subst m. split; [lia|done].
Qed.
End DecodePath.

(** X3: the width and height [encodeToDds] compresses an image at are
    powers of two between 1 and 4096, whatever the size of the image. *)
Theorem decoded_dimensions_pow2
    (loadImage : DdsEncoder.File -> option (Z * Z))
    (getImageData : DdsEncoder.File -> Z -> Z -> list Z)
    (file : DdsEncoder.File) (force : option DdsEncoder.DdsFormat)
    (r : DdsEncoder.Encoded) :
  DdsEncoder.isDdsFile (DdsEncoder.file_bytes file) = false ->
  DdsEncoder.encodeToDds loadImage getImageData file force = Ok r ->
  exists a b : Z,
    0 <= a <= 12 /\ 0 <= b <= 12 /\
    DdsEncoder.width r = 2 ^ a /\ DdsEncoder.height r = 2 ^ b.
Proof.
  intros Hnot Henc. rewrite encodeToDds_decoded in Henc by done.
  destruct (loadImage file) as [[iw ih]|]; [|done].
  injection Henc as <-. cbn [DdsEncoder.width DdsEncoder.height].
  destruct (capped_pow2 iw) as (a & Ha & ->).
  destruct (capped_pow2 ih) as (b & Hb & ->).
  by exists a, b.
Qed.

Lemma decoded_dimensions_pow2_witness :
  let r := DdsEncoder.mkEncoded
             (DdsEncoder.buildDdsFile (DdsEncoder.compressBC1 [] 4 4) 4 4 DdsEncoder.DXT1)
             DdsEncoder.DXT1 4 4 in
  exists a b : Z,
    0 <= a <= 12 /\ 0 <= b <= 12 /\
    DdsEncoder.width r = 2 ^ a /\ DdsEncoder.height r = 2 ^ b.
Proof.
  intros r.
  apply (decoded_dimensions_pow2 (fun _ => Some (3, 5)) (fun _ _ _ => [])
           (DdsEncoder.mkFile "a.png" [137; 80; 78; 71]) None r).
  - reflexivity.
  - vm_compute. reflexivity.
Defined.

(** X4: on a file that is not a DDS container, [encodeToDds] fails exactly
    when the image does not decode, with the error that names the file;
    otherwise it returns a container for the rounded, capped size in the
    format chosen from the decoded pixels. *)
Theorem encodeToDds_fails_only_on_decode
    (loadImage : DdsEncoder.File -> option (Z * Z))
    (getImageData : DdsEncoder.File -> Z -> Z -> list Z)
    (file : DdsEncoder.File) (force : option DdsEncoder.DdsFormat) :
  DdsEncoder.isDdsFile (DdsEncoder.file_bytes file) = false ->
  (loadImage file = None ->
     DdsEncoder.encodeToDds loadImage getImageData file force =
     Throw (FailedToDecode (DdsEncoder.file_name file))) /\
  (forall iw ih, loadImage file = Some (iw, ih) ->
     exists r,
       DdsEncoder.encodeToDds loadImage getImageData file force = Ok r /\
       DdsEncoder.width r = Z.min (DdsEncoder.nearestPowerOf2 iw) 4096 /\
       DdsEncoder.height r = Z.min (DdsEncoder.nearestPowerOf2 ih) 4096 /\
       DdsEncoder.format r =
         DdsEncoder.chooseFormat force
           (getImageData file (DdsEncoder.width r) (DdsEncoder.height r))).
Proof.
  intros Hnot. rewrite encodeToDds_decoded by done. split.
  - by intros ->.
  - intros iw ih ->. by eexists.
Qed.

Lemma encodeToDds_fails_only_on_decode_witness :
  DdsEncoder.encodeToDds (fun _ => None) (fun _ _ _ => [])
    (DdsEncoder.mkFile "broken.png" [1; 2; 3]) None =
  Throw (FailedToDecode "broken.png").
Proof.
  apply (proj1 (encodeToDds_fails_only_on_decode (fun _ => None) (fun _ _ _ => [])
                  (DdsEncoder.mkFile "broken.png" [1; 2; 3]) None eq_refl)).
  reflexivity.
Defined.

(** X5: a file that starts with the DDS magic is passed through without
    decoding: with at least 88 bytes, [encodeToDds] returns the file's own
    bytes with the width and height of its header, and reports DXT5 for the
    DXT5 code and DXT1 for every other code; a shorter file makes it throw a
    RangeError. Neither the image decoder nor the format override plays a
    part. *)
Theorem encodeToDds_pass_through
    (loadImage : DdsEncoder.File -> option (Z * Z))
    (getImageData : DdsEncoder.File -> Z -> Z -> list Z)
    (file : DdsEncoder.File) (force : option DdsEncoder.DdsFormat) :
  DdsEncoder.isDdsFile (DdsEncoder.file_bytes file) = true ->
  let bytes := DdsEncoder.file_bytes file in
  if decide (88 <= length bytes)%nat then
    exists w h code,
      TypedArray.getUint32 bytes 16 = Ok w /\
      TypedArray.getUint32 bytes 12 = Ok h /\
      TypedArray.getUint32 bytes 84 = Ok code /\
      DdsEncoder.encodeToDds loadImage getImageData file force =
      Ok (DdsEncoder.mkEncoded bytes
            (if decide (code = DdsEncoder.FOURCC_DXT5) then DdsEncoder.DXT5
             else DdsEncoder.DXT1) w h)
  else
    DdsEncoder.encodeToDds loadImage getImageData file force = Throw RangeError.
Proof.
  intros Hdds bytes. destruct (isDdsFile_true _ Hdds) as [Hlen Hmagic].
  unfold DdsEncoder.encodeToDds, DdsEncoder.getDdsDimensions. rewrite Hdds.
  fold bytes in Hlen, Hmagic |- *.
  rewrite (getUint32_take bytes 128 0) by lia. rewrite Hmagic. cbn [bind].
  destruct (decide (DdsEncoder.DDS_MAGIC <> DdsEncoder.DDS_MAGIC)) as [Hne|_]; [done|].
  destruct (decide (88 <= length bytes)%nat) as [Hbig|Hsmall].
  - rewrite !getUint32_take by lia.
    destruct (getUint32_in_range bytes 12) as [h Hh]; [lia|].
    destruct (getUint32_in_range bytes 16) as [w Hw]; [lia|].
    destruct (getUint32_in_range bytes 84) as [c Hc]; [lia|].
    exists w, h, c. rewrite Hh, Hw, Hc. by cbn.
  - destruct (decide (20 <= length bytes)%nat) as [H20|H20].
    + rewrite !getUint32_take by lia.
      destruct (getUint32_in_range bytes 12) as [h ->]; [lia|].
      destruct (getUint32_in_range bytes 16) as [w ->]; [lia|].
      cbn [bind]. by rewrite getUint32_out_of_range by lia.
    + destruct (decide (16 <= length bytes)%nat) as [H16|H16].
      * rewrite (getUint32_take bytes 128 12) by lia.
        destruct (getUint32_in_range bytes 12) as [h ->]; [lia|].
        cbn [bind].
        by rewrite getUint32_out_of_range by (rewrite length_take; lia).
      * by rewrite getUint32_out_of_range by (rewrite length_take; lia).
Qed.

Lemma encodeToDds_pass_through_witness :
  DdsEncoder.encodeToDds (fun _ => None) (fun _ _ _ => [])
    (DdsEncoder.mkFile "short.dds" [68; 68; 83; 32; 124; 0; 0; 0]) None =
  Throw RangeError.
Proof.
  exact (encodeToDds_pass_through (fun _ => None) (fun _ _ _ => [])
           (DdsEncoder.mkFile "short.dds" [68; 68; 83; 32; 124; 0; 0; 0]) None eq_refl).
Defined.

(** X6: on a buffer of bytes, [isDdsFile] holds exactly when the first four
    bytes are D, D, S and a space (68, 68, 83, 32); a buffer of fewer than
    four bytes is no DDS file. *)
Theorem isDdsFile_magic_bytes (data : list Z) :
  (forall (i : nat) b, data !! i = Some b -> 0 <= b < 256) ->
  DdsEncoder.isDdsFile data = true <-> take 4 data = [68; 68; 83; 32].
Proof.
  intros Hbytes. unfold DdsEncoder.isDdsFile.
  destruct data as [|b0 [|b1 [|b2 [|b3 rest]]]]; try (split; [done|done]).
  cbn [length take]. rewrite decide_False by lia.
  unfold TypedArray.getUint32. cbn [lookup list_lookup Nat.add].
  pose proof (Hbytes 0%nat b0 eq_refl). pose proof (Hbytes 1%nat b1 eq_refl).
  pose proof (Hbytes 2%nat b2 eq_refl). pose proof (Hbytes 3%nat b3 eq_refl).
  rewrite bool_decide_eq_true. unfold DdsEncoder.DDS_MAGIC. split.
  - intros Hsum. assert (b0 = 68 /\ b1 = 68 /\ b2 = 83 /\ b3 = 32) as (-> & -> & -> & ->) by lia.
    done.
  - by intros [= -> -> -> ->].
Qed.

Lemma isDdsFile_magic_bytes_witness :
  DdsEncoder.isDdsFile [68; 68; 83; 32; 124; 0] = true.
Proof.
  apply (isDdsFile_magic_bytes [68; 68; 83; 32; 124; 0]); [|reflexivity].
  intros i b Hb.
  do 6 (destruct i as [|i]; [injection Hb as <-; lia|]). discriminate Hb.
Defined.

(** X7: [getDdsDimensions] looks at the first 20 bytes only. It throws a
    RangeError on fewer than four bytes, rejects four or more bytes that do
    not start with the magic as not a valid DDS file, throws a RangeError on
    a magic followed by fewer than 16 bytes, and otherwise returns the
    width read at offset 16 and the height read at offset 12. *)
Theorem getDdsDimensions_cases (file : DdsEncoder.File) :
  let bytes := DdsEncoder.file_bytes file in
  ((length bytes < 4)%nat -> DdsEncoder.getDdsDimensions file = Throw RangeError) /\
  ((4 <= length bytes)%nat -> DdsEncoder.isDdsFile bytes = false ->
     DdsEncoder.getDdsDimensions file = Throw NotValidDds) /\
  (DdsEncoder.isDdsFile bytes = true -> (length bytes < 20)%nat ->
     DdsEncoder.getDdsDimensions file = Throw RangeError) /\
  (DdsEncoder.isDdsFile bytes = true -> (20 <= length bytes)%nat ->
     exists w h,
       TypedArray.getUint32 bytes 16 = Ok w /\ TypedArray.getUint32 bytes 12 = Ok h /\
       DdsEncoder.getDdsDimensions file = Ok (w, h)).
Proof.
  intros bytes. unfold DdsEncoder.getDdsDimensions. fold bytes.
  split; [|split; [|split]].
  - intros Hlen. by rewrite getUint32_out_of_range by (rewrite length_take; lia).
  - intros Hlen Hnot. rewrite getUint32_take by lia.
    unfold DdsEncoder.isDdsFile in Hnot. rewrite decide_False in Hnot by lia.
    destruct (getUint32_in_range bytes 0) as [m Hm]; [lia|].
    rewrite Hm in Hnot |- *. cbn [bind].
    apply bool_decide_eq_false in Hnot. by rewrite decide_True.
  - intros Hdds Hlen. destruct (isDdsFile_true _ Hdds) as [Hlen4 Hmagic].
    rewrite (getUint32_take bytes 128 0) by lia. rewrite Hmagic. cbn [bind].
    destruct (decide (DdsEncoder.DDS_MAGIC <> DdsEncoder.DDS_MAGIC)) as [Hne|_]; [done|].
    destruct (decide (16 <= length bytes)%nat) as [H16|H16].
    + rewrite (getUint32_take bytes 128 12) by lia.
      destruct (getUint32_in_range bytes 12) as [h ->]; [lia|].
      cbn [bind]. by rewrite getUint32_out_of_range by (rewrite length_take; lia).
    + by rewrite getUint32_out_of_range by (rewrite length_take; lia).
  - intros Hdds Hlen. destruct (isDdsFile_true _ Hdds) as [Hlen4 Hmagic].
    rewrite !getUint32_take by lia. rewrite Hmagic. cbn [bind].
    destruct (decide (DdsEncoder.DDS_MAGIC <> DdsEncoder.DDS_MAGIC)) as [Hne|_]; [done|].
    destruct (getUint32_in_range bytes 12) as [h Hh]; [lia|].
    destruct (getUint32_in_range bytes 16) as [w Hw]; [lia|].
    exists w, h. by rewrite Hh, Hw.
Qed.

Lemma getDdsDimensions_cases_witness :
  DdsEncoder.getDdsDimensions (DdsEncoder.mkFile "x.dds" [137; 80; 78; 71; 13; 10])
    = Throw NotValidDds /\
  DdsEncoder.getDdsDimensions (DdsEncoder.mkFile "x.dds" [68; 68]) = Throw RangeError.
Proof.
  split.
  - apply (proj1 (proj2 (getDdsDimensions_cases
                           (DdsEncoder.mkFile "x.dds" [137; 80; 78; 71; 13; 10])))).
    + simpl. lia.
    + reflexivity.
  - apply (proj1 (getDdsDimensions_cases (DdsEncoder.mkFile "x.dds" [68; 68]))).
    simpl. lia.
Defined.

(** ** Serializer: names, escaping and texture lookup *)

Section NameChars.
Lemma map_string_compose_forall (p : ascii -> bool) (g h : ascii -> ascii) (s : string) :
  (forall c, p (g (h c)) = true) ->
  JS.forall_chars p (JS.map_string g (JS.map_string h s)) = true.
Proof.
  intros Hp. induction s as [|c s IH]; [done|].
  cbn [JS.map_string JS.forall_chars]. by rewrite Hp, IH.
Qed.

Lemma map_string_id (p : ascii -> bool) (g : ascii -> ascii) (s : string) :
  (forall c, p c = true -> g c = c) ->
  JS.forall_chars p s = true -> JS.map_string g s = s.
Proof.
  intros Hg. induction s as [|c s IH]; [done|].
  cbn [JS.map_string JS.forall_chars]. rewrite andb_true_iff.
  intros [Hc Hs]. by rewrite Hg, IH.
Qed.

Lemma sanitized_char (c : ascii) :
  is_name_char
    ((fun c => if JS.is_upper c then ascii_of_nat (nat_of_ascii c + 32) else c)
       ((fun c => if JS.is_lower c || JS.is_upper c || JS.is_digit c || Ascii.eqb c "_"
                  then c else "_"%char) c)) = true.
Proof.
  destruct c as [[] [] [] [] [] [] [] []]; reflexivity.
Qed.

Lemma name_char_fixed (c : ascii) :
  is_name_char c = true ->
  Ascii.eqb c "." = false /\
  (if JS.is_lower c || JS.is_upper c || JS.is_digit c || Ascii.eqb c "_"
   then c else "_"%char) = c /\
  (if JS.is_upper c then ascii_of_nat (nat_of_ascii c + 32) else c) = c /\
  entity4 c = String c "".
Proof.
  destruct c as [[] [] [] [] [] [] [] []]; intros H; try discriminate H;
    repeat split; reflexivity.
Qed.

Lemma sanitizeTextureName_chars (x : string) :
  JS.forall_chars is_name_char (YdrXml.sanitizeTextureName x) = true.
Proof.
  unfold YdrXml.sanitizeTextureName, JS.toLowerCase, YdrXml.replaceNonWord.
  apply map_string_compose_forall. exact sanitized_char.
Qed.

Lemma stripExtension_name (t : string) :
  JS.forall_chars is_name_char t = true -> JS.stripExtension t = t.
Proof.
  induction t as [|c t IH]; [done|].
  cbn [JS.forall_chars JS.stripExtension]. rewrite andb_true_iff.
  intros [Hc Ht]. destruct (name_char_fixed c Hc) as (-> & _).
  cbn [andb]. by rewrite IH.
Qed.

Lemma stripExtension_name_dds (t : string) :
  JS.forall_chars is_name_char t = true -> JS.stripExtension (t +:+ ".dds") = t.
Proof.
  induction t as [|c t IH]; [done|].
  cbn [JS.forall_chars]. rewrite andb_true_iff. intros [Hc Ht].
  change (String c t +:+ ".dds") with (String c (t +:+ ".dds")).
  cbn [JS.stripExtension]. destruct (name_char_fixed c Hc) as (-> & _).
  cbn [andb]. by rewrite IH.
Qed.

Lemma sanitize_name (t : string) :
  JS.forall_chars is_name_char t = true ->
  JS.toLowerCase (YdrXml.replaceNonWord t) = t.
Proof.
  intros Ht. unfold JS.toLowerCase, YdrXml.replaceNonWord.
  rewrite (map_string_id is_name_char _ t); [|intros c Hc; apply (name_char_fixed c Hc)|done].
  apply (map_string_id is_name_char); [|done].
  intros c Hc. apply (name_char_fixed c Hc).
Qed.

Lemma escXml_name (t : string) :
  JS.forall_chars is_name_char t = true -> YdrXml.escXml t = t.
Proof.
  induction t as [|c t IH]; [done|].
  cbn [JS.forall_chars]. rewrite andb_true_iff. intros [Hc Ht].
  rewrite escXml_cons, IH by done.
  destruct (name_char_fixed c Hc) as (_ & _ & _ & ->). done.
Qed.

Lemma entity4_no_markup (c : ascii) :
  JS.forall_chars (fun c => negb (is_markup c)) (entity4 c) = true.
Proof.
  unfold entity4, is_markup.
  destruct (Ascii.eqb c "&"); [done|].
  destruct (Ascii.eqb c "<") eqn:Hlt; [done|].
  destruct (Ascii.eqb c ">") eqn:Hgt; [done|].
  destruct (Ascii.eqb c YdrXml.quote) eqn:Hq; [done|].
  cbn [JS.forall_chars]. by rewrite Hlt, Hgt, Hq.
Qed.
End NameChars.

(** X8: a sanitized texture name holds lower-case letters, digits and
    underscores only, and sanitizing is idempotent. *)
Theorem sanitizeTextureName_idempotent (filename : string) :
  JS.forall_chars is_name_char (YdrXml.sanitizeTextureName filename) = true /\
  YdrXml.sanitizeTextureName (YdrXml.sanitizeTextureName filename) =
  YdrXml.sanitizeTextureName filename.
Proof.
  pose proof (sanitizeTextureName_chars filename) as Hc.
  split; [done|].
  unfold YdrXml.sanitizeTextureName at 1.
  rewrite stripExtension_name by done. by apply sanitize_name.
Qed.

(** X9: the file name the exporter gives a converted texture, the sanitized
    name followed by [.dds], sanitizes back to that name. *)
Theorem sanitizeTextureName_of_dds_name (filename : string) :
  YdrXml.sanitizeTextureName (YdrXml.sanitizeTextureName filename +:+ ".dds") =
  YdrXml.sanitizeTextureName filename.
Proof.
  pose proof (sanitizeTextureName_chars filename) as Hc.
  unfold YdrXml.sanitizeTextureName at 1.
  rewrite stripExtension_name_dds by done. by apply sanitize_name.
Qed.

(** X10: the output of [escXml] holds no less-than, greater-than or double
    quote character, and [escXml] leaves a sanitized texture name as it is. *)
Theorem escXml_no_markup :
  (forall s, JS.forall_chars (fun c => negb (is_markup c)) (YdrXml.escXml s) = true) /\
  (forall filename,
     YdrXml.escXml (YdrXml.sanitizeTextureName filename) =
     YdrXml.sanitizeTextureName filename).
Proof.
  split.
  - intros s. induction s as [|c s IH]; [done|].
    by rewrite escXml_cons, forall_chars_append, entity4_no_markup, IH.
  - intros filename. apply escXml_name, sanitizeTextureName_chars.
Qed.

Section FindTexture.
Context {A : Type}.

Lemma find_at_Some (p : nat -> A -> bool) (i : nat) (l : list A) (a : A) :
  YdrXml.find_at p i l = Some a ->
  exists j : nat, l !! j = Some a /\ p (i + j)%nat a = true.
Proof.
  revert i. induction l as [|x l IH]; intros i; [done|].
  cbn [YdrXml.find_at]. destruct (p i x) eqn:Hp.
  - intros [= ->]. exists 0%nat. by rewrite Nat.add_0_r.
  - intros H. destruct (IH _ H) as (j & Hj & Hpj).
    exists (S j). split; [done|]. by replace (i + S j)%nat with (S i + j)%nat by lia.
Qed.

Lemma find_at_None (p : nat -> A -> bool) (i : nat) (l : list A) :
  (forall (j : nat) a, l !! j = Some a -> p (i + j)%nat a = false) ->
  YdrXml.find_at p i l = None.
Proof.
  revert i. induction l as [|x l IH]; intros i Hall; [done|].
  cbn [YdrXml.find_at]. rewrite <- (Nat.add_0_r i) at 1.
  rewrite (Hall 0%nat x eq_refl). apply IH. intros j a Hj.
  replace (S i + j)%nat with (i + S j)%nat by lia. by apply Hall.
Qed.

Lemma findIndex_at_nonneg (p : A -> bool) (i : Z) (l : list A) (j : nat) (a : A) :
  l !! j = Some a -> p a = true -> i <= YdrXml.findIndex_at p i l.
Proof.
  revert i j. induction l as [|x l IH]; intros i j Hj Hp; [done|].
  cbn [YdrXml.findIndex_at]. destruct (p x) eqn:Hx; [lia|].
  destruct j as [|j]; [injection Hj as ->; congruence|].
  specialize (IH (i + 1) j Hj Hp). lia.
Qed.
End FindTexture.

(** X11: a texture parameter never resolves to an entry of another sampler
    slot: what [findTexture] returns is one of the entries and carries the
    parameter's sampler name; when no entry has that sampler name the
    parameter is written with the empty placeholder. *)
Theorem findTexture_same_sampler (textures : list YdrXml.TextureEntry)
    (mat : Store.MaterialConfig) (matIdx : nat) (tp : ShaderDefs.TextureParam) :
  (forall t, YdrXml.findTexture textures mat matIdx tp = Some t ->
     t ∈ textures /\ YdrXml.samplerName t = ShaderDefs.tp_name tp) /\
  ((forall t, t ∈ textures -> YdrXml.samplerName t <> ShaderDefs.tp_name tp) ->
     YdrXml.findTexture textures mat matIdx tp = None /\
     YdrXml.textureParamLines textures mat matIdx tp !! 1%nat =
       Some "            <Name />").
Proof.
  split.
  - intros t. unfold YdrXml.findTexture. cbv zeta.
    destruct (YdrXml.find_at _ 0 textures) as [t1|] eqn:H1.
    + intros [= ->]. apply find_at_Some in H1 as (j & Hj & Hp).
      apply andb_true_iff in Hp as [Hs _]. apply String.eqb_eq in Hs.
      split; [by eapply list_elem_of_lookup_2|done].
    + intros H2. apply find_at_Some in H2 as (j & Hj & Hp).
      split; [by eapply list_elem_of_lookup_2|].
      destruct (Store.property _ _) as [slot|]; [|done].
      destruct (Store.file slot); [|done].
      apply andb_true_iff in Hp as [_ Hs]. by apply String.eqb_eq in Hs.
  - intros Hnone.
    assert (E : YdrXml.findTexture textures mat matIdx tp = None).
    { unfold YdrXml.findTexture. cbv zeta.
      rewrite find_at_None.
      - apply find_at_None. intros j a Hj.
        destruct (Store.property _ _) as [slot|]; [|done].
        destruct (Store.file slot); [|done].
        apply andb_false_iff. right. apply String.eqb_neq.
        apply Hnone. by eapply list_elem_of_lookup_2.
      - intros j a Hj. apply andb_false_iff. left. apply String.eqb_neq.
        apply Hnone. by eapply list_elem_of_lookup_2. }
    split; [done|]. unfold YdrXml.textureParamLines. by rewrite E.
Qed.

Lemma findTexture_same_sampler_witness :
  YdrXml.findTexture [entry_b] textured_material 1
    (ShaderDefs.mkTextureParam "BumpSampler" "Normal Map" "Normal/bump map texture")
  = None.
Proof.
  apply (proj2 (findTexture_same_sampler [entry_b] textured_material 1
                  (ShaderDefs.mkTextureParam "BumpSampler" "Normal Map"
                     "Normal/bump map texture"))).
  intros t Ht. apply list_elem_of_singleton in Ht. subst t. by vm_compute.
Defined.

(** X12: for a material whose position is not below the number of entries
    the lookup is by name alone: an entry is returned only for an assigned
    slot, and it carries the sanitized name of the assigned file and the
    parameter's sampler name; an unassigned slot is never resolved. *)
Theorem findTexture_by_name (textures : list YdrXml.TextureEntry)
    (mat : Store.MaterialConfig) (matIdx : nat) (tp : ShaderDefs.TextureParam) :
  (length textures <= matIdx)%nat ->
  (forall t, YdrXml.findTexture textures mat matIdx tp = Some t ->
     exists slot file,
       Store.property (Store.textures mat) (ShaderDefs.tp_name tp) = Some slot /\
       Store.file slot = Some file /\
       YdrXml.name t = YdrXml.sanitizeTextureName (DdsEncoder.file_name file) /\
       YdrXml.samplerName t = ShaderDefs.tp_name tp) /\
  (Store.property (Store.textures mat) (ShaderDefs.tp_name tp) = None ->
     YdrXml.findTexture textures mat matIdx tp = None).
Proof.
  intros Hlen.
  assert (H1 : YdrXml.find_at
                 (fun i t =>
                    String.eqb (YdrXml.samplerName t) (ShaderDefs.tp_name tp) &&
                    bool_decide (Z.of_nat matIdx =
                      Z.of_nat i -
                      YdrXml.findIndex
                        (fun tt => String.eqb (YdrXml.samplerName tt) (ShaderDefs.tp_name tp))
                        textures)) 0 textures = None).
  { apply find_at_None. intros j a Hj.
    destruct (String.eqb (YdrXml.samplerName a) (ShaderDefs.tp_name tp)) eqn:Hs; [|done].
    cbn [andb]. apply bool_decide_eq_false.
    pose proof (findIndex_at_nonneg
                  (fun tt => String.eqb (YdrXml.samplerName tt) (ShaderDefs.tp_name tp))
                  0 textures j a Hj Hs) as Hfi.
    apply lookup_lt_Some in Hj. unfold YdrXml.findIndex. lia. }
  unfold YdrXml.findTexture. cbv zeta. rewrite H1. split.
  - intros t H2. apply find_at_Some in H2 as (j & Hj & Hp).
    destruct (Store.property _ _) as [slot|]; [|done].
    destruct (Store.file slot) as [file|] eqn:Hfile; [|done].
    apply andb_true_iff in Hp as [Hn Hs].
    apply String.eqb_eq in Hn, Hs. by exists slot, file.
  - intros ->. by apply find_at_None.
Qed.

Lemma findTexture_by_name_witness :
  YdrXml.findTexture [entry_b] bare_material 1 diffuse_param = None.
Proof.
  apply (proj2 (findTexture_by_name [entry_b] bare_material 1 diffuse_param
                  ltac:(simpl; lia))).
  reflexivity.
Defined.

(** ** Serializer: the index buffer *)

Section IndexChunks.
Import YdrXmlIndexBuffer.

Lemma chunks_from_step (indices : list Z) (i : nat) :
  (i < length indices)%nat ->
  chunks_from indices i =
  slice indices i (Nat.min (i + 24) (length indices)) :: chunks_from indices (i + 24).
Proof.
  intros H. rewrite chunks_from_equation_1 at 1.
  destruct (decide (i < length indices)%nat); [done|lia].
Qed.

Lemma chunks_from_end (indices : list Z) (i : nat) :
  (length indices <= i)%nat -> chunks_from indices i = [].
Proof.
  intros H. rewrite chunks_from_equation_1.
  destruct (decide (i < length indices)%nat); [lia|done].
Qed.

Lemma chunks_from_spec (indices : list Z) (i : nat) :
  concat (chunks_from indices i) = drop i indices /\
  Forall (fun c => (1 <= length c <= 24)%nat) (chunks_from indices i) /\
  (forall (k : nat) c, chunks_from indices i !! k = Some c ->
     (S k < length (chunks_from indices i))%nat -> length c = 24%nat) /\
  (24 * length (chunks_from indices i) < length indices - i + 24)%nat /\
  (length indices - i <= 24 * length (chunks_from indices i))%nat.
Proof.
  funelim (chunks_from indices i).
  - destruct H as (Hcat & Hall & Hfull & Hup & Hlow).
    clear Heqcall.
    assert (Hlen : length (slice indices i (Nat.min (i + 24) (length indices)))
                   = Nat.min 24 (length indices - i)).
    { unfold slice. rewrite length_take, length_drop. lia. }
    split; [|split; [|split; [|split]]].
    + cbn [concat]. rewrite Hcat. unfold slice.
      replace (Nat.min (i + 24) (length indices) - i)%nat
        with (Nat.min 24 (length indices - i)) by lia.
      destruct (decide (24 <= length indices - i)%nat) as [Hbig|Hsmall].
      * rewrite Nat.min_l by lia. rewrite <- (drop_drop indices 24 i).
        apply take_drop.
      * rewrite Nat.min_r by lia. rewrite (drop_ge indices (i + 24)) by lia.
        rewrite app_nil_r. apply take_ge. rewrite length_drop. lia.
    + constructor; [rewrite Hlen; lia|done].
    + intros k c Hk Hlast. cbn [length] in Hlast. destruct k as [|k].
      * injection Hk as <-. rewrite Hlen.
        destruct (decide (i + 24 < length indices)%nat); [lia|].
        rewrite chunks_from_end in Hlast by lia. simpl in Hlast. lia.
      * apply (Hfull k c Hk). lia.
    + cbn [length]. lia.
    + cbn [length]. lia.
  - repeat split; try done.
    + by rewrite drop_ge by lia.
    + simpl. lia.
    + simpl. lia.
Qed.
End IndexChunks.

(** X13: chunking the index buffer for the document does not change it: the
    chunks, one per line, concatenate to the indices in order; every chunk
    has between 1 and 24 indices, every chunk but the last has 24, and there
    are as many lines as 24 goes into the number of indices, rounded up (none
    for an empty buffer). *)
Theorem index_chunks_preserve_indices (indices : list Z) :
  let chunks := YdrXmlIndexBuffer.chunks_from indices 0 in
  concat chunks = indices /\
  Forall (fun c => (1 <= length c <= 24)%nat) chunks /\
  (forall (k : nat) c, chunks !! k = Some c -> (S k < length chunks)%nat ->
     length c = 24%nat) /\
  length chunks = ((length indices + 23) / 24)%nat /\
  length (YdrXmlIndexBuffer.indexChunks indices) = length chunks.
Proof.
  intros chunks. destruct (chunks_from_spec indices 0) as (Hcat & Hall & Hfull & Hup & Hlow).
  fold chunks in Hcat, Hall, Hfull, Hup, Hlow.
  split; [by rewrite Hcat|]. split; [done|]. split; [done|]. split.
  - apply Nat.div_unique with (r := (length indices + 23 - 24 * length chunks)%nat); lia.
  - unfold YdrXmlIndexBuffer.indexChunks. by rewrite length_map.
Qed.

(** ** Mesh extractor: buffers, material indices and mesh count *)

Section SubMesh.
Context {F : Type} (zero one : F) (fround : F -> F).

Lemma length_fset (a : list F) (i : Z) (v : F) :
  length (ModelParser.fset F fround a i v) = length a.
Proof. unfold ModelParser.fset. destruct (decide _); [apply length_insert|done]. Qed.

Lemma length_falloc (n : Z) : length (ModelParser.falloc F zero n) = Z.to_nat n.
Proof. apply length_replicate. Qed.

Lemma foldl_length_proj {S E T} (proj : S -> list T) (f : S -> E -> S)
    (l : list E) (s : S) :
  (forall s e, length (proj (f s e)) = length (proj s)) ->
  length (proj (foldl f s l)) = length (proj s).
Proof.
  intros Hf. apply (foldl_invariant (fun s' => length (proj s') = length (proj s))); [|done].
  intros a b Ha. by rewrite Hf.
Qed.

Lemma fst_numbered_from {K} (b : Z) (order : list K) :
  map fst (numbered_from b order) = order.
Proof. revert b. induction order as [|o r IH]; intros b; simpl; [done|by rewrite IH]. Qed.

Lemma partition_indices_nil (src : list Z) (startIndex count : Z) :
  partition_indices src startIndex count = [] <-> count <= 0.
Proof.
  unfold partition_indices. split.
  - intros H. apply (f_equal length) in H. rewrite length_map, length_seqZ in H.
    simpl in H. lia.
  - intros H. unfold seqZ. by replace (Z.to_nat count) with 0%nat by lia.
Qed.

Lemma extractSubMesh_shape (geo : ModelParser.BufferGeometry F) (src : list Z)
    (startIndex count materialIndex : Z) (materialName : string) :
  ModelParser.index F geo = Some src ->
  let st := foldl ModelParser.remapStep ([], [])
                  (partition_indices src startIndex count) in
  (count <= 0 ->
   ModelParser.extractSubMesh F zero one fround geo startIndex count
     materialIndex materialName = None) /\
  (0 < count ->
   exists mesh,
     ModelParser.extractSubMesh F zero one fround geo startIndex count
       materialIndex materialName = Some mesh /\
     Store.materialIndex mesh = materialIndex /\
     Store.materialName mesh = materialName /\
     Store.indices mesh = st.2 /\
     length (Store.indices mesh) = Z.to_nat count /\
     Store.positions mesh =
       flat_map (vertex_position fround (ModelParser.position F geo)) (map fst st.1) /\
     length (Store.positions mesh) = (3 * length st.1)%nat /\
     length (Store.normals mesh) = (3 * length st.1)%nat /\
     length (Store.uvs mesh) = (2 * length st.1)%nat /\
     match ModelParser.color F geo with
     | None => Store.colors mesh = None
     | Some _ => exists c, Store.colors mesh = Some c /\
                           length c = (4 * length st.1)%nat
     end /\
     (ModelParser.uv F geo = None -> Forall (eq zero) (Store.uvs mesh))).
Proof.
  intros Hindex st. subst st.
  unfold ModelParser.extractSubMesh. rewrite Hindex, collect_as_fold.
  set (slice := partition_indices src startIndex count).
  destruct (collect_collected slice) as (order & Hremap & Hc).
  destruct (foldl ModelParser.remapStep ([], []) slice) as [remap used].
  cbn [fst snd] in Hremap, Hc |- *. subst remap.
  destruct Hc as (Hnd & Hmem & Hlen & _).
  split.
  - intros Hcount.
    pose proof (proj2 (partition_indices_nil src startIndex count) Hcount) as Hs.
    fold slice in Hs.
    assert (order = []) as ->.
    { destruct order as [|o r]; [done|].
      assert (o ∈ slice) as Ho by (apply Hmem; left).
      rewrite Hs in Ho. by apply elem_of_nil in Ho. }
    done.
  - intros Hcount.
    assert (Hne : order <> []).
    { intros ->. destruct slice as [|o r] eqn:Hs.
      - apply partition_indices_nil in Hs. lia.
      - assert (o ∈ ([] : list (option Z))) as Ho by (apply Hmem; left).
        by apply elem_of_nil in Ho. }
    destruct (decide (JSMap.size (numbered_from 0 order) = 0)) as [Hz|_].
    { unfold JSMap.size in Hz. rewrite length_numbered_from in Hz.
      destruct order; [done|simpl in Hz; lia]. }
    match goal with
    | |- context [foldl ?f (?a, ?b, ?c) ?m] =>
        pose proof (foldl_proj (fun s : list F * list F * list F => s.1.1) f
                      (position_writes fround (ModelParser.position F geo))) as Hproj;
        pose proof (foldl_length_proj (fun s : list F * list F * list F => s.1.2) f m
                      (a, b, c)) as Hn;
        pose proof (foldl_length_proj (fun s : list F * list F * list F => s.2) f m
                      (a, b, c)) as Hu;
        pose proof (foldl_invariant
                      (fun s : list F * list F * list F =>
                         ModelParser.uv F geo = None -> Forall (eq zero) s.2) f m
                      (a, b, c)) as Hz;
        destruct (foldl f (a, b, c) m) as [[positions normals] uvs] eqn:Hfold
    end.
    cbn [fst snd] in Hn, Hu, Hz.
    assert (Hpos : positions =
                   flat_map (vertex_position fround (ModelParser.position F geo)) order).
    { rewrite <- (positions_of_remap zero fround).
      change positions with ((positions, normals, uvs).1.1).
      rewrite <- Hfold. apply Hproj. by intros [[a b] c] [o k]. }
    assert (Hsize : forall k : Z, 0 <= k ->
              Z.to_nat (JSMap.size (numbered_from 0 order) * k) =
              (Z.to_nat k * length (numbered_from 0 order))%nat).
    { intros k Hk. unfold JSMap.size. lia. }
    eexists. split; [reflexivity|].
    cbn [Store.materialIndex Store.materialName Store.indices Store.positions
         Store.normals Store.uvs Store.colors].
    rewrite fst_numbered_from.
    split; [done|]. split; [done|]. split; [done|]. split.
    { rewrite Hlen. unfold slice, partition_indices.
      by rewrite length_map, length_seqZ. }
    split; [done|]. split.
    { rewrite Hpos, length_numbered_from. clear.
      induction order as [|o r IH]; [done|].
      cbn [flat_map]. rewrite length_app, IH. simpl. lia. }
    split.
    { rewrite Hn; [rewrite length_falloc, Hsize by lia; lia|].
      intros [[a b] c] [o k]. cbn [fst snd].
      destruct (ModelParser.normal F geo); [|done]. by rewrite !length_fset. }
    split.
    { rewrite Hu; [rewrite length_falloc, Hsize by lia; lia|].
      intros [[a b] c] [o k]. cbn [fst snd].
      destruct (ModelParser.uv F geo); [|done]. by rewrite !length_fset. }
    split.
    { destruct (ModelParser.color F geo) as [srcColors|]; [|done].
      eexists. split; [reflexivity|].
      rewrite (foldl_length_proj (fun s : list F => s));
        [rewrite length_falloc, Hsize by lia; lia|].
      intros a [o k]. by rewrite !length_fset. }
    apply Hz.
    + intros [[a b] c] [o k] Ha Huv. cbn [snd] in *. rewrite Huv. by apply Ha.
    + intros _. cbn [snd]. unfold ModelParser.falloc. by apply Forall_replicate.
Qed.
Lemma extractSubMesh_None_iff (geo : ModelParser.BufferGeometry F)
    (startIndex count materialIndex : Z) (materialName : string) :
  ModelParser.extractSubMesh F zero one fround geo startIndex count
    materialIndex materialName = None <->
  ModelParser.index F geo = None \/ count <= 0.
Proof.
  destruct (ModelParser.index F geo) as [src|] eqn:Hindex.
  - destruct (extractSubMesh_shape geo src startIndex count
                materialIndex materialName Hindex) as [Hnone Hsome].
    destruct (decide (count <= 0)) as [Hc|Hc].
    + rewrite (Hnone Hc). split; [by right|done].
    + destruct (Hsome ltac:(lia)) as (mesh & -> & _).
      split; [done|]. intros [?|?]; [done|lia].
  - unfold ModelParser.extractSubMesh. rewrite Hindex. split; [by left|done].
Qed.

Lemma extractSubMesh_material (geo : ModelParser.BufferGeometry F)
    (startIndex count materialIndex : Z) (materialName : string)
    (mesh : Store.ParsedMesh F) :
  ModelParser.extractSubMesh F zero one fround geo startIndex count
    materialIndex materialName = Some mesh ->
  Store.materialIndex mesh = materialIndex /\ Store.materialName mesh = materialName.
Proof.
  intros Hmesh.
  destruct (ModelParser.index F geo) as [src|] eqn:Hindex.
  - destruct (extractSubMesh_shape geo src startIndex count
                materialIndex materialName Hindex) as [Hnone Hsome].
    destruct (decide (count <= 0)) as [Hc|Hc].
    + by rewrite (Hnone Hc) in Hmesh.
    + destruct (Hsome ltac:(lia)) as (mesh' & Hm & Hmi & Hmn & _).
      rewrite Hm in Hmesh. by injection Hmesh as <-.
  - unfold ModelParser.extractSubMesh in Hmesh. by rewrite Hindex in Hmesh.
Qed.
End SubMesh.

(** X14: [extractSubMesh] returns nothing exactly when the geometry has no
    index buffer or the group's count is not positive; a mesh it returns
    carries the material index and name it was given, one local index per
    index of the group, and buffers of consistent sizes: three normals and
    two texture coordinates per vertex, colours (four per vertex) exactly
    when the geometry has a colour attribute, and texture coordinates that
    are all zero when the geometry has none. *)
Theorem extractSubMesh_buffers {F : Type} (zero one : F) (fround : F -> F)
    (geo : ModelParser.BufferGeometry F)
    (startIndex count materialIndex : Z) (materialName : string) :
  (ModelParser.extractSubMesh F zero one fround geo startIndex count
     materialIndex materialName = None <->
   ModelParser.index F geo = None \/ count <= 0) /\
  (forall mesh,
     ModelParser.extractSubMesh F zero one fround geo startIndex count
       materialIndex materialName = Some mesh ->
     Store.materialIndex mesh = materialIndex /\
     Store.materialName mesh = materialName /\
     length (Store.indices mesh) = Z.to_nat count /\
     length (Store.normals mesh) = length (Store.positions mesh) /\
     (3 * length (Store.uvs mesh) = 2 * length (Store.positions mesh))%nat /\
     (ModelParser.color F geo = None <-> Store.colors mesh = None) /\
     (forall c, Store.colors mesh = Some c ->
        (3 * length c = 4 * length (Store.positions mesh))%nat) /\
     (ModelParser.uv F geo = None -> Forall (eq zero) (Store.uvs mesh))).
Proof.
  destruct (ModelParser.index F geo) as [src|] eqn:Hindex.
  - destruct (extractSubMesh_shape zero one fround geo src startIndex count
                materialIndex materialName Hindex) as [Hnone Hsome].
    destruct (decide (count <= 0)) as [Hc|Hc].
    + rewrite (Hnone Hc). split; [|done]. split; [by right|done].
    + destruct (Hsome ltac:(lia))
        as (mesh & -> & Hmi & Hmn & _ & Hlen & _ & Hp & Hn & Hu & Hcol & Huv).
      split.
      { split; [done|]. intros [?|?]; [done|lia]. }
      intros ? [= <-]. repeat split; try done; try lia.
      * intros Hcg. by rewrite Hcg in Hcol.
      * intros Hcm. destruct (ModelParser.color F geo); [|done].
        destruct Hcol as (c & Hc' & _). congruence.
      * intros c Hcm. destruct (ModelParser.color F geo).
        -- destruct Hcol as (c' & Hc' & Hl). rewrite Hcm in Hc'.
           injection Hc' as ->. lia.
        -- congruence.
  - unfold ModelParser.extractSubMesh. rewrite Hindex.
    split; [|done]. split; [by left|done].
Qed.

Section ModelInvariant.
Context {F : Type} (zero one : F) (fround : F -> F).
Context (computeVertexNormals :
           ModelParser.BufferGeometry F -> ModelParser.BufferAttribute F).

#[local] Abbreviation visit_group := (visit_one zero one fround).

Lemma visit_one_out (st : ModelParser.State F) v :
  let matName := ModelParser.materialNameOf (pick v) (ModelParser.names F st) in
  let st' := visit_group st v in
  ModelParser.out F st' =
  match ModelParser.extractSubMesh F zero one fround v.1.1
          (ModelParser.start v.2) (ModelParser.group_count v.2)
          (default 0 (JSMap.get (ModelParser.materialMap F st') matName)) matName with
  | Some m => ModelParser.out F st ++ [m]
  | None => ModelParser.out F st
  end.
Proof.
  unfold visit_one, ModelParser.visitGroup. cbv zeta. fold (pick v).
  by destruct (JSMap.has _ _).
Qed.

Lemma visit_one_indexed (st : ModelParser.State F) v :
  names_ok st ->
  Forall (mesh_indexed (ModelParser.names F st)) (ModelParser.out F st) ->
  Forall (mesh_indexed (ModelParser.names F (visit_group st v)))
         (ModelParser.out F (visit_group st v)).
Proof.
  intros Hok Hall.
  destruct (visit_one_names zero one fround st v Hok) as [[Hmap' Hnd'] Hnames].
  cbv zeta in Hnames.
  pose proof (visit_one_out st v) as Hout. cbv zeta in Hout.
  set (matName := ModelParser.materialNameOf (pick v) (ModelParser.names F st)) in *.
  set (st' := visit_group st v) in *.
  assert (Hold : Forall (mesh_indexed (ModelParser.names F st')) (ModelParser.out F st)).
  { eapply Forall_impl; [exact Hall|]. intros m [Hge Hm]. split; [done|].
    rewrite Hnames. destruct (decide _); [done|]. by apply lookup_app_l_Some. }
  rewrite Hout.
  destruct (ModelParser.extractSubMesh _ _ _ _ _ _ _ _ _) as [m|] eqn:Hm; [|done].
  apply Forall_app. split; [done|]. apply Forall_singleton.
  destruct (extractSubMesh_material zero one fround _ _ _ _ _ _ Hm) as [Hmi Hmn].
  assert (Hin : matName ∈ ModelParser.names F st').
  { rewrite Hnames. destruct (decide _); [done|].
    apply elem_of_app. right. by apply list_elem_of_singleton. }
  apply list_elem_of_lookup_1 in Hin as [k Hk].
  unfold mesh_indexed. rewrite Hmi, Hmn, Hmap'.
  rewrite (get_numbered_from 0 _ matName k) by done.
  change (default 0 (Some (0 + Z.of_nat k))) with (Z.of_nat k).
  split; [lia|]. by rewrite Nat2Z.id.
Qed.

Lemma scene_indexed (root : ModelParser.Object3D F) :
  let st := foldl (ModelParser.visit F zero one fround computeVertexNormals)
                  (ModelParser.mkState F [] [] []) (ModelParser.traverse F root) in
  names_ok st /\
  Forall (mesh_indexed (ModelParser.names F st)) (ModelParser.out F st).
Proof.
  cbv zeta. rewrite foldl_visit_flat.
  apply (foldl_invariant
           (fun st => names_ok st /\
                      Forall (mesh_indexed (ModelParser.names F st)) (ModelParser.out F st))).
  - intros st v [Hok Hall]. split.
    + by apply (visit_one_names zero one fround st v).
    + by apply visit_one_indexed.
  - split; [split; [done|apply NoDup_nil_2]|done].
Qed.

Lemma prepare_indexed (geo : ModelParser.BufferGeometry F) :
  ModelParser.index F (ModelParser.prepare F computeVertexNormals geo) <> None.
Proof.
  unfold ModelParser.prepare.
  destruct (ModelParser.index F geo) eqn:Hi; cbn [ModelParser.normal ModelParser.index];
    destruct (ModelParser.normal F geo); cbn [ModelParser.index]; by rewrite ?Hi.
Qed.

Lemma scene_visits_indexed (root : ModelParser.Object3D F) :
  Forall (fun v => ModelParser.index F v.1.1 <> None)
         (scene_visits computeVertexNormals root).
Proof.
  unfold scene_visits. apply Forall_flat_map, Forall_forall. intros o _.
  unfold node_visits. destruct (ModelParser.node_mesh F o) as [child|]; [|done].
  cbv zeta. apply Forall_forall. intros v Hv.
  apply list_elem_of_fmap in Hv as (g & -> & _). apply prepare_indexed.
Qed.

Lemma visit_one_count (st : ModelParser.State F) v :
  ModelParser.index F v.1.1 <> None ->
  length (ModelParser.out F (visit_group st v)) =
  (length (ModelParser.out F st) +
   length (filter (fun v => (0 < ModelParser.group_count v.2)%Z) [v]))%nat.
Proof.
  intros Hindex. rewrite visit_one_out.
  match goal with
  | |- context [ModelParser.extractSubMesh F zero one fround ?g ?s ?c ?mi ?mn] =>
      pose proof (extractSubMesh_None_iff zero one fround g s c mi mn) as Hnone;
      destruct (ModelParser.extractSubMesh F zero one fround g s c mi mn) as [m|]
  end.
  - rewrite filter_cons_True.
    + rewrite length_app. done.
    + destruct (decide (0 < ModelParser.group_count v.2)); [done|].
      destruct Hnone as [_ Hnone]. discriminate Hnone. right. lia.
  - rewrite filter_cons_False; [simpl; lia|].
    destruct (proj1 Hnone eq_refl) as [?|?]; [done|lia].
Qed.

Lemma scene_count vs (st : ModelParser.State F) :
  Forall (fun v => ModelParser.index F v.1.1 <> None) vs ->
  length (ModelParser.out F (foldl visit_group st vs)) =
  (length (ModelParser.out F st) +
   length (filter (fun v => (0 < ModelParser.group_count v.2)%Z) vs))%nat.
Proof.
  revert st. induction vs as [|v vs IH]; intros st Hall; [simpl; lia|].
  apply Forall_cons in Hall as [Hv Hall]. cbn [foldl].
  rewrite IH, visit_one_count by done.
  change (v :: vs) with ([v] ++ vs). rewrite filter_app, length_app. lia.
Qed.
End ModelInvariant.

(** X15: in every Model the extractor returns the name is the file name
    without its extension, there is at least one mesh, the material names
    are pairwise distinct, and the material index of every mesh is the
    position in the material-name list at which the mesh's own material name
    stands. *)
Theorem extractModelData_material_index {F : Type} (zero one : F) (fround : F -> F)
    (computeVertexNormals : ModelParser.BufferGeometry F -> ModelParser.BufferAttribute F)
    (root : ModelParser.Object3D F) (filename : string) (model : Store.ParsedModel F) :
  ModelParser.extractModelData F zero one fround computeVertexNormals root filename
    = Ok model ->
  Store.model_name model = JS.stripExtension filename /\
  Store.meshes model <> [] /\
  NoDup (Store.materialNames model) /\
  Forall (mesh_indexed (Store.materialNames model)) (Store.meshes model).
Proof.
  unfold ModelParser.extractModelData. cbv zeta.
  destruct (scene_indexed zero one fround computeVertexNormals root) as [[_ Hnd] Hall].
  cbv zeta in Hnd, Hall.
  destruct (foldl _ _ _) as [mm ns outs]. cbn [ModelParser.names ModelParser.out] in *.
  destruct outs as [|m outs]; [done|].
  intros [= <-]. cbn [Store.model_name Store.meshes Store.materialNames].
  split; [done|]. split; [done|].
  destruct ns as [|n ns].
  - apply Forall_cons in Hall as [[_ Hm] _]. done.
  - done.
Qed.

Lemma extractModelData_material_index_witness :
  exists model,
    ModelParser.extractModelData Z 0 1 id (fun _ => example_positions)
      scene_without_materials "prop.obj" = Ok model /\
    Forall (mesh_indexed (Store.materialNames model)) (Store.meshes model).
Proof.
  eexists. split; [vm_compute; reflexivity|].
  refine (proj2 (proj2 (proj2
            (extractModelData_material_index 0 1 id (fun _ => example_positions)
               scene_without_materials "prop.obj" _ _)))).
  vm_compute. reflexivity.
Defined.

(** X16: the extractor returns one mesh per group of positive count of the
    scene (a mesh without groups counting as one group over its whole index
    buffer), and fails, with the error on missing geometry and no other,
    exactly when the scene has no such group. *)
Theorem extractModelData_mesh_per_group {F : Type} (zero one : F) (fround : F -> F)
    (computeVertexNormals : ModelParser.BufferGeometry F -> ModelParser.BufferAttribute F)
    (root : ModelParser.Object3D F) (filename : string) :
  let groups := filter (fun v => 0 < ModelParser.group_count v.2)
                       (scene_visits computeVertexNormals root) in
  match ModelParser.extractModelData F zero one fround computeVertexNormals
          root filename with
  | Ok model => length (Store.meshes model) = length groups /\ groups <> []
  | Throw e => e = NoMeshGeometry /\ groups = []
  end.
Proof.
  cbv zeta. unfold ModelParser.extractModelData. cbv zeta.
  pose proof (scene_count zero one fround (scene_visits computeVertexNormals root)
                (ModelParser.mkState F [] [] [])
                (scene_visits_indexed computeVertexNormals root)) as Hcount.
  rewrite foldl_visit_flat. fold (scene_visits computeVertexNormals root).
  destruct (foldl _ _ _) as [mm ns outs]. cbn [ModelParser.names ModelParser.out] in *.
  destruct outs as [|m outs].
  - split; [done|]. simpl in Hcount.
    by destruct (filter _ _).
  - cbn [Store.meshes]. split; [done|]. intros E. rewrite E in Hcount. done.
Qed.

Section Unindexed.
Context {F : Type} (zero one : F) (fround : F -> F).
Context (computeVertexNormals :
           ModelParser.BufferGeometry F -> ModelParser.BufferAttribute F).

Lemma remap_of_distinct (l : list (option Z)) :
  NoDup l ->
  foldl ModelParser.remapStep ([], []) l =
  (numbered_from 0 l, Z.of_nat <$> seq 0 (length l)).
Proof.
  induction l as [|x l IH] using rev_ind; [done|].
  intros Hnd. apply NoDup_app in Hnd as (Hl & Hx & _).
  rewrite foldl_app, (IH Hl). cbn [foldl ModelParser.remapStep].
  assert (Hno : x ∉ l).
  { intros Hin. apply (Hx x Hin). by apply list_elem_of_singleton. }
  rewrite has_numbered_from by done.
  rewrite bool_decide_eq_false_2 by done.
  rewrite set_numbered_from_absent by done.
  rewrite <- (Z.add_0_l (JSMap.size (numbered_from 0 l))).
  unfold JSMap.size at 1 2. rewrite length_numbered_from.
  rewrite <- numbered_from_snoc.
  rewrite (get_numbered_from 0 (l ++ [x]) x (length l)).
  - rewrite length_app. cbn [length]. rewrite Nat.add_1_r, seq_S, fmap_app.
    by rewrite Z.add_0_l.
  - apply NoDup_app. split; [done|]. split; [|apply NoDup_singleton].
    intros y Hy. rewrite list_elem_of_singleton. by intros ->.
  - by rewrite lookup_app_r, Nat.sub_diag.
Qed.

Lemma seqZ_0 (n : nat) : seqZ 0 (Z.of_nat n) = Z.of_nat <$> seq 0 n.
Proof.
  unfold seqZ. rewrite Nat2Z.id. apply list_fmap_ext. intros i x _. lia.
Qed.

Lemma identity_partition (n : nat) :
  partition_indices (seqZ 0 (Z.of_nat n)) 0 (Z.of_nat n) = Some <$> seqZ 0 (Z.of_nat n).
Proof.
  unfold partition_indices. apply list_fmap_ext. intros i x Hx.
  apply lookup_seqZ in Hx as [-> Hi]. unfold TypedArray.get.
  rewrite decide_True by lia. apply lookup_seqZ. split; lia.
Qed.
End Unindexed.

(** X17: a mesh whose geometry has neither an index buffer nor groups (and
    at least one vertex) contributes exactly one mesh, over the synthesized
    identity index buffer: its indices are 0, 1, ..., n-1 and its positions
    are the n source vertices in their order, nothing being merged; it is
    named after the first material of the node. *)
Theorem unindexed_mesh_identity {F : Type} (zero one : F) (fround : F -> F)
    (computeVertexNormals : ModelParser.BufferGeometry F -> ModelParser.BufferAttribute F)
    (child : ModelParser.Mesh F) (children : list (ModelParser.Object3D F))
    (st : ModelParser.State F) :
  let geo := ModelParser.geometry F child in
  let n := ModelParser.count F (ModelParser.position F geo) in
  ModelParser.index F geo = None ->
  ModelParser.groups F geo = [] ->
  0 < n ->
  exists mesh,
    ModelParser.out F (ModelParser.visit F zero one fround computeVertexNormals st
                         (ModelParser.Node F (Some child) children))
      = ModelParser.out F st ++ [mesh] /\
    Store.indices mesh = seqZ 0 n /\
    Store.positions mesh =
      flat_map (vertex_position fround (ModelParser.position F geo)) (Some <$> seqZ 0 n) /\
    length (Store.positions mesh) = Z.to_nat (3 * n) /\
    Store.materialName mesh =
      ModelParser.materialNameOf
        (ModelParser.pickMaterial (ModelParser.materialsOf F child) 0)
        (ModelParser.names F st).
Proof.
  intros geo n Hindex Hgroups Hn.
  set (geo' := ModelParser.prepare F computeVertexNormals geo).
  assert (Hprep : ModelParser.index F geo' = Some (seqZ 0 n) /\
                  ModelParser.groups F geo' = [] /\
                  ModelParser.position F geo' = ModelParser.position F geo).
  { unfold geo', ModelParser.prepare. rewrite Hindex.
    cbn [ModelParser.normal ModelParser.index].
    destruct (ModelParser.normal F geo);
      cbn [ModelParser.index ModelParser.groups ModelParser.position]; by rewrite ?Hgroups. }
  destruct Hprep as (Hindex' & Hgroups' & Hpos').
  unfold ModelParser.visit. cbn [ModelParser.node_mesh]. cbv zeta.
  fold geo. fold geo'.
  unfold ModelParser.groupsOf. rewrite Hgroups', Hindex'. cbn [default from_option id].
  rewrite length_seqZ, Z2Nat.id by lia. cbn [foldl].
  pose proof (visit_one_out zero one fround st
                (geo', ModelParser.materialsOf F child,
                 ModelParser.mkGroup 0 n (Some 0))) as Hout.
  cbv zeta in Hout. unfold visit_one in Hout at 1 2.
  cbn [fst snd ModelParser.start ModelParser.group_count] in Hout.
  rewrite Hout. clear Hout.
  match goal with
  | |- context [ModelParser.extractSubMesh F zero one fround geo' 0 n ?mi ?mn] =>
      destruct (extractSubMesh_shape zero one fround geo' (seqZ 0 n) 0 n mi mn Hindex')
        as [_ Hsome];
      destruct (Hsome Hn) as (mesh & -> & _ & Hmn & Hidx & _ & Hpos & Hlen & _)
  end.
  exists mesh. split; [done|].
  rewrite <- (Z2Nat.id n) in Hidx, Hpos, Hlen by lia.
  rewrite identity_partition in Hidx, Hpos, Hlen.
  assert (Hnd : NoDup (Some <$> seqZ 0 (Z.of_nat (Z.to_nat n)))).
  { apply NoDup_fmap_2; [by intros ?? [= ->]|apply NoDup_seqZ]. }
  rewrite (remap_of_distinct _ Hnd) in Hidx, Hpos, Hlen. cbn [fst snd] in Hidx, Hpos, Hlen.
  rewrite length_fmap, length_seqZ, Nat2Z.id in Hidx.
  rewrite fst_numbered_from in Hpos.
  rewrite length_numbered_from, length_fmap, length_seqZ, Nat2Z.id in Hlen.
  rewrite Z2Nat.id in Hpos by lia.
  split; [by rewrite Hidx, <- seqZ_0, Z2Nat.id by lia|].
  split; [by rewrite Hpos, Hpos'|]. split; [lia|].
  rewrite Hmn. unfold pick. done.
Qed.

Lemma unindexed_mesh_identity_witness :
  exists mesh,
    ModelParser.out Z
      (ModelParser.visit Z 0 1 id (fun _ => example_positions)
         (ModelParser.mkState Z [] [] []) (ModelParser.Node Z (Some unindexed_mesh) []))
      = [mesh] /\
    Store.indices mesh = seqZ 0 10.
Proof.
  destruct (unindexed_mesh_identity 0 1 id (fun _ => example_positions)
              unindexed_mesh [] (ModelParser.mkState Z [] [] [])
              eq_refl eq_refl ltac:(vm_compute; reflexivity))
    as (mesh & Hout & Hidx & _).
  exists mesh. split; [exact Hout|exact Hidx].
Defined.

(** ** Shader catalog *)

#[local] Ltac decide_by_computation :=
  refine (bool_decide_unpack _ _); vm_compute; exact I.

(** X18: the catalog is consistent: no two shaders share a file name, so the
    lookup table returns for the file name of every shader of the list that
    very shader; the default shader is the first one and is what the table
    returns for [default.sps]; and for every shader a tangent is required
    exactly when it has a normal-map sampler, its sampler names are pairwise
    distinct and begin with the diffuse sampler, its category is one of the
    listed categories and its render bucket lies between 0 and 3. *)
Theorem shader_catalog_consistent :
  NoDup (map ShaderDefs.filename ShaderTable.ALL_SHADERS) /\
  ShaderTable.ALL_SHADERS !! 0%nat = Some ShaderDefs.DEFAULT_SHADER /\
  JSMap.get ShaderTable.SHADER_MAP "default.sps" = Some ShaderDefs.DEFAULT_SHADER /\
  forall s, s ∈ ShaderTable.ALL_SHADERS ->
    JSMap.get ShaderTable.SHADER_MAP (ShaderDefs.filename s) = Some s /\
    ShaderDefs.needsTangent s = bool_decide ("BumpSampler" ∈ sampler_names s) /\
    NoDup (sampler_names s) /\
    head (sampler_names s) = Some "DiffuseSampler" /\
    ShaderDefs.category s ∈ ShaderTable.SHADER_CATEGORIES /\
    0 <= ShaderDefs.renderBucket s <= 3.
Proof.
  split; [decide_by_computation|]. split; [reflexivity|].
  split; [vm_compute; reflexivity|].
  apply Forall_forall.
  repeat (apply Forall_cons; split;
          [split; [vm_compute; reflexivity|];
           split; [vm_compute; reflexivity|];
           split; [decide_by_computation|];
           split; [reflexivity|];
           split; [decide_by_computation|simpl; lia]|]).
  apply Forall_nil_2.
Qed.

(** ** Store: import and material edits *)

Section StoreLemmas.
Context {F : Type}.

Lemma property_get {V} (obj : list (string * V)) (key : string) :
  Store.property obj key = JSMap.get obj key.
Proof.
  induction obj as [|[k v] obj IH]; [done|]. cbn [Store.property JSMap.get].
  destruct (String.eqb_spec k key) as [->|Hne].
  - by rewrite decide_True.
  - by rewrite decide_False.
Qed.

Lemma at_index_Some {A} (l : list A) (index : Z) (a : A) :
  StoreActions.at_index l index = Some a <->
  0 <= index /\ l !! Z.to_nat index = Some a.
Proof.
  unfold StoreActions.at_index. destruct (decide (0 <= index)); [tauto|].
  split; [done|]. intros [? _]. lia.
Qed.

Lemma at_index_None {A} (l : list A) (index : Z) :
  StoreActions.at_index l index = None <->
  index < 0 \/ Z.of_nat (length l) <= index.
Proof.
  unfold StoreActions.at_index. destruct (decide (0 <= index)).
  - rewrite lookup_ge_None. lia.
  - split; [lia|done].
Qed.

Lemma word_chars_replaceNonWord (s : string) :
  JS.forall_chars is_word_char (YdrXml.replaceNonWord s) = true.
Proof.
  unfold YdrXml.replaceNonWord. induction s as [|c s IH]; [done|].
  cbn [JS.map_string JS.forall_chars]. rewrite IH, andb_true_r.
  fold (is_word_char c). by destruct (is_word_char c) eqn:Hc.
Qed.

Lemma extractModelData_indexed (zero one : F) (fround : F -> F)
    (computeVertexNormals : ModelParser.BufferGeometry F -> ModelParser.BufferAttribute F)
    (root : ModelParser.Object3D F) (filename : string) (model : Store.ParsedModel F) :
  ModelParser.extractModelData F zero one fround computeVertexNormals root filename
    = Ok model ->
  Forall (mesh_indexed (Store.materialNames model)) (Store.meshes model).
Proof.
  unfold ModelParser.extractModelData. cbv zeta.
  destruct (scene_indexed zero one fround computeVertexNormals root) as [_ Hall].
  cbv zeta in Hall.
  destruct (foldl _ _ _) as [mm ns outs]. cbn [ModelParser.names ModelParser.out] in *.
  destruct outs as [|m outs]; [done|].
  intros [= <-]. cbn [Store.meshes Store.materialNames].
  destruct ns as [|n ns]; [|done].
  apply Forall_cons in Hall as [[_ Hm] _]. done.
Qed.

Lemma for_each_no_textures {A} (body : A -> string * Store.TextureSlotData -> result A)
    (names : list string) (a : A) :
  Exporter.for_each (fun st mat => Exporter.for_each body st (Store.textures mat)) a
    (map (StoreActions.createDefaultMaterialConfig) names) = Ok a.
Proof. induction names as [|n names IH]; [done|]. simpl. exact IH. Qed.
End StoreLemmas.

(** X19: importing a model makes one material per material name of the
    model, in order, each on the default shader and without textures, keeps
    the model, and chooses an export name that is never empty and consists of
    letters, digits and underscores only. *)
Theorem importModel_defaults {F : Type} (state : StoreActions.AppState F)
    (model : Store.ParsedModel F) :
  let state' := StoreActions.importModel F state model in
  StoreActions.parsedModel F state' = Some model /\
  length (StoreActions.materials F state') = length (Store.materialNames model) /\
  (forall (i : nat) name, Store.materialNames model !! i = Some name ->
     StoreActions.materials F state' !! i =
       Some (Store.mkMaterialConfig name "default.sps" [])) /\
  StoreActions.exportName F state' <> "" /\
  JS.forall_chars is_word_char (StoreActions.exportName F state') = true.
Proof.
  cbv zeta. unfold StoreActions.importModel.
  cbn [StoreActions.parsedModel StoreActions.materials StoreActions.exportName].
  split; [done|]. split; [by rewrite length_map|]. split.
  - intros i name Hi. change (map ?f ?l) with (f <$> l).
    by rewrite list_lookup_fmap, Hi.
  - destruct (String.eqb_spec (YdrXml.replaceNonWord (JS.stripExtension (Store.model_name model))) "")
      as [He|Hne].
    + done.
    + split; [done|]. apply word_chars_replaceNonWord.
Qed.

(** X20: after a model the extractor returned is imported, the material
    index of each of its meshes selects a material of the store, and that
    material bears the mesh's material name. *)
Theorem imported_mesh_material {F : Type} (zero one : F) (fround : F -> F)
    (computeVertexNormals : ModelParser.BufferGeometry F -> ModelParser.BufferAttribute F)
    (root : ModelParser.Object3D F) (filename : string) (model : Store.ParsedModel F)
    (state : StoreActions.AppState F) :
  ModelParser.extractModelData F zero one fround computeVertexNormals root filename
    = Ok model ->
  forall mesh, mesh ∈ Store.meshes model ->
    exists mat,
      StoreActions.at_index
        (StoreActions.materials F (StoreActions.importModel F state model))
        (Store.materialIndex mesh) = Some mat /\
      Store.name mat = Store.materialName mesh.
Proof.
  intros Hmodel mesh Hmesh.
  pose proof (extractModelData_indexed zero one fround computeVertexNormals
                root filename model Hmodel) as Hall.
  rewrite Forall_forall in Hall. destruct (Hall mesh Hmesh) as [Hge Hname].
  eexists. split.
  - apply at_index_Some. split; [done|].
    unfold StoreActions.importModel. cbn [StoreActions.materials].
    change (map ?f ?l) with (f <$> l). by rewrite list_lookup_fmap, Hname.
  - done.
Qed.

Lemma imported_mesh_material_witness :
  exists model,
    ModelParser.extractModelData Z 0 1 id (fun _ => example_positions)
      scene_without_materials "prop.obj" = Ok model /\
    forall mesh, mesh ∈ Store.meshes model ->
      exists mat,
        StoreActions.at_index
          (StoreActions.materials Z
             (StoreActions.importModel Z (StoreActions.initial Z) model))
          (Store.materialIndex mesh) = Some mat /\
        Store.name mat = Store.materialName mesh.
Proof.
  eexists. split; [vm_compute; reflexivity|].
  apply (imported_mesh_material 0 1 id (fun _ => example_positions)
           scene_without_materials "prop.obj").
  vm_compute. reflexivity.
Defined.

(** X21: exporting a model right after its import converts nothing: for
    every decoder the export hands the serializer an empty texture list and
    puts the document, and no other file, into the archive. *)
Theorem export_of_fresh_import {F : Type}
    (loadImage : DdsEncoder.File -> option (Z * Z))
    (getImageData : DdsEncoder.File -> Z -> Z -> list Z)
    (generateYdrXml : string -> Store.ParsedModel F -> list Store.MaterialConfig ->
                      list YdrXml.TextureEntry -> string)
    (percentOf : Z -> Z -> Z)
    (state : StoreActions.AppState F) (model : Store.ParsedModel F) (name : string) :
  let materials := StoreActions.materials F (StoreActions.importModel F state model) in
  Exporter.exportYdr F loadImage getImageData generateYdrXml percentOf
    name model materials =
  Ok [ Exporter.OnProgress "Converting textures to DDS..." 5;
       Exporter.OnProgress "Generating YDR XML..." 70;
       Exporter.GenerateYdrXml [];
       Exporter.OnProgress "Creating ZIP archive..." 85;
       Exporter.ZipFileText (name +:+ ".ydr.xml") (generateYdrXml name model materials []);
       Exporter.OnProgress "Downloading..." 95;
       Exporter.SaveAs (name +:+ ".zip");
       Exporter.OnProgress "Export complete!" 100 ].
Proof.
  cbv zeta. unfold Exporter.exportYdr, StoreActions.importModel.
  cbn [StoreActions.materials]. cbv zeta.
  by rewrite for_each_no_textures.
Qed.

Section StoreEdits.
Context {F : Type}.

Lemma at_index_insert_eq {A} (l : list A) (index : Z) (a b : A) :
  StoreActions.at_index l index = Some a ->
  StoreActions.at_index (<[Z.to_nat index := b]> l) index = Some b.
Proof.
  intros H. apply at_index_Some in H as [Hge Hl]. apply at_index_Some.
  split; [done|]. apply list_lookup_insert_eq. by eapply lookup_lt_Some.
Qed.

Lemma at_index_insert_ne {A} (l : list A) (index j : Z) (b : A) :
  0 <= index -> j <> index ->
  StoreActions.at_index (<[Z.to_nat index := b]> l) j = StoreActions.at_index l j.
Proof.
  intros Hge Hne. unfold StoreActions.at_index. destruct (decide (0 <= j)); [|done].
  apply list_lookup_insert_ne. lia.
Qed.

Lemma get_insert_index {V} (obj : list (string * V)) (n : Z) (key key' : string) (v : V) :
  JSMap.get obj key = None ->
  JSMap.get (StoreActions.insert_index obj n key v) key' =
  if decide (key = key') then Some v else JSMap.get obj key'.
Proof.
  induction obj as [|[k0 v0] obj IH]; intros Hno.
  - cbn [StoreActions.insert_index JSMap.get]. by destruct (decide (key = key')).
  - cbn [JSMap.get] in Hno. destruct (decide (k0 = key)) as [|Hk0]; [done|].
    cbn [StoreActions.insert_index].
    destruct (StoreActions.array_index k0) as [n'|].
    + destruct (decide (n' < n)).
      * cbn [JSMap.get]. rewrite (IH Hno).
        destruct (decide (k0 = key')) as [->|]; [|done].
        by rewrite decide_False by congruence.
      * cbn [JSMap.get]. by destruct (decide (key = key')).
    + cbn [JSMap.get]. by destruct (decide (key = key')).
Qed.

Lemma get_assign {V} (obj : list (string * V)) (key key' : string) (v : V) :
  JSMap.get (StoreActions.assign obj key v) key' =
  if decide (key = key') then Some v else JSMap.get obj key'.
Proof.
  assert (Hset : JSMap.get (JSMap.set obj key v) key' =
                 if decide (key = key') then Some v else JSMap.get obj key').
  { destruct (decide (key = key')) as [<-|Hne]; [apply get_set_eq|by apply get_set_ne]. }
  unfold StoreActions.assign. destruct (StoreActions.array_index key) as [n|]; [|done].
  unfold JSMap.has. destruct (JSMap.get obj key) eqn:Hget; [done|].
  by apply get_insert_index.
Qed.

Lemma kept_textures (old : list (string * Store.TextureSlotData))
    (params : list ShaderDefs.TextureParam) (key : string) :
  forall acc,
    JSMap.get
      (foldl (fun newTextures param =>
                match Store.property old (ShaderDefs.tp_name param) with
                | Some slot =>
                    StoreActions.assign newTextures (ShaderDefs.tp_name param) slot
                | None => newTextures
                end) acc params) key =
    if decide (key ∈ map ShaderDefs.tp_name params) then
      match JSMap.get old key with
      | Some slot => Some slot
      | None => JSMap.get acc key
      end
    else JSMap.get acc key.
Proof.
  induction params as [|p params IH] using rev_ind; intros acc.
  - cbn [foldl map]. rewrite decide_False; [done|]. apply not_elem_of_nil.
  - rewrite foldl_app. cbn [foldl]. rewrite property_get, map_app. cbn [map].
    destruct (decide (ShaderDefs.tp_name p = key)) as [<-|Hne].
    + rewrite (decide_True (P := _ ∈ _ ++ _)).
      2:{ apply elem_of_app. right. by apply list_elem_of_singleton. }
      destruct (JSMap.get old (ShaderDefs.tp_name p)) as [slot|] eqn:Hold.
      * rewrite get_assign. by rewrite decide_True.
      * rewrite IH. by destruct (decide _).
    + assert (Hiff : key ∈ map ShaderDefs.tp_name params ++ [ShaderDefs.tp_name p] <->
                     key ∈ map ShaderDefs.tp_name params).
      { rewrite elem_of_app, list_elem_of_singleton.
        split; [intros [?|?]; [done|congruence]|by left]. }
      destruct (JSMap.get old (ShaderDefs.tp_name p)) as [slot|].
      * rewrite get_assign, decide_False by done. rewrite IH.
        destruct (decide (key ∈ map ShaderDefs.tp_name params)) as [Hin|Hno].
        -- rewrite decide_True by (by apply Hiff). done.
        -- rewrite decide_False by (by rewrite Hiff). done.
      * rewrite IH.
        destruct (decide (key ∈ map ShaderDefs.tp_name params)) as [Hin|Hno].
        -- rewrite decide_True by (by apply Hiff). done.
        -- rewrite decide_False by (by rewrite Hiff). done.
Qed.

(** A sampler named like an array index is listed before the others, as the
    property order of the object has it. *)
Example assign_orders_index_keys (a b : Store.TextureSlotData) :
  StoreActions.assign [("b", a)] "7" b = [("7", b); ("b", a)] /\
  StoreActions.assign [("7", a)] "b" b = [("7", a); ("b", b)] /\
  StoreActions.assign [("10", a); ("b", a)] "7" b = [("7", b); ("10", a); ("b", a)] /\
  StoreActions.assign [("7", a); ("b", a)] "07" b = [("7", a); ("b", a); ("07", b)].
Proof. repeat split; by vm_compute. Qed.

Lemma get_of_entries {V} (key : V -> string) (l : list V) :
  NoDup (map key l) ->
  forall k s,
    JSMap.get (foldl (fun m s => JSMap.set m (key s) s) [] l) k = Some s <->
    s ∈ l /\ key s = k.
Proof.
  induction l as [|x l IH] using rev_ind; intros Hnd k s.
  - simpl. split; [done|]. intros [Hs _]. by apply elem_of_nil in Hs.
  - rewrite map_app in Hnd. apply NoDup_app in Hnd as (Hl & Hx & _).
    rewrite foldl_app. cbn [foldl].
    destruct (decide (key x = k)) as [<-|Hne].
    + rewrite get_set_eq. split.
      * intros [= ->]. split; [|done]. apply elem_of_app. right.
        by apply list_elem_of_singleton.
      * intros [Hs Hk]. apply elem_of_app in Hs as [Hs|Hs].
        -- exfalso. apply (Hx (key s)).
           ++ apply list_elem_of_fmap. by exists s.
           ++ rewrite Hk. apply list_elem_of_singleton. done.
        -- apply list_elem_of_singleton in Hs. by subst.
    + rewrite get_set_ne by done. rewrite (IH Hl). split.
      * intros [Hs Hk]. split; [|done]. apply elem_of_app. by left.
      * intros [Hs Hk]. split; [|done]. apply elem_of_app in Hs as [Hs|Hs]; [done|].
        apply list_elem_of_singleton in Hs. by subst.
Qed.

Lemma SHADER_MAP_get (shaderFilename : string) (s : ShaderDefs.ShaderDef) :
  JSMap.get ShaderTable.SHADER_MAP shaderFilename = Some s <->
  s ∈ ShaderTable.ALL_SHADERS /\ ShaderDefs.filename s = shaderFilename.
Proof.
  apply (get_of_entries ShaderDefs.filename). decide_by_computation.
Qed.
End StoreEdits.

(** X22: assigning a texture to a sampler of the material at [index] is read
    back from that sampler, leaves every other sampler of the material, its
    name and its shader as they were, and leaves every other material
    untouched; with an index outside the material list the state does not
    change. *)
Theorem updateMaterialTexture_lookup {F : Type} (state : StoreActions.AppState F)
    (index : Z) (samplerName : string) (data : Store.TextureSlotData) :
  let state' := StoreActions.updateMaterialTexture F state index samplerName data in
  (index < 0 \/ Z.of_nat (length (StoreActions.materials F state)) <= index ->
   state' = state) /\
  (forall mat,
     StoreActions.at_index (StoreActions.materials F state) index = Some mat ->
     exists mat',
       StoreActions.at_index (StoreActions.materials F state') index = Some mat' /\
       Store.name mat' = Store.name mat /\
       Store.shaderName mat' = Store.shaderName mat /\
       Store.property (Store.textures mat') samplerName = Some data /\
       (forall key, key <> samplerName ->
          Store.property (Store.textures mat') key =
          Store.property (Store.textures mat) key) /\
       (forall j, j <> index ->
          StoreActions.at_index (StoreActions.materials F state') j =
          StoreActions.at_index (StoreActions.materials F state) j) /\
       length (StoreActions.materials F state') =
         length (StoreActions.materials F state)).
Proof.
  cbv zeta. unfold StoreActions.updateMaterialTexture. split.
  - intros Hout. apply at_index_None in Hout. by rewrite Hout.
  - intros mat Hmat. rewrite Hmat. cbn [StoreActions.materials].
    pose proof (proj1 (at_index_Some _ _ _) Hmat) as [Hge _].
    eexists. split; [by eapply at_index_insert_eq|].
    cbn [Store.name Store.shaderName Store.textures].
    split; [done|]. split; [done|]. split.
    { rewrite property_get, get_assign. by rewrite decide_True. }
    split; [|split].
    + intros key Hne. rewrite !property_get, get_assign. by rewrite decide_False.
    + intros j Hj. by apply at_index_insert_ne.
    + apply length_insert.
Qed.

(** X23: changing the shader of the material at [index] to a shader of the
    catalog sets the material's shader name, keeps its name, and keeps of its
    textures exactly those on a sampler the new shader has, each with the
    assignment it had; the other materials are untouched. With an index
    outside the material list, or a file name that is not in the catalog,
    the state does not change. *)
Theorem updateMaterialShader_prunes {F : Type} (state : StoreActions.AppState F)
    (index : Z) (shaderFilename : string) :
  let state' := StoreActions.updateMaterialShader F state index shaderFilename in
  (index < 0 \/ Z.of_nat (length (StoreActions.materials F state)) <= index \/
   (forall s, s ∈ ShaderTable.ALL_SHADERS -> ShaderDefs.filename s <> shaderFilename) ->
   state' = state) /\
  (forall mat s,
     StoreActions.at_index (StoreActions.materials F state) index = Some mat ->
     s ∈ ShaderTable.ALL_SHADERS -> ShaderDefs.filename s = shaderFilename ->
     exists mat',
       StoreActions.at_index (StoreActions.materials F state') index = Some mat' /\
       Store.name mat' = Store.name mat /\
       Store.shaderName mat' = shaderFilename /\
       (forall key,
          Store.property (Store.textures mat') key =
          if decide (key ∈ sampler_names s)
          then Store.property (Store.textures mat) key else None) /\
       (forall j, j <> index ->
          StoreActions.at_index (StoreActions.materials F state') j =
          StoreActions.at_index (StoreActions.materials F state) j) /\
       length (StoreActions.materials F state') =
         length (StoreActions.materials F state)).
Proof.
  cbv zeta. unfold StoreActions.updateMaterialShader. split.
  - intros Hout.
    destruct (StoreActions.at_index _ index) as [mat|] eqn:Hmat; [|done].
    destruct (JSMap.get ShaderTable.SHADER_MAP shaderFilename) as [s|] eqn:Hs; [|done].
    exfalso. apply SHADER_MAP_get in Hs as [Hin Hname].
    destruct Hout as [Hneg|[Hbig|Hunknown]].
    + assert (StoreActions.at_index (StoreActions.materials F state) index = None) as E
        by (apply at_index_None; by left).
      congruence.
    + assert (StoreActions.at_index (StoreActions.materials F state) index = None) as E
        by (apply at_index_None; by right).
      congruence.
    + by apply (Hunknown s).
  - intros mat s Hmat Hin Hname. rewrite Hmat.
    rewrite (proj2 (SHADER_MAP_get shaderFilename s) (conj Hin Hname)).
    cbv zeta. cbn [StoreActions.materials].
    pose proof (proj1 (at_index_Some _ _ _) Hmat) as [Hge _].
    eexists. split; [by eapply at_index_insert_eq|].
    cbn [Store.name Store.shaderName Store.textures].
    split; [done|]. split; [done|]. split; [|split].
    + intros key. rewrite !property_get, kept_textures. unfold sampler_names.
      destruct (decide _); [|done]. by destruct (JSMap.get (Store.textures mat) key).
    + intros j Hj. by apply at_index_insert_ne.
    + apply length_insert.
Qed.

(** ** Export orchestrator: the archive and the document *)

Section Archive.
Context (loadImage : DdsEncoder.File -> option (Z * Z)).
Context (getImageData : DdsEncoder.File -> Z -> Z -> list Z).
Context (percentOf : Z -> Z -> Z).

Lemma append_inj_r (a b s : string) : a +:+ s = b +:+ s -> a = b.
Proof.
  revert b. induction a as [|c a IH]; intros [|c' b] H.
  - done.
  - apply (f_equal String.length) in H. rewrite !length_append in H. simpl in H. lia.
  - apply (f_equal String.length) in H. rewrite !length_append in H. simpl in H. lia.
  - simpl in H. injection H as -> H. f_equal. by apply IH.
Qed.

Lemma get_Some_key {V} (m : list (string * V)) (k : string) (v : V) :
  JSMap.get m k = Some v -> k ∈ map fst m.
Proof.
  induction m as [|[k' v'] m IH]; [done|]. cbn [JSMap.get map fst].
  destruct (decide (k' = k)) as [->|Hne].
  - intros _. apply elem_of_cons. by left.
  - intros H. apply elem_of_cons. right. by apply IH.
Qed.

Lemma get_None_key {V} (m : list (string * V)) (k : string) :
  JSMap.get m k = None ->
  (k ∉ map fst m) /\ (forall v, JSMap.set m k v = m ++ [(k, v)]).
Proof.
  induction m as [|[k' v'] m IH]; [intros _; split; [apply not_elem_of_nil|done]|].
  cbn [JSMap.get JSMap.set map fst].
  destruct (decide (k' = k)) as [->|Hne]; [done|].
  intros H. destruct (IH H) as [Hno Hset]. split.
  - apply not_elem_of_cons. by split.
  - intros v. cbn [app]. by rewrite Hset.
Qed.

Lemma convertSlot_archived (total : Z) (st : Exporter.State)
    (s : string * Store.TextureSlotData) :
  archived st ->
  exists st',
    Exporter.convertSlot loadImage getImageData percentOf total st s = Ok st' /\
    archived st'.
Proof.
  intros (Hnd & Hdds & Hproc & Hent & Hfile & Htrace).
  destruct s as [samplerName slotData]. unfold Exporter.convertSlot.
  destruct (Store.file slotData) as [file|]; [|by exists st].
  cbv zeta.
  set (texName := YdrXml.sanitizeTextureName (DdsEncoder.file_name file)).
  destruct (JSMap.get (Exporter.processedTextures st) texName) as [existing|] eqn:Hget.
  - eexists. split; [reflexivity|].
    destruct (Hproc _ _ Hget) as [Hname Hfn].
    unfold archived.
    cbn [Exporter.processedTextures Exporter.ddsFiles Exporter.textureEntries
         Exporter.trace].
    split; [done|]. split; [done|]. split; [done|]. split; [|split; [|done]].
    + intros e He. apply elem_of_app in He as [He|He]; [by apply Hent|].
      apply list_elem_of_singleton in He. subst e. cbn [YdrXml.fileName YdrXml.name].
      split; [by rewrite Hfn, Hname|].
      rewrite Hdds, Hfn. apply list_elem_of_fmap. exists texName.
      split; [done|]. by eapply get_Some_key.
    + intros fn Hfn'. destruct (Hfile fn Hfn') as (e & He & Hefn).
      exists e. split; [|done]. apply elem_of_app. by left.
  - destruct (get_None_key _ _ Hget) as [Hno Hset].
    unfold Exporter.try_catch.
    destruct (Exporter.encodeToDds loadImage getImageData file) as [r|err];
      cbn [bind]; (eexists; split; [reflexivity|]); unfold archived;
      cbn [Exporter.processedTextures Exporter.ddsFiles Exporter.textureEntries
           Exporter.trace].
    + rewrite Hset, !map_app. cbn [map fst].
      split; [|split; [|split; [|split; [|split]]]].
      * apply NoDup_app. split; [done|]. split; [|apply NoDup_singleton].
        intros x Hx. rewrite list_elem_of_singleton. by intros ->.
      * by rewrite Hdds.
      * intros k e. destruct (decide (texName = k)) as [<-|Hne].
        -- rewrite <- Hset, get_set_eq. by intros [= <-].
        -- rewrite <- Hset, get_set_ne by done. apply Hproc.
      * intros e He. apply elem_of_app in He as [He|He].
        -- destruct (Hent e He) as [Hfn Hin]. split; [done|].
           apply elem_of_app. by left.
        -- apply list_elem_of_singleton in He. subst e.
           cbn [YdrXml.fileName YdrXml.name]. split; [done|].
           apply elem_of_app. right. by apply list_elem_of_singleton.
      * intros fn Hfn. apply elem_of_app in Hfn as [Hfn|Hfn].
        -- destruct (Hfile fn Hfn) as (e & He & Hefn).
           exists e. split; [|done]. apply elem_of_app. by left.
        -- apply list_elem_of_singleton in Hfn. subst fn.
           eexists. split; [apply elem_of_app; right; by apply list_elem_of_singleton|].
           done.
      * apply Forall_app. split; [done|]. by apply Forall_singleton.
    + split; [done|]. split; [done|]. split; [done|]. split; [done|]. split; [done|].
      rewrite <- app_assoc. apply Forall_app. split; [done|].
      by repeat constructor.
Qed.

Lemma archive_paths_app (a b : list Exporter.event) :
  archive_paths (a ++ b) = archive_paths a ++ archive_paths b.
Proof. apply omap_app. Qed.

Lemma documented_app (a b : list Exporter.event) :
  documented (a ++ b) = documented a ++ documented b.
Proof. unfold documented. by rewrite omap_app, concat_app. Qed.

Lemma archive_paths_single (e : Exporter.event) :
  archive_paths [e] = match e with Exporter.ZipFileData p _ => [p] | _ => [] end.
Proof. by destruct e. Qed.

Lemma documented_single (e : Exporter.event) :
  documented [e] = match e with Exporter.GenerateYdrXml ts => ts | _ => [] end.
Proof. destruct e; try done. unfold documented. simpl. apply app_nil_r. Qed.

Lemma conversion_events_silent (log : list Exporter.event) :
  Forall conversion_event log -> archive_paths log = [] /\ documented log = [].
Proof.
  induction 1 as [|e log He _ [IH1 IH2]]; [done|].
  destruct e; try done; by split.
Qed.

Lemma zip_files_logged (name : string) (files : list (string * list Z)) :
  forall log,
    let log' := foldl (fun log '(fileName, data) =>
                         log ++ [Exporter.ZipFileData (name +:+ "/" +:+ fileName) data])
                      log files in
    archive_paths log' =
      archive_paths log ++ map (fun fileName => name +:+ "/" +:+ fileName) (map fst files) /\
    documented log' = documented log.
Proof.
  induction files as [|[fn d] files IH]; intros log.
  - cbv zeta. simpl. by rewrite app_nil_r.
  - cbv zeta. cbn [foldl map fst]. destruct (IH (log ++ [Exporter.ZipFileData (name +:+ "/" +:+ fn) d]))
      as [IH1 IH2]. cbv zeta in IH1, IH2. rewrite IH1, IH2.
    rewrite archive_paths_app, documented_app, <- app_assoc. split; [done|].
    unfold documented. simpl. by rewrite app_nil_r.
Qed.
End Archive.

(** X24: whatever the decoder does, the archive and the document of an
    export agree: no archive path is written twice, the file of every
    Texture Entry handed to the serializer is in the archive, every texture
    file in the archive belongs to such an entry, and the file of an entry is
    the entry's name with the extension [dds], under the folder of the
    export name. *)
Theorem export_archive_matches_document {F : Type}
    (loadImage : DdsEncoder.File -> option (Z * Z))
    (getImageData : DdsEncoder.File -> Z -> Z -> list Z)
    (generateYdrXml : string -> Store.ParsedModel F -> list Store.MaterialConfig ->
                      list YdrXml.TextureEntry -> string)
    (percentOf : Z -> Z -> Z)
    (name : string) (model : Store.ParsedModel F) (materials : list Store.MaterialConfig) :
  exists log,
    Exporter.exportYdr F loadImage getImageData generateYdrXml percentOf
      name model materials = Ok log /\
    NoDup (archive_paths log) /\
    (forall e, e ∈ documented log ->
       YdrXml.fileName e = YdrXml.name e +:+ ".dds" /\
       name +:+ "/" +:+ YdrXml.fileName e ∈ archive_paths log) /\
    (forall path, path ∈ archive_paths log ->
       exists e, e ∈ documented log /\ path = name +:+ "/" +:+ YdrXml.fileName e).
Proof.
  unfold Exporter.exportYdr. cbv zeta. rewrite for_each_flat_map.
  destruct (for_each_total (fun _ st => archived st)
              (Exporter.convertSlot loadImage getImageData percentOf
                 (Exporter.countTextures materials))
              (flat_map Store.textures materials)
              (fun _ x st => convertSlot_archived loadImage getImageData percentOf _ st x)
              [] (Exporter.mkState [] [] [] 0
                    [Exporter.OnProgress "Converting textures to DDS..." 5]))
    as (st & -> & Hnd & Hdds & Hproc & Hent & Hfile & Htrace).
  { unfold archived. cbn. split; [apply NoDup_nil_2|]. split; [done|]. split; [done|].
    split; [intros e He; by apply elem_of_nil in He|].
    split; [intros fn Hfn; by apply elem_of_nil in Hfn|]. by repeat constructor. }
  cbn [bind]. eexists. split; [reflexivity|].
  destruct (conversion_events_silent _ Htrace) as [Hp Hd].
  match goal with
  | |- context [foldl ?f ?log0 (Exporter.ddsFiles st)] =>
      destruct (zip_files_logged name (Exporter.ddsFiles st) log0) as [Hzp Hzd]
  end.
  cbv zeta in Hzp, Hzd.
  rewrite !archive_paths_app, Hp in Hzp. rewrite !documented_app, Hd in Hzd.
  rewrite !archive_paths_app, !documented_app, Hzp, Hzd.
  rewrite !archive_paths_single, !documented_single. cbn [app]. rewrite !app_nil_r.
  split; [|split].
  - rewrite Hdds. change (map ?f ?l) with (f <$> l). rewrite <- list_fmap_compose.
    apply NoDup_fmap_2; [|done].
    intros a b Hab. cbn in Hab. apply append_inj_l in Hab.
    injection Hab as Hab. exact (append_inj_r a b ".dds" Hab).
  - intros e He. destruct (Hent e He) as [Hfn Hin]. split; [done|].
    apply list_elem_of_fmap. by exists (YdrXml.fileName e).
  - intros path Hpath. apply list_elem_of_fmap in Hpath as (fn & -> & Hfn).
    destruct (Hfile fn Hfn) as (e & He & <-). by exists e.
Qed.

(** ** Texture codec: the 4x4 blocks *)

Section Blocks.
Import DdsEncoder TypedArray.

(** The bytes [extractBlock] stores for the texel [(x, y)] of a block. *)
Lemma extractBlock_unfold (data : list Z) (width height px py : Z) :
  extractBlock data width height px py =
  flat_map (fun y =>
    flat_map (fun x =>
      let srcOff := (Z.min (py + y) (height - 1) * width + Z.min (px + x) (width - 1)) * 4 in
      [ u8 (rd data srcOff); u8 (rd data (srcOff + 1));
        u8 (rd data (srcOff + 2)); u8 (rd data (srcOff + 3)) ])
      [0; 1; 2; 3])
    [0; 1; 2; 3].
Proof. reflexivity. Qed.

Lemma small_cases (x : Z) : 0 <= x < 4 -> x = 0 \/ x = 1 \/ x = 2 \/ x = 3.
Proof. lia. Qed.

Lemma extractBlock_texel (data : list Z) (width height px py x y c : Z) :
  0 <= x < 4 -> 0 <= y < 4 -> 0 <= c < 4 ->
  get (extractBlock data width height px py) ((y * 4 + x) * 4 + c) =
  Some (u8 (rd data ((Z.min (py + y) (height - 1) * width +
                      Z.min (px + x) (width - 1)) * 4 + c))).
Proof.
  intros Hx Hy Hc. rewrite extractBlock_unfold.
  destruct (small_cases c Hc) as [->|[->|[->| ->]]]; rewrite ?Z.add_0_r;
    destruct (small_cases x Hx) as [->|[->|[->| ->]]];
    destruct (small_cases y Hy) as [->|[->|[->| ->]]];
    reflexivity.
Qed.

Lemma byte_at (data : list Z) (i : Z) :
  Forall (fun b => 0 <= b < 256) data ->
  0 <= i < Z.of_nat (length data) ->
  exists v, get data i = Some v /\ u8 (rd data i) = v /\ 0 <= v < 256.
Proof.
  intros Hbytes Hi. unfold rd, get. rewrite decide_True by lia.
  destruct (lookup_lt_is_Some_2 data (Z.to_nat i)) as [v Hv]; [lia|].
  exists v. rewrite Hv. split; [done|].
  rewrite Forall_forall in Hbytes.
  assert (0 <= v < 256) by (apply Hbytes; by eapply list_elem_of_lookup_2).
  split; [|done]. unfold u8. simpl. by apply Z.mod_small.
Qed.
End Blocks.

(** X25: [extractBlock] returns 64 bytes, and the texel [(x, y)] of the
    block of an image (all of whose bytes are given) is the pixel at column
    [min(px + x, width - 1)] and row [min(py + y, height - 1)]: a block that
    reaches over the right or the lower edge repeats the edge pixels, and no
    texel is read from outside the image. *)
Theorem extractBlock_clamps (data : list Z) (width height px py : Z) :
  1 <= width -> 1 <= height -> 0 <= px -> 0 <= py ->
  Z.of_nat (length data) = width * height * 4 ->
  Forall (fun b => 0 <= b < 256) data ->
  length (DdsEncoder.extractBlock data width height px py) = 64%nat /\
  forall x y c, 0 <= x < 4 -> 0 <= y < 4 -> 0 <= c < 4 ->
    let sx := Z.min (px + x) (width - 1) in
    let sy := Z.min (py + y) (height - 1) in
    0 <= sx < width /\ 0 <= sy < height /\
    exists v,
      TypedArray.get data ((sy * width + sx) * 4 + c) = Some v /\
      TypedArray.get (DdsEncoder.extractBlock data width height px py)
                     ((y * 4 + x) * 4 + c) = Some v.
Proof.
  intros Hw Hh Hpx Hpy Hlen Hbytes. split; [by rewrite extractBlock_unfold|].
  intros x y c Hx Hy Hc sx sy.
  assert (Hsx : 0 <= sx < width) by (unfold sx; lia).
  assert (Hsy : 0 <= sy < height) by (unfold sy; lia).
  split; [done|]. split; [done|].
  destruct (byte_at data ((sy * width + sx) * 4 + c) Hbytes) as (v & Hv & Hu & _).
  { rewrite Hlen. nia. }
  exists v. split; [done|].
  rewrite extractBlock_texel by done. fold sx sy. by rewrite Hu.
Qed.

Lemma extractBlock_clamps_witness :
  TypedArray.get
    (DdsEncoder.extractBlock [10; 11; 12; 13; 20; 21; 22; 23] 2 1 0 0) 62 = Some 22.
Proof.
  destruct (extractBlock_clamps [10; 11; 12; 13; 20; 21; 22; 23] 2 1 0 0
              ltac:(lia) ltac:(lia) ltac:(lia) ltac:(lia) eq_refl
              ltac:(repeat constructor; lia)) as [_ H].
  destruct (H 3 3 2 ltac:(lia) ltac:(lia) ltac:(lia)) as (_ & _ & v & Hv & Hb).
  change 62 with ((3 * 4 + 3) * 4 + 2). rewrite Hb, <- Hv. reflexivity.
Defined.

(** ** Texture codec: the block encoders *)

Section BlockEncoders.
Import DdsEncoder TypedArray.

Lemma get_set (a : list Z) (i v j : Z) :
  get (set a i v) j =
  if decide (i = j /\ 0 <= i < Z.of_nat (length a)) then Some (u8 v) else get a j.
Proof.
  destruct (decide (i = j /\ 0 <= i < Z.of_nat (length a))) as [[<- Hin]|Hout].
  - unfold get, set. rewrite !decide_True by lia.
    apply list_lookup_insert_eq. lia.
  - unfold get, set. destruct (decide (0 <= j)) as [Hj|Hj]; [|done].
    destruct (decide (0 <= i)) as [Hi|Hi]; [|done].
    destruct (decide (i = j)) as [->|Hne].
    + rewrite list_insert_ge by lia. done.
    + apply list_lookup_insert_ne. lia.
Qed.

Lemma wrap_small (z : Z) : -2147483648 <= z < 2147483648 -> Int32.wrap z = z.
Proof. intros Hz. unfold Int32.wrap. rewrite Z.mod_small; lia. Qed.

Lemma land_shiftl_low (a b n : Z) :
  0 <= n -> 0 <= b < 2 ^ n -> Z.land (Z.shiftl a n) b = 0.
Proof.
  intros Hn Hb. apply Z.bits_inj'. intros i Hi.
  rewrite Z.land_spec, Z.bits_0.
  destruct (Z.lt_ge_cases i n) as [Hlt|Hge].
  - by rewrite Z.shiftl_spec_low.
  - apply andb_false_iff. right.
    destruct (decide (b = 0)) as [->|Hb0]; [apply Z.bits_0|].
    apply Z.bits_above_log2; [lia|].
    assert (Z.log2 b < n) by (apply Z.log2_lt_pow2; lia). lia.
Qed.

Lemma or_disjoint (a b n : Z) :
  0 <= n -> 0 <= a -> 0 <= b < 2 ^ n -> Z.shiftl a n + b < 2147483648 ->
  Int32.or (Z.shiftl a n) b = Z.shiftl a n + b.
Proof.
  intros Hn Ha Hb Hsum. unfold Int32.or.
  assert (0 <= Z.shiftl a n) by (apply Z.shiftl_nonneg; lia).
  rewrite (wrap_small (Z.shiftl a n)), (wrap_small b) by lia.
  rewrite <- Z.lxor_lor, <- Z.add_nocarry_lxor by (by apply land_shiftl_low).
  apply wrap_small. lia.
Qed.

(** [colorTo565] of three bytes, in arithmetic. *)
Lemma colorTo565_value (r g b : Z) :
  0 <= r < 256 -> 0 <= g < 256 -> 0 <= b < 256 ->
  colorTo565 r g b = pack565 r g b.
Proof.
  intros Hr Hg Hb. unfold pack565, colorTo565, Int32.shl, Int32.shr.
  change (3 mod 32) with 3. change (2 mod 32) with 2.
  change (11 mod 32) with 11. change (5 mod 32) with 5.
  rewrite (wrap_small r), (wrap_small g), (wrap_small b) by lia.
  rewrite !Z.shiftr_div_pow2 by lia.
  change (2 ^ 3) with 8. change (2 ^ 2) with 4.
  assert (0 <= r / 8 < 32) by (Z.div_mod_to_equations; lia).
  assert (0 <= g / 4 < 64) by (Z.div_mod_to_equations; lia).
  assert (0 <= b / 8 < 32) by (Z.div_mod_to_equations; lia).
  rewrite (wrap_small (r / 8)), (wrap_small (g / 4)) by lia.
  assert (E11 : Z.shiftl (r / 8) 11 = r / 8 * 2048) by (rewrite Z.shiftl_mul_pow2; lia).
  assert (E5 : Z.shiftl (g / 4) 5 = g / 4 * 32) by (rewrite Z.shiftl_mul_pow2; lia).
  rewrite (wrap_small (Z.shiftl (r / 8) 11)), (wrap_small (Z.shiftl (g / 4) 5)) by lia.
  rewrite (or_disjoint (r / 8) (Z.shiftl (g / 4) 5) 11) by (rewrite ?E11, ?E5; lia).
  rewrite E11, E5.
  replace (r / 8 * 2048 + g / 4 * 32) with (Z.shiftl (r / 8 * 64 + g / 4) 5)
    by (rewrite Z.shiftl_mul_pow2; lia).
  rewrite or_disjoint; rewrite ?Z.shiftl_mul_pow2; lia.
Qed.

Lemma pack565_range (r g b : Z) :
  0 <= r < 256 -> 0 <= g < 256 -> 0 <= b < 256 -> 0 <= pack565 r g b < 65536.
Proof. intros Hr Hg Hb. unfold pack565. Z.div_mod_to_equations. lia. Qed.

Lemma pack565_mono (r1 g1 b1 r2 g2 b2 : Z) :
  r1 <= r2 -> g1 <= g2 -> b1 <= b2 -> pack565 r1 g1 b1 <= pack565 r2 g2 b2.
Proof. intros Hr Hg Hb. unfold pack565. Z.div_mod_to_equations. lia. Qed.

Lemma shr4_value (d : Z) : 0 <= d < 256 -> Int32.shr d 4 = d / 16.
Proof.
  intros Hd. unfold Int32.shr. rewrite wrap_small by lia.
  change (4 mod 32) with 4. rewrite Z.shiftr_div_pow2 by lia. reflexivity.
Qed.

Lemma low_byte (c : Z) : 0 <= c < 65536 -> u8 (Int32.and c 0xff) = c mod 256.
Proof.
  intros Hc. unfold u8, Int32.and. rewrite (wrap_small c), (wrap_small 255) by lia.
  change 255 with (Z.ones 8). rewrite Z.land_ones by lia. change (2 ^ 8) with 256.
  rewrite wrap_small by (Z.div_mod_to_equations; lia).
  apply Z.mod_small. Z.div_mod_to_equations; lia.
Qed.

Lemma high_byte (c : Z) :
  0 <= c < 65536 -> u8 (Int32.and (Int32.shr c 8) 0xff) = c / 256.
Proof.
  intros Hc. unfold u8, Int32.and, Int32.shr. change (8 mod 32) with 8.
  rewrite (wrap_small c), (wrap_small 255) by lia.
  rewrite Z.shiftr_div_pow2 by lia. change (2 ^ 8) with 256.
  assert (0 <= c / 256 < 256) by (Z.div_mod_to_equations; lia).
  rewrite (wrap_small (c / 256)) by lia.
  change 255 with (Z.ones 8). rewrite Z.land_ones by lia. change (2 ^ 8) with 256.
  rewrite wrap_small by (Z.div_mod_to_equations; lia).
  rewrite Z.mod_mod by lia. by apply Z.mod_small.
Qed.

Lemma foldl_invariant_in {A B} (P : A -> Prop) (f : A -> B -> A) (l : list B) (a : A) :
  (forall a b, b ∈ l -> P a -> P (f a b)) -> P a -> P (foldl f a l).
Proof.
  revert a. induction l as [|x l IH]; intros a Hf Ha; [done|].
  cbn [foldl]. apply IH.
  - intros a' b Hb. apply Hf. by right.
  - apply Hf; [by left|done].
Qed.

Lemma foldl_cons_eq {A B} (f : A -> B -> A) (a : A) (x : B) (l : list B) :
  foldl f a (x :: l) = foldl f (f a x) l.
Proof. reflexivity. Qed.

(** The running minimum of the code, [if (v < min) min = v] from 255, over
    values that are all defined bytes. *)
Lemma running_min (f : Z -> option Z) (l : list Z) :
  l <> [] ->
  (forall i, i ∈ l -> exists v, f i = Some v /\ 0 <= v < 256) ->
  let mn := foldl (fun m i => lower (f i) m) 255 l in
  0 <= mn < 256 /\
  (forall i, i ∈ l -> exists v, f i = Some v /\ mn <= v) /\
  (exists i, i ∈ l /\ f i = Some mn).
Proof.
  intros Hne Hgood. cbv zeta.
  pose proof (foldl_prefix_invariant
    (fun l m => (forall i, i ∈ l -> exists v, f i = Some v /\ 0 <= v < 256) ->
                (l = [] /\ m = 255) \/
                (0 <= m < 256 /\
                 (forall i, i ∈ l -> exists v, f i = Some v /\ m <= v) /\
                 exists i, i ∈ l /\ f i = Some m))
    (fun m i => lower (f i) m) 255 l) as Hinv.
  cbv beta in Hinv.
  specialize (Hinv (fun _ => or_introl (conj eq_refl eq_refl))).
  match type of Hinv with
  | ?premise -> _ => assert (Hstep : premise); [|specialize (Hinv Hstep); clear Hstep]
  end.
  { clear. intros l x m IH Hg.
    assert (Hg' : forall i, i ∈ l -> exists v, f i = Some v /\ 0 <= v < 256).
    { intros i Hi. apply Hg. apply elem_of_app. by left. }
    destruct (Hg x) as (v & Hv & Hvb).
    { apply elem_of_app. right. by apply list_elem_of_singleton. }
    right. rewrite Hv. unfold lower.
    destruct (IH Hg') as [[-> ->]|(Hm & Hall & (j & Hj & Ej))].
    - cbn [app]. split; [destruct (decide _); lia|]. split.
      + intros i Hi. apply list_elem_of_singleton in Hi. subst i.
        exists v. split; [done|]. destruct (decide _); lia.
      + exists x. split; [by apply list_elem_of_singleton|].
        rewrite Hv. f_equal. destruct (decide _); lia.
    - split; [destruct (decide _); lia|]. split.
      + intros i Hi. apply elem_of_app in Hi as [Hi|Hi].
        * destruct (Hall i Hi) as (w & Hw & Hmw). exists w. split; [done|].
          destruct (decide _); lia.
        * apply list_elem_of_singleton in Hi. subst i.
          exists v. split; [done|]. destruct (decide _); lia.
      + destruct (decide (v < m)).
        * exists x. split; [|done]. apply elem_of_app. right.
          by apply list_elem_of_singleton.
        * exists j. split; [|done]. apply elem_of_app. by left. }
  destruct (Hinv Hgood) as [[Hnil _]|Hres]; [done|exact Hres].
Qed.

(** The running maximum of the code, [if (v > max) max = v] from 0. *)
Lemma running_max (f : Z -> option Z) (l : list Z) :
  l <> [] ->
  (forall i, i ∈ l -> exists v, f i = Some v /\ 0 <= v < 256) ->
  let mx := foldl (fun m i => raise (f i) m) 0 l in
  0 <= mx < 256 /\
  (forall i, i ∈ l -> exists v, f i = Some v /\ v <= mx) /\
  (exists i, i ∈ l /\ f i = Some mx).
Proof.
  intros Hne Hgood. cbv zeta.
  pose proof (foldl_prefix_invariant
    (fun l m => (forall i, i ∈ l -> exists v, f i = Some v /\ 0 <= v < 256) ->
                (l = [] /\ m = 0) \/
                (0 <= m < 256 /\
                 (forall i, i ∈ l -> exists v, f i = Some v /\ v <= m) /\
                 exists i, i ∈ l /\ f i = Some m))
    (fun m i => raise (f i) m) 0 l) as Hinv.
  cbv beta in Hinv.
  specialize (Hinv (fun _ => or_introl (conj eq_refl eq_refl))).
  match type of Hinv with
  | ?premise -> _ => assert (Hstep : premise); [|specialize (Hinv Hstep); clear Hstep]
  end.
  { clear. intros l x m IH Hg.
    assert (Hg' : forall i, i ∈ l -> exists v, f i = Some v /\ 0 <= v < 256).
    { intros i Hi. apply Hg. apply elem_of_app. by left. }
    destruct (Hg x) as (v & Hv & Hvb).
    { apply elem_of_app. right. by apply list_elem_of_singleton. }
    right. rewrite Hv. unfold raise.
    destruct (IH Hg') as [[-> ->]|(Hm & Hall & (j & Hj & Ej))].
    - cbn [app]. split; [destruct (decide _); lia|]. split.
      + intros i Hi. apply list_elem_of_singleton in Hi. subst i.
        exists v. split; [done|]. destruct (decide _); lia.
      + exists x. split; [by apply list_elem_of_singleton|].
        rewrite Hv. f_equal. destruct (decide _); lia.
    - split; [destruct (decide _); lia|]. split.
      + intros i Hi. apply elem_of_app in Hi as [Hi|Hi].
        * destruct (Hall i Hi) as (w & Hw & Hmw). exists w. split; [done|].
          destruct (decide _); lia.
        * apply list_elem_of_singleton in Hi. subst i.
          exists v. split; [done|]. destruct (decide _); lia.
      + destruct (decide (v > m)).
        * exists x. split; [|done]. apply elem_of_app. right.
          by apply list_elem_of_singleton.
        * exists j. split; [|done]. apply elem_of_app. by left. }
  destruct (Hinv Hgood) as [[Hnil _]|Hres]; [done|exact Hres].
Qed.

(** Of a block of 64 bytes, the two running bounds of a channel are the least
    and the greatest value of that channel. *)
Lemma channel_bounds (block : list Z) (c : Z) :
  length block = 64%nat -> Forall (fun b => 0 <= b < 256) block -> 0 <= c < 4 ->
  let mn := foldl (fun m i => lower (get block (i * 4 + c)) m) 255 (upto 16) in
  let mx := foldl (fun m i => raise (get block (i * 4 + c)) m) 0 (upto 16) in
  channel_range block c mn mx /\ 0 <= mn <= mx /\ mx < 256.
Proof.
  intros Hlen Hbytes Hc. cbv zeta.
  assert (Hgood : forall i, i ∈ upto 16 ->
            exists v, get block (i * 4 + c) = Some v /\ 0 <= v < 256).
  { intros i Hi. apply elem_of_seqZ in Hi.
    destruct (byte_at block (i * 4 + c) Hbytes) as (v & Hv & _ & Hb); [lia|].
    by exists v. }
  assert (Hne : upto 16 <> []) by (change (upto 16) with (0 :: seqZ 1 15); done).
  destruct (running_min (fun i => get block (i * 4 + c)) (upto 16) Hne Hgood)
    as (Hmn & Hall_mn & (j & Hj & Ej)).
  destruct (running_max (fun i => get block (i * 4 + c)) (upto 16) Hne Hgood)
    as (Hmx & Hall_mx & (k & Hk & Ek)).
  cbv beta in *.
  set (mn := foldl (fun m i => lower (get block (i * 4 + c)) m) 255 (upto 16)) in *.
  set (mx := foldl (fun m i => raise (get block (i * 4 + c)) m) 0 (upto 16)) in *.
  assert (Hin : forall i, 0 <= i < 16 -> i ∈ upto 16).
  { intros i Hi. apply elem_of_seqZ. lia. }
  split; [|split; [|lia]].
  - split; [|split].
    + intros i Hi.
      destruct (Hall_mn i (Hin i Hi)) as (v & Hv & Hlo).
      destruct (Hall_mx i (Hin i Hi)) as (v' & Hv' & Hhi).
      rewrite Hv in Hv'. injection Hv' as <-. exists v. split; [done|lia].
    + exists j. apply elem_of_seqZ in Hj. split; [lia|done].
    + exists k. apply elem_of_seqZ in Hk. split; [lia|done].
  - destruct (Hall_mx j Hj) as (v & Hv & Hhi). rewrite Ej in Hv. injection Hv as <-. lia.
Qed.

(** The bounds of a channel are determined by the block. *)
Lemma channel_range_unique (block : list Z) (c mn mx mn' mx' : Z) :
  channel_range block c mn mx -> channel_range block c mn' mx' -> mn = mn' /\ mx = mx'.
Proof.
  intros (Hall & (j & Hj & Ej) & (k & Hk & Ek)) (Hall' & (j' & Hj' & Ej') & (k' & Hk' & Ek')).
  destruct (Hall j' Hj') as (v1 & E1 & ?). rewrite Ej' in E1. injection E1 as <-.
  destruct (Hall k' Hk') as (v2 & E2 & ?). rewrite Ek' in E2. injection E2 as <-.
  destruct (Hall' j Hj) as (v3 & E3 & ?). rewrite Ej in E3. injection E3 as <-.
  destruct (Hall' k Hk) as (v4 & E4 & ?). rewrite Ek in E4. injection E4 as <-.
  lia.
Qed.

(** The six bounds of [encodeBC1Block] on a block of 64 bytes. *)
Lemma colorBounds_range (block : list Z) :
  length block = 64%nat -> Forall (fun b => 0 <= b < 256) block ->
  let bd := colorBounds block in
  (channel_range block 0 (minR bd) (maxR bd) /\ 0 <= minR bd <= maxR bd /\ maxR bd < 256) /\
  (channel_range block 1 (minG bd) (maxG bd) /\ 0 <= minG bd <= maxG bd /\ maxG bd < 256) /\
  (channel_range block 2 (minB bd) (maxB bd) /\ 0 <= minB bd <= maxB bd /\ maxB bd < 256).
Proof.
  intros Hlen Hbytes. cbv zeta.
  pose proof (channel_bounds block 0 Hlen Hbytes ltac:(lia)) as HR.
  pose proof (channel_bounds block 1 Hlen Hbytes ltac:(lia)) as HG.
  pose proof (channel_bounds block 2 Hlen Hbytes ltac:(lia)) as HB.
  cbv zeta in HR, HG, HB.
  unfold colorBounds.
  rewrite (foldl_proj minR _ (fun m i => lower (get block (i * 4 + 0)) m))
    by (intros bd i; cbn [minR]; by rewrite Z.add_0_r).
  rewrite (foldl_proj maxR _ (fun m i => raise (get block (i * 4 + 0)) m))
    by (intros bd i; cbn [maxR]; by rewrite Z.add_0_r).
  rewrite (foldl_proj minG _ (fun m i => lower (get block (i * 4 + 1)) m))
    by (intros bd i; reflexivity).
  rewrite (foldl_proj maxG _ (fun m i => raise (get block (i * 4 + 1)) m))
    by (intros bd i; reflexivity).
  rewrite (foldl_proj minB _ (fun m i => lower (get block (i * 4 + 2)) m))
    by (intros bd i; reflexivity).
  rewrite (foldl_proj maxB _ (fun m i => raise (get block (i * 4 + 2)) m))
    by (intros bd i; reflexivity).
  cbn [minR minG minB maxR maxG maxB].
  split; [exact HR|]. split; [exact HG|exact HB].
Qed.

(** The two bounds of [encodeBC3AlphaBlock] on a block of 64 bytes. *)
Lemma alpha_bounds (block : list Z) (minA maxA : Z) :
  length block = 64%nat -> Forall (fun b => 0 <= b < 256) block ->
  foldl (fun '(minA, maxA) i =>
           let a := get block (i * 4 + 3) in
           let minA := lower a minA in
           let maxA := raise a maxA in
           (minA, maxA))
        (255, 0) (upto 16) = (minA, maxA) ->
  channel_range block 3 minA maxA /\ 0 <= minA <= maxA /\ maxA < 256.
Proof.
  intros Hlen Hbytes Hfold.
  pose proof (channel_bounds block 3 Hlen Hbytes ltac:(lia)) as HA. cbv zeta in HA.
  assert (Emin : minA = foldl (fun m i => lower (get block (i * 4 + 3)) m) 255 (upto 16)).
  { change minA with (fst (minA, maxA)). rewrite <- Hfold.
    apply (foldl_proj fst). by intros [mn mx] i. }
  assert (Emax : maxA = foldl (fun m i => raise (get block (i * 4 + 3)) m) 0 (upto 16)).
  { change maxA with (snd (minA, maxA)). rewrite <- Hfold.
    apply (foldl_proj snd). by intros [mn mx] i. }
  rewrite Emin, Emax. exact HA.
Qed.

Lemma colorBounds_solid (block : list Z) (r g b : Z) :
  (forall i, 0 <= i < 16 ->
     get block (i * 4) = Some r /\ get block (i * 4 + 1) = Some g /\
     get block (i * 4 + 2) = Some b) ->
  0 <= r < 256 -> 0 <= g < 256 -> 0 <= b < 256 ->
  colorBounds block = mkBounds r g b r g b.
Proof.
  intros Hsolid Hr Hg Hb. unfold colorBounds.
  change (upto 16) with (0 :: seqZ 1 15). rewrite foldl_cons_eq.
  apply (foldl_invariant_in (fun bd => bd = mkBounds r g b r g b)).
  - intros bd i Hi ->. apply elem_of_seqZ in Hi.
    destruct (Hsolid i ltac:(lia)) as (-> & -> & ->).
    cbn [minR minG minB maxR maxG maxB lower raise].
    repeat destruct (decide _); f_equal; lia.
  - destruct (Hsolid 0 ltac:(lia)) as (-> & -> & ->).
    cbn [minR minG minB maxR maxG maxB lower raise].
    repeat destruct (decide _); f_equal; lia.
Qed.

Lemma round_div_thirds (x : Z) : round_div (2 * x + x) 3 = x /\ round_div (x + 2 * x) 3 = x.
Proof. unfold round_div. split; Z.div_mod_to_equations; lia. Qed.

(** Eight consecutive writes: the bytes read back, and the frame. *)
Lemma eight_writes (output : list Z) (offset v0 v1 v2 v3 v4 v5 v6 v7 : Z) :
  let out :=
    set (set (set (set (set (set (set (set output offset v0) (offset + 1) v1)
      (offset + 2) v2) (offset + 3) v3) (offset + 4) v4) (offset + 5) v5)
      (offset + 6) v6) (offset + 7) v7 in
  (forall j, ~ (offset <= j < offset + 8) -> get out j = get output j) /\
  (0 <= offset -> offset + 8 <= Z.of_nat (length output) ->
   get out offset = Some (u8 v0) /\ get out (offset + 1) = Some (u8 v1) /\
   get out (offset + 2) = Some (u8 v2) /\ get out (offset + 3) = Some (u8 v3) /\
   get out (offset + 4) = Some (u8 v4) /\ get out (offset + 5) = Some (u8 v5) /\
   get out (offset + 6) = Some (u8 v6) /\ get out (offset + 7) = Some (u8 v7)).
Proof.
  cbv zeta.
  assert (Hread : forall a i v j, get (set a i v) j =
            if decide (i = j /\ 0 <= i < Z.of_nat (length a)) then Some (u8 v) else get a j)
    by apply get_set.
  split.
  - intros j Hj. rewrite !Hread, !length_set.
    repeat (rewrite decide_False by lia). reflexivity.
  - intros Hoff Hlen.
    repeat split; rewrite !Hread, !length_set;
      repeat (rewrite decide_False by lia); rewrite ?decide_True by lia; reflexivity.
Qed.

(** The code's bytes on a block with no texel at all: the bounds stay at
    their initial values 255 and 0, and every selector stays 0. *)
Example encodeBC1Block_no_texels :
  encodeBC1Block [] (replicate 8 0) 0 = [125; 239; 130; 16; 0; 0; 0; 0].
Proof. vm_compute. reflexivity. Qed.

Example encodeBC3AlphaBlock_no_texels :
  encodeBC3AlphaBlock [] (replicate 8 0) 0 = [0; 255; 0; 0; 0; 0; 0; 0].
Proof. vm_compute. reflexivity. Qed.
End BlockEncoders.

(** X26: [encodeBC1Block] writes the eight bytes at [offset] and no other:
    every other byte of the output is as before. Of a block of 64 bytes, the
    first four bytes written are the block's two endpoint colours, low byte
    first: with [mn] and [mx] the least and the greatest value of a channel
    over the sixteen texels, the first endpoint is the colour
    [mx - (mx - mn) / 16] of the three channels, the second the colour
    [mn + (mx - mn) / 16], each reduced to 5, 6 and 5 bits; the first is
    never below the second, so the code's swap of the endpoints never
    happens. *)
Theorem encodeBC1Block_endpoints (block output : list Z) (offset : Z) :
  let out := DdsEncoder.encodeBC1Block block output offset in
  (forall j, ~ (offset <= j < offset + 8) ->
     TypedArray.get out j = TypedArray.get output j) /\
  (length block = 64%nat -> Forall (fun b => 0 <= b < 256) block ->
   0 <= offset -> offset + 8 <= Z.of_nat (length output) ->
   exists mnR mxR mnG mxG mnB mxB,
     channel_range block 0 mnR mxR /\
     channel_range block 1 mnG mxG /\
     channel_range block 2 mnB mxB /\
     let c0 := pack565 (mxR - (mxR - mnR) / 16) (mxG - (mxG - mnG) / 16)
                       (mxB - (mxB - mnB) / 16) in
     let c1 := pack565 (mnR + (mxR - mnR) / 16) (mnG + (mxG - mnG) / 16)
                       (mnB + (mxB - mnB) / 16) in
     c1 <= c0 /\
     TypedArray.get out offset = Some (c0 mod 256) /\
     TypedArray.get out (offset + 1) = Some (c0 / 256) /\
     TypedArray.get out (offset + 2) = Some (c1 mod 256) /\
     TypedArray.get out (offset + 3) = Some (c1 / 256)).
Proof.
  cbv zeta. split.
  - intros j Hj. unfold DdsEncoder.encodeBC1Block. cbv zeta.
    destruct (decide _); cbv beta iota zeta;
      match goal with
      | |- TypedArray.get
             (TypedArray.set
                (TypedArray.set
                   (TypedArray.set
                      (TypedArray.set
                         (TypedArray.set
                            (TypedArray.set
                               (TypedArray.set (TypedArray.set output offset ?v0) _ ?v1)
                               _ ?v2) _ ?v3) _ ?v4) _ ?v5) _ ?v6) _ ?v7) j = _ =>
          exact (proj1 (eight_writes output offset v0 v1 v2 v3 v4 v5 v6 v7) j Hj)
      end.
  - intros Hlen Hbytes Hoff Hout.
    destruct (colorBounds_range block Hlen Hbytes)
      as ((HR & Hr) & (HG & Hg) & (HB & Hb)).
    exists (DdsEncoder.minR (DdsEncoder.colorBounds block)),
           (DdsEncoder.maxR (DdsEncoder.colorBounds block)),
           (DdsEncoder.minG (DdsEncoder.colorBounds block)),
           (DdsEncoder.maxG (DdsEncoder.colorBounds block)),
           (DdsEncoder.minB (DdsEncoder.colorBounds block)),
           (DdsEncoder.maxB (DdsEncoder.colorBounds block)).
    split; [exact HR|]. split; [exact HG|]. split; [exact HB|].
    clear HR HG HB Hlen Hbytes.
    unfold DdsEncoder.encodeBC1Block. cbv zeta.
    set (mnR := DdsEncoder.minR (DdsEncoder.colorBounds block)) in *.
    set (mxR := DdsEncoder.maxR (DdsEncoder.colorBounds block)) in *.
    set (mnG := DdsEncoder.minG (DdsEncoder.colorBounds block)) in *.
    set (mxG := DdsEncoder.maxG (DdsEncoder.colorBounds block)) in *.
    set (mnB := DdsEncoder.minB (DdsEncoder.colorBounds block)) in *.
    set (mxB := DdsEncoder.maxB (DdsEncoder.colorBounds block)) in *.
    rewrite (shr4_value (mxR - mnR)), (shr4_value (mxG - mnG)),
      (shr4_value (mxB - mnB)) by lia.
    assert (Hinset : forall mn mx, 0 <= mn <= mx -> mx < 256 ->
              0 <= mn + (mx - mn) / 16 <= mx - (mx - mn) / 16 /\
              mx - (mx - mn) / 16 < 256).
    { intros mn mx H1 H2. Z.div_mod_to_equations. lia. }
    pose proof (Hinset mnR mxR ltac:(lia) ltac:(lia)) as HiR.
    pose proof (Hinset mnG mxG ltac:(lia) ltac:(lia)) as HiG.
    pose proof (Hinset mnB mxB ltac:(lia) ltac:(lia)) as HiB.
    clear Hinset.
    set (loR := mnR + (mxR - mnR) / 16) in *. set (hiR := mxR - (mxR - mnR) / 16) in *.
    set (loG := mnG + (mxG - mnG) / 16) in *. set (hiG := mxG - (mxG - mnG) / 16) in *.
    set (loB := mnB + (mxB - mnB) / 16) in *. set (hiB := mxB - (mxB - mnB) / 16) in *.
    rewrite (Z.min_r 255 loR), (Z.min_r 255 loG), (Z.min_r 255 loB) by lia.
    rewrite (Z.max_r 0 hiR), (Z.max_r 0 hiG), (Z.max_r 0 hiB) by lia.
    rewrite (colorTo565_value hiR hiG hiB), (colorTo565_value loR loG loB) by lia.
    pose proof (pack565_range hiR hiG hiB ltac:(lia) ltac:(lia) ltac:(lia)) as Hc0.
    pose proof (pack565_range loR loG loB ltac:(lia) ltac:(lia) ltac:(lia)) as Hc1.
    pose proof (pack565_mono loR loG loB hiR hiG hiB ltac:(lia) ltac:(lia) ltac:(lia))
      as Hle.
    set (c0 := pack565 hiR hiG hiB) in *. set (c1 := pack565 loR loG loB) in *.
    rewrite (decide_False (P := c0 < c1)) by lia. cbv beta iota zeta.
    match goal with
    | |- context [TypedArray.set
                    (TypedArray.set
                       (TypedArray.set
                          (TypedArray.set
                             (TypedArray.set
                                (TypedArray.set
                                   (TypedArray.set (TypedArray.set output offset ?v0) _ ?v1)
                                   _ ?v2) _ ?v3) _ ?v4) _ ?v5) _ ?v6) _ ?v7] =>
        destruct (proj2 (eight_writes output offset v0 v1 v2 v3 v4 v5 v6 v7) Hoff Hout)
          as (E0 & E1 & E2 & E3 & _)
    end.
    rewrite E0, E1, E2, E3. clear E0 E1 E2 E3.
    rewrite (low_byte c0), (high_byte c0), (low_byte c1), (high_byte c1) by lia.
    split; [exact Hle|]. repeat split.
Qed.

(** X26 at a block whose texels alternate between black and white. *)
Lemma encodeBC1Block_endpoints_witness :
  let block := concat (replicate 8 [0; 0; 0; 255; 255; 255; 255; 255]) in
  let out := DdsEncoder.encodeBC1Block block (replicate 8 0) 0 in
  exists mnR mxR mnG mxG mnB mxB,
    channel_range block 0 mnR mxR /\
    channel_range block 1 mnG mxG /\
    channel_range block 2 mnB mxB /\
    let c0 := pack565 (mxR - (mxR - mnR) / 16) (mxG - (mxG - mnG) / 16)
                      (mxB - (mxB - mnB) / 16) in
    let c1 := pack565 (mnR + (mxR - mnR) / 16) (mnG + (mxG - mnG) / 16)
                      (mnB + (mxB - mnB) / 16) in
    c1 <= c0 /\
    TypedArray.get out 0 = Some (c0 mod 256) /\
    TypedArray.get out (0 + 1) = Some (c0 / 256) /\
    TypedArray.get out (0 + 2) = Some (c1 mod 256) /\
    TypedArray.get out (0 + 3) = Some (c1 / 256).
Proof.
  apply (proj2 (encodeBC1Block_endpoints
                  (concat (replicate 8 [0; 0; 0; 255; 255; 255; 255; 255]))
                  (replicate 8 0) 0)).
  - reflexivity.
  - refine (bool_decide_unpack _ _). vm_compute. exact I.
  - lia.
  - simpl. lia.
Defined.

(** X27: a block all of whose sixteen texels have the one colour [(r, g, b)]
    is encoded by [encodeBC1Block] as that colour, reduced to 5, 6 and 5
    bits, in both endpoints, with all sixteen selectors zero: a decoder
    gives every texel the first endpoint. *)
Theorem encodeBC1Block_solid (block output : list Z) (offset r g b : Z) :
  0 <= r < 256 -> 0 <= g < 256 -> 0 <= b < 256 ->
  (forall i, 0 <= i < 16 ->
     TypedArray.get block (i * 4) = Some r /\
     TypedArray.get block (i * 4 + 1) = Some g /\
     TypedArray.get block (i * 4 + 2) = Some b) ->
  0 <= offset -> offset + 8 <= Z.of_nat (length output) ->
  let c := pack565 r g b in
  let out := DdsEncoder.encodeBC1Block block output offset in
  map (fun k => TypedArray.get out (offset + k)) [0; 1; 2; 3; 4; 5; 6; 7] =
  map Some [c mod 256; c / 256; c mod 256; c / 256; 0; 0; 0; 0].
Proof.
  intros Hr Hg Hb Hsolid Hoff Hlen c out. subst out.
  unfold DdsEncoder.encodeBC1Block. cbv zeta.
  rewrite (colorBounds_solid block r g b) by done.
  cbn [DdsEncoder.minR DdsEncoder.minG DdsEncoder.minB
       DdsEncoder.maxR DdsEncoder.maxG DdsEncoder.maxB].
  rewrite !Z.sub_diag. change (Int32.shr 0 4) with 0.
  rewrite !Z.add_0_r, !Z.sub_0_r.
  rewrite (Z.min_r 255 r), (Z.min_r 255 g), (Z.min_r 255 b) by lia.
  rewrite (Z.max_r 0 r), (Z.max_r 0 g), (Z.max_r 0 b) by lia.
  rewrite (colorTo565_value r g b) by done. fold c.
  rewrite (decide_False (P := c < c)) by lia. cbv beta iota zeta.
  assert (Hc : 0 <= c < 65536) by (by apply pack565_range).
  match goal with
  | |- context [foldl ?step 0 (DdsEncoder.upto 16)] =>
      assert (Hidx : foldl step 0 (DdsEncoder.upto 16) = 0)
  end.
  { apply (foldl_invariant_in (fun indices => indices = 0)); [|done].
    intros indices i Hi ->. apply elem_of_seqZ in Hi.
    destruct (Hsolid i ltac:(lia)) as (-> & -> & ->).
    cbn [map]. rewrite !(proj1 (round_div_thirds _)), !(proj2 (round_div_thirds _)).
    rewrite !Z.sub_diag. change (DdsEncoder.closest _) with 0.
    unfold Int32.shl. change (Int32.wrap 0) with 0. by rewrite Z.shiftl_0_l. }
  rewrite Hidx. clear Hidx.
  change (Int32.shr 0 8) with 0. change (Int32.shr 0 16) with 0.
  change (Int32.shr 0 24) with 0. change (Int32.and 0 255) with 0.
  match goal with
  | |- context [TypedArray.set
                  (TypedArray.set
                     (TypedArray.set
                        (TypedArray.set
                           (TypedArray.set
                              (TypedArray.set
                                 (TypedArray.set (TypedArray.set output offset ?v0) _ ?v1)
                                 _ ?v2) _ ?v3) _ ?v4) _ ?v5) _ ?v6) _ ?v7] =>
      destruct (proj2 (eight_writes output offset v0 v1 v2 v3 v4 v5 v6 v7) Hoff Hlen)
        as (E0 & E1 & E2 & E3 & E4 & E5 & E6 & E7)
  end.
  cbn [map]. rewrite Z.add_0_r, E0, E1, E2, E3, E4, E5, E6, E7.
  rewrite (low_byte c), (high_byte c) by lia. reflexivity.
Qed.

(** X27 at a block of sixteen red texels. *)
Lemma encodeBC1Block_solid_witness :
  map (fun k => TypedArray.get
                  (DdsEncoder.encodeBC1Block (concat (replicate 16 [255; 0; 0; 255]))
                     (replicate 8 0) 0) (0 + k))
      [0; 1; 2; 3; 4; 5; 6; 7] =
  map Some [0; 248; 0; 248; 0; 0; 0; 0].
Proof.
  apply (encodeBC1Block_solid (concat (replicate 16 [255; 0; 0; 255]))
           (replicate 8 0) 0 255 0 0); [lia|lia|lia| |lia|simpl; lia].
  intros i Hi.
  assert (i = 0 \/ i = 1 \/ i = 2 \/ i = 3 \/ i = 4 \/ i = 5 \/ i = 6 \/ i = 7 \/
          i = 8 \/ i = 9 \/ i = 10 \/ i = 11 \/ i = 12 \/ i = 13 \/ i = 14 \/ i = 15)
    as Hcases by lia.
  repeat (destruct Hcases as [->|Hcases]; [by vm_compute|]).
  subst i. by vm_compute.
Defined.

(** X28: [encodeBC3AlphaBlock] writes the eight bytes at [offset] and no
    other. Of a block of 64 bytes, the first byte written is the greatest
    alpha of the sixteen texels and the second the least: the two endpoints
    are alphas of the block and every texel's alpha lies between them. *)
Theorem encodeBC3AlphaBlock_endpoints (block output : list Z) (offset : Z) :
  let out := DdsEncoder.encodeBC3AlphaBlock block output offset in
  (forall j, ~ (offset <= j < offset + 8) ->
     TypedArray.get out j = TypedArray.get output j) /\
  (length block = 64%nat -> Forall (fun b => 0 <= b < 256) block ->
   0 <= offset -> offset + 8 <= Z.of_nat (length output) ->
   exists minA maxA,
     channel_range block 3 minA maxA /\
     TypedArray.get out offset = Some maxA /\
     TypedArray.get out (offset + 1) = Some minA).
Proof.
  cbv zeta. unfold DdsEncoder.encodeBC3AlphaBlock.
  destruct (foldl _ (255, 0) (DdsEncoder.upto 16)) as [minA maxA] eqn:Hfold.
  cbv zeta.
  match goal with
  | |- context [TypedArray.set
                  (TypedArray.set
                     (TypedArray.set
                        (TypedArray.set
                           (TypedArray.set
                              (TypedArray.set
                                 (TypedArray.set (TypedArray.set output offset ?v0) _ ?v1)
                                 _ ?v2) _ ?v3) _ ?v4) _ ?v5) _ ?v6) _ ?v7] =>
      destruct (eight_writes output offset v0 v1 v2 v3 v4 v5 v6 v7) as [Hframe Hbytes8]
  end.
  split; [exact Hframe|].
  intros Hlen Hbytes Hoff Hout. specialize (Hbytes8 Hoff Hout).
  destruct (alpha_bounds block minA maxA Hlen Hbytes Hfold) as (Hrange & Hord & Hmax).
  destruct Hbytes8 as (E0 & E1 & _).
  exists minA, maxA. rewrite E0, E1. clear E0 E1 Hframe Hfold.
  unfold TypedArray.u8.
  rewrite (Z.mod_small maxA 256), (Z.mod_small minA 256) by lia.
  split; [exact Hrange|]. split; reflexivity.
Qed.

(** X28 at a block whose alphas alternate between 40 and 200. *)
Lemma encodeBC3AlphaBlock_endpoints_witness :
  let block := concat (replicate 8 [1; 2; 3; 40; 5; 6; 7; 200]) in
  let out := DdsEncoder.encodeBC3AlphaBlock block (replicate 16 0) 0 in
  exists minA maxA,
    channel_range block 3 minA maxA /\
    TypedArray.get out 0 = Some maxA /\
    TypedArray.get out (0 + 1) = Some minA.
Proof.
  apply (proj2 (encodeBC3AlphaBlock_endpoints
                  (concat (replicate 8 [1; 2; 3; 40; 5; 6; 7; 200]))
                  (replicate 16 0) 0)).
  - reflexivity.
  - refine (bool_decide_unpack _ _). vm_compute. exact I.
  - lia.
  - simpl. lia.
Defined.
